(** * AudioEngineDevice: the engine state machine

    A shallow embedding of [modules/audio_device/audio_engine_device.mm]
    (and of the declarations of its header): the [EngineState] value type,
    the [EngineStateUpdate] diff, the state-transition driver
    [ModifyEngineState], the two appliers, the engine start retry loop, the
    manual render loop, the debounced default-device watcher, and the life
    cycle ([Init], [Terminate]) with the device lists of the desktop.

    Conventions of the embedding.
    - [bool] fields are [bool]; [uint32_t], [long], [int32_t], [int64_t]
      values are [Z], the wrap-around of a [uint32_t] increment written out.
    - Objective-C and C++ object pointers are [option Obj]; [None] is
      [nil]/[nullptr].
    - The appliers run in a small state monad with early exit over the record
      [World] of the members of [AudioEngineDevice].  Every call that leaves
      the object (observer callback, audio graph edit, PCM buffer call,
      sleep) is appended to the [trace] of the world.
    - The host platform is not modelled: every value the code reads back from
      it is given by an oracle of the record [Platform], a function of the
      trace so far.  Theorems quantify over all platforms.
    - [RTC_DCHECK]s and log lines have no effect in a release build and are
      left out. *)

From Stdlib Require Import ZArith Bool List Lia Arith.
From Stdlib Require String.
Import String.StringSyntax.
Delimit Scope string_scope with string.
From Equations Require Import Equations.
Import ListNotations.

Local Open Scope Z_scope.

(** ** EngineState *)

Inductive RenderMode := Device | Manual.

Inductive MuteMode := VoiceProcessing | RestartEngine | InputMixer.

Definition RenderMode_eqb (a b : RenderMode) : bool :=
  match a, b with
  | Device, Device | Manual, Manual => true
  | _, _ => false
  end.

Definition MuteMode_eqb (a b : MuteMode) : bool :=
  match a, b with
  | VoiceProcessing, VoiceProcessing
  | RestartEngine, RestartEngine
  | InputMixer, InputMixer => true
  | _, _ => false
  end.

(** [kAudioObjectUnknown], the id that stands for "the default device". *)
Definition kAudioObjectUnknown : Z := 0.

Record EngineState := mkEngineState {
  input_enabled : bool;
  input_running : bool;
  output_enabled : bool;
  output_running : bool;
  input_follow_mode : bool;
  input_enabled_persistent_mode : bool;
  input_muted : bool;
  is_interrupted : bool;
  render_mode : RenderMode;
  mute_mode : MuteMode;
  voice_processing_enabled : bool;
  voice_processing_bypassed : bool;
  voice_processing_agc_enabled : bool;
  advanced_ducking : bool;
  ducking_level : Z;
  output_device_id : Z;
  input_device_id : Z;
  default_output_device_update_count : Z;
  default_input_device_update_count : Z
}.

(** The member initialisers of the struct: [EngineState{}]. *)
Definition default_EngineState : EngineState := {|
  input_enabled := false;
  input_running := false;
  output_enabled := false;
  output_running := false;
  input_follow_mode := true;
  input_enabled_persistent_mode := false;
  input_muted := true;
  is_interrupted := false;
  render_mode := Device;
  mute_mode := VoiceProcessing;
  voice_processing_enabled := true;
  voice_processing_bypassed := false;
  voice_processing_agc_enabled := true;
  advanced_ducking := true;
  ducking_level := 0;
  output_device_id := 0;
  input_device_id := 0;
  default_output_device_update_count := 0;
  default_input_device_update_count := 0
|}.

(** [operator==]. *)
Definition EngineState_eqb (a b : EngineState) : bool :=
  Bool.eqb (input_enabled a) (input_enabled b) &&
  Bool.eqb (input_running a) (input_running b) &&
  Bool.eqb (output_enabled a) (output_enabled b) &&
  Bool.eqb (output_running a) (output_running b) &&
  Bool.eqb (input_follow_mode a) (input_follow_mode b) &&
  Bool.eqb (input_enabled_persistent_mode a) (input_enabled_persistent_mode b) &&
  Bool.eqb (input_muted a) (input_muted b) &&
  Bool.eqb (is_interrupted a) (is_interrupted b) &&
  RenderMode_eqb (render_mode a) (render_mode b) &&
  MuteMode_eqb (mute_mode a) (mute_mode b) &&
  Bool.eqb (voice_processing_enabled a) (voice_processing_enabled b) &&
  Bool.eqb (voice_processing_bypassed a) (voice_processing_bypassed b) &&
  Bool.eqb (voice_processing_agc_enabled a) (voice_processing_agc_enabled b) &&
  Bool.eqb (advanced_ducking a) (advanced_ducking b) &&
  (ducking_level a =? ducking_level b) &&
  (output_device_id a =? output_device_id b) &&
  (input_device_id a =? input_device_id b) &&
  (default_output_device_update_count a =? default_output_device_update_count b) &&
  (default_input_device_update_count a =? default_input_device_update_count b).

Definition IsOutputInputLinked (s : EngineState) : bool :=
  input_follow_mode s && voice_processing_enabled s.

Definition IsInputEnabled (s : EngineState) : bool :=
  negb (MuteMode_eqb (mute_mode s) RestartEngine && input_muted s) &&
  (input_enabled s || input_enabled_persistent_mode s).

Definition IsInputRunning (s : EngineState) : bool :=
  negb (MuteMode_eqb (mute_mode s) RestartEngine && input_muted s) &&
  input_running s.

Definition IsOutputEnabled (s : EngineState) : bool :=
  if IsOutputInputLinked s then IsInputEnabled s || output_enabled s
  else output_enabled s.

Definition IsOutputRunning (s : EngineState) : bool :=
  if IsOutputInputLinked s then IsInputRunning s || output_running s
  else output_running s.

Definition IsAnyEnabled (s : EngineState) : bool :=
  IsInputEnabled s || IsOutputEnabled s.

Definition IsAnyRunning (s : EngineState) : bool :=
  IsInputRunning s || IsOutputRunning s.

Definition IsAllEnabled (s : EngineState) : bool :=
  if IsOutputInputLinked s then IsInputEnabled s
  else IsInputEnabled s && output_enabled s.

Definition IsAllRunning (s : EngineState) : bool :=
  if IsOutputInputLinked s then input_running s
  else input_running s && output_running s.

Definition IsOutputDefaultDevice (s : EngineState) : bool :=
  output_device_id s =? kAudioObjectUnknown.

Definition IsInputDefaultDevice (s : EngineState) : bool :=
  input_device_id s =? kAudioObjectUnknown.

(** ** EngineStateUpdate *)

Record EngineStateUpdate := mkUpdate {
  prev : EngineState;
  next : EngineState
}.

Definition HasNoChanges (u : EngineStateUpdate) : bool :=
  EngineState_eqb (prev u) (next u).

Definition DidEnableOutput (u : EngineStateUpdate) : bool :=
  negb (IsOutputEnabled (prev u)) && IsOutputEnabled (next u).

Definition DidEnableInput (u : EngineStateUpdate) : bool :=
  negb (IsInputEnabled (prev u)) && IsInputEnabled (next u).

Definition DidDisableOutput (u : EngineStateUpdate) : bool :=
  IsOutputEnabled (prev u) && negb (IsOutputEnabled (next u)).

Definition DidDisableInput (u : EngineStateUpdate) : bool :=
  IsInputEnabled (prev u) && negb (IsInputEnabled (next u)).

Definition DidAnyEnable (u : EngineStateUpdate) : bool :=
  DidEnableOutput u || DidEnableInput u.

Definition DidAnyDisable (u : EngineStateUpdate) : bool :=
  DidDisableOutput u || DidDisableInput u.

Definition DidBeginInterruption (u : EngineStateUpdate) : bool :=
  negb (is_interrupted (prev u)) && is_interrupted (next u).

Definition DidEndInterruption (u : EngineStateUpdate) : bool :=
  is_interrupted (prev u) && negb (is_interrupted (next u)).

Definition DidUpdateAudioGraph (u : EngineStateUpdate) : bool :=
  negb (Bool.eqb (IsInputEnabled (prev u)) (IsInputEnabled (next u))) ||
  negb (Bool.eqb (IsOutputEnabled (prev u)) (IsOutputEnabled (next u))).

Definition DidUpdateVoiceProcessingEnabled (u : EngineStateUpdate) : bool :=
  negb (Bool.eqb (voice_processing_enabled (prev u))
                 (voice_processing_enabled (next u))).

Definition DidUpdateOutputDevice (u : EngineStateUpdate) : bool :=
  negb (output_device_id (prev u) =? output_device_id (next u)).

Definition DidUpdateInputDevice (u : EngineStateUpdate) : bool :=
  negb (input_device_id (prev u) =? input_device_id (next u)).

Definition DidUpdateDefaultOutputDevice (u : EngineStateUpdate) : bool :=
  negb (default_output_device_update_count (prev u) =?
        default_output_device_update_count (next u)).

Definition DidUpdateDefaultInputDevice (u : EngineStateUpdate) : bool :=
  negb (default_input_device_update_count (prev u) =?
        default_input_device_update_count (next u)).

Definition DidUpdateMuteMode (u : EngineStateUpdate) : bool :=
  negb (MuteMode_eqb (mute_mode (prev u)) (mute_mode (next u))).

Definition IsEngineRestartRequired (u : EngineStateUpdate) : bool :=
  DidUpdateAudioGraph u || DidUpdateVoiceProcessingEnabled u.

Definition IsEngineRecreateRequired (u : EngineStateUpdate) : bool :=
  let device := DidUpdateOutputDevice u || DidUpdateInputDevice u in
  let default_device :=
    (DidUpdateDefaultOutputDevice u && IsOutputDefaultDevice (next u)) ||
    (DidUpdateDefaultInputDevice u && IsInputDefaultDevice (next u)) in
  let special_case :=
    (IsOutputEnabled (prev u) && IsOutputEnabled (next u)) &&
    (IsInputEnabled (prev u) && negb (IsInputEnabled (next u))) in
  device || default_device || special_case.

Definition DidEnableManualRenderingMode (u : EngineStateUpdate) : bool :=
  negb (RenderMode_eqb (render_mode (prev u)) Manual) &&
  RenderMode_eqb (render_mode (next u)) Manual.

Definition DidEnableDeviceRenderingMode (u : EngineStateUpdate) : bool :=
  negb (RenderMode_eqb (render_mode (prev u)) Device) &&
  RenderMode_eqb (render_mode (next u)) Device.

(** ** The transforms of the public setters

    Every setter is [ModifyEngineState] applied to a lambda
    [EngineState -> EngineState]; the lambdas are given here. *)

Definition wrap32 (x : Z) : Z := x mod 2 ^ 32.

Definition set_input_enabled (v : bool) (s : EngineState) : EngineState :=
  let 'mkEngineState _ a2 a3 a4 a5 a6 a7 a8 a9 a10 a11 a12 a13 a14 a15 a16 a17 a18 a19 := s in
  mkEngineState v a2 a3 a4 a5 a6 a7 a8 a9 a10 a11 a12 a13 a14 a15 a16 a17 a18 a19.

Definition set_input_running (v : bool) (s : EngineState) : EngineState :=
  let 'mkEngineState a1 _ a3 a4 a5 a6 a7 a8 a9 a10 a11 a12 a13 a14 a15 a16 a17 a18 a19 := s in
  mkEngineState a1 v a3 a4 a5 a6 a7 a8 a9 a10 a11 a12 a13 a14 a15 a16 a17 a18 a19.

Definition set_output_enabled (v : bool) (s : EngineState) : EngineState :=
  let 'mkEngineState a1 a2 _ a4 a5 a6 a7 a8 a9 a10 a11 a12 a13 a14 a15 a16 a17 a18 a19 := s in
  mkEngineState a1 a2 v a4 a5 a6 a7 a8 a9 a10 a11 a12 a13 a14 a15 a16 a17 a18 a19.

Definition set_output_running (v : bool) (s : EngineState) : EngineState :=
  let 'mkEngineState a1 a2 a3 _ a5 a6 a7 a8 a9 a10 a11 a12 a13 a14 a15 a16 a17 a18 a19 := s in
  mkEngineState a1 a2 a3 v a5 a6 a7 a8 a9 a10 a11 a12 a13 a14 a15 a16 a17 a18 a19.

Definition set_input_muted (v : bool) (s : EngineState) : EngineState :=
  let 'mkEngineState a1 a2 a3 a4 a5 a6 _ a8 a9 a10 a11 a12 a13 a14 a15 a16 a17 a18 a19 := s in
  mkEngineState a1 a2 a3 a4 a5 a6 v a8 a9 a10 a11 a12 a13 a14 a15 a16 a17 a18 a19.

Definition set_is_interrupted (v : bool) (s : EngineState) : EngineState :=
  let 'mkEngineState a1 a2 a3 a4 a5 a6 a7 _ a9 a10 a11 a12 a13 a14 a15 a16 a17 a18 a19 := s in
  mkEngineState a1 a2 a3 a4 a5 a6 a7 v a9 a10 a11 a12 a13 a14 a15 a16 a17 a18 a19.

Definition set_render_mode (v : RenderMode) (s : EngineState) : EngineState :=
  let 'mkEngineState a1 a2 a3 a4 a5 a6 a7 a8 _ a10 a11 a12 a13 a14 a15 a16 a17 a18 a19 := s in
  mkEngineState a1 a2 a3 a4 a5 a6 a7 a8 v a10 a11 a12 a13 a14 a15 a16 a17 a18 a19.

Definition set_mute_mode (v : MuteMode) (s : EngineState) : EngineState :=
  let 'mkEngineState a1 a2 a3 a4 a5 a6 a7 a8 a9 _ a11 a12 a13 a14 a15 a16 a17 a18 a19 := s in
  mkEngineState a1 a2 a3 a4 a5 a6 a7 a8 a9 v a11 a12 a13 a14 a15 a16 a17 a18 a19.

Definition set_output_device_id (v : Z) (s : EngineState) : EngineState :=
  let 'mkEngineState a1 a2 a3 a4 a5 a6 a7 a8 a9 a10 a11 a12 a13 a14 a15 _ a17 a18 a19 := s in
  mkEngineState a1 a2 a3 a4 a5 a6 a7 a8 a9 a10 a11 a12 a13 a14 a15 v a17 a18 a19.

Definition set_input_device_id (v : Z) (s : EngineState) : EngineState :=
  let 'mkEngineState a1 a2 a3 a4 a5 a6 a7 a8 a9 a10 a11 a12 a13 a14 a15 a16 _ a18 a19 := s in
  mkEngineState a1 a2 a3 a4 a5 a6 a7 a8 a9 a10 a11 a12 a13 a14 a15 a16 v a18 a19.

Definition set_default_output_device_update_count (v : Z) (s : EngineState)
  : EngineState :=
  let 'mkEngineState a1 a2 a3 a4 a5 a6 a7 a8 a9 a10 a11 a12 a13 a14 a15 a16 a17 _ a19 := s in
  mkEngineState a1 a2 a3 a4 a5 a6 a7 a8 a9 a10 a11 a12 a13 a14 a15 a16 a17 v a19.

Definition set_default_input_device_update_count (v : Z) (s : EngineState)
  : EngineState :=
  let 'mkEngineState a1 a2 a3 a4 a5 a6 a7 a8 a9 a10 a11 a12 a13 a14 a15 a16 a17 a18 _ := s in
  mkEngineState a1 a2 a3 a4 a5 a6 a7 a8 a9 a10 a11 a12 a13 a14 a15 a16 a17 a18 v.

(** [InitPlayout]: [state.output_enabled = true]. *)
Definition InitPlayout_transform (state : EngineState) : EngineState :=
  set_output_enabled true state.

(** [StartPlayout]: [state.output_running = true]. *)
Definition StartPlayout_transform (state : EngineState) : EngineState :=
  set_output_running true state.

(** [StopPlayout]. *)
Definition StopPlayout_transform (state : EngineState) : EngineState :=
  set_output_running false (set_output_enabled false state).

(** [InitRecording]: [state.input_enabled = true]. *)
Definition InitRecording_transform (state : EngineState) : EngineState :=
  set_input_enabled true state.

(** [StartRecording]: [input_running = true; input_muted = false]. *)
Definition StartRecording_transform (state : EngineState) : EngineState :=
  set_input_muted false (set_input_running true state).

(** [StopRecording]. *)
Definition StopRecording_transform (state : EngineState) : EngineState :=
  set_input_running false (set_input_enabled false state).

(** [InitAndStartRecording]. *)
Definition InitAndStartRecording_transform (state : EngineState) : EngineState :=
  set_input_muted false (set_input_running true (set_input_enabled true state)).

(** [SetMicrophoneMute(enable)]. *)
Definition SetMicrophoneMute_transform (enable : bool) (state : EngineState)
  : EngineState :=
  set_input_muted enable state.

(** [SetMuteMode(mode)]. *)
Definition SetMuteMode_transform (mode : MuteMode) (state : EngineState)
  : EngineState :=
  set_mute_mode mode state.

(** [SetManualRenderingMode(enable)]. *)
Definition SetManualRenderingMode_transform (enable : bool) (state : EngineState)
  : EngineState :=
  set_render_mode (if enable then Manual else Device) state.

(** [SetEngineState(new_state)]: the constant transform. *)
Definition SetEngineState_transform (new_state : EngineState) (_ : EngineState)
  : EngineState :=
  new_state.

(** The debounced default-output task:
    [state.default_output_device_update_count++] on a [uint32_t]. *)
Definition default_output_update_transform (state : EngineState) : EngineState :=
  set_default_output_device_update_count
    (wrap32 (default_output_device_update_count state + 1)) state.

(** The debounced default-input task. *)
Definition default_input_update_transform (state : EngineState) : EngineState :=
  set_default_input_device_update_count
    (wrap32 (default_input_device_update_count state + 1)) state.

(** ** The world of the engine object *)

(** Object identities: the position in the trace at which the object was
    allocated. *)
Definition Obj := nat.

(** End points of [connect:to:format:]. *)
Inductive NodeRef :=
| MainMixerNode
| OutputNode
| InputNode
| NodeObj (n : Obj).

(** The calls of the [AudioDeviceObserver] contract that return [int]. *)
Inductive Callback :=
| OnEngineDidCreate (engine : option Obj)
| OnEngineWillEnable (engine : option Obj) (playout recording : bool)
| OnEngineWillStart (engine : option Obj) (playout recording : bool)
| OnEngineDidStop (engine : option Obj) (playout recording : bool)
| OnEngineDidDisable (engine : option Obj) (playout recording : bool)
| OnEngineWillRelease (engine : option Obj)
| OnEngineWillConnectInput (engine : option Obj) (src : option NodeRef)
                           (dst : NodeRef)
| OnEngineWillConnectOutput (engine : option Obj) (src dst : NodeRef).

(** Kinds of objects the appliers allocate. *)
Inductive ObjKind :=
| KAudioEngine
| KFineAudioBuffer
| KSourceNode
| KSinkNode
| KMixerNode
| KAudioConverter
| KPCMBuffer
| KConfigurationObserver
| KRenderBlock
| KThread.

(** The input mixer's [outputVolume] as the code compares it. *)
Inductive Volume := VolumeZero | VolumeOne | VolumeOther.

Definition Volume_eqb (a b : Volume) : bool :=
  match a, b with
  | VolumeZero, VolumeZero | VolumeOne, VolumeOne | VolumeOther, VolumeOther => true
  | _, _ => false
  end.

(** Everything that leaves the engine object, in program order. *)
Inductive Event :=
| EvObserver (cb : Callback) (result : Z)
| EvAlloc (k : ObjKind) (o : Obj)
| EvRemoveConfigurationObserver (o : Obj)
| EvAddConfigurationObserver (o : Obj)
| EvEngineStop (engine : option Obj)
| EvEnginePrepare (engine : option Obj)
| EvEngineStart (engine : option Obj) (start_result : bool)
| EvEnableManualRenderingMode (engine : option Obj) (maximumFrameCount : Z)
| EvBufferStopPlayout
| EvBufferStopRecording
| EvBufferStartPlayout
| EvBufferStartRecording
| EvSetPlayoutSampleRate (sample_rate : Z)
| EvSetPlayoutChannels (channels : Z)
| EvSetRecordingSampleRate (sample_rate : Z)
| EvSetRecordingChannels (channels : Z)
| EvResetPlayout
| EvResetRecord
| EvSetVoiceProcessingEnabled (enabled : bool)
| EvSetVoiceProcessingInputMuted (muted : bool)
| EvSetMutedSpeechActivityEventListener
| EvSetVoiceProcessingBypassed (bypassed : bool)
| EvSetVoiceProcessingAGCEnabled (enabled : bool)
| EvSetOtherAudioDucking (enableAdvancedDucking : bool) (duckingLevel : Z)
| EvSetMixerOutputVolume (volume : Volume)
| EvAttachNode (n : Obj)
| EvDetachNode (n : Obj)
| EvConnect (src dst : NodeRef)
| EvConverterDispose (c : Obj)
| EvSetCurrentDevice (input : bool) (device_id : Z)
| EvRetrySleep (usec : Z)
| EvSettleSleep (usec : Z)
| EvDebugAudioEngine
| EvRenderThreadStop (t : option Obj)
| EvRenderThreadStart (t : Obj).

Definition Trace := list Event.

(** The observer answers a call with an [int]; it may look at the history. *)
Definition Observer := Callback -> Trace -> Z.

(** Modelled from the spec: [AudioDeviceBuffer] is an external collaborator
    consumed through [StartPlayout/StopPlayout/StartRecording/StopRecording/
    IsPlaying/IsRecording]; only its two flags are kept. *)
Record AudioDeviceBuffer := mkBuffer {
  playing_ : bool;
  recording_ : bool
}.

(** The members of [AudioEngineDevice] the state machine reads and writes,
    and the trace. *)
Record World := mkWorld {
  engine_state_ : EngineState;
  observer_ : option Observer;
  audio_device_buffer_ : AudioDeviceBuffer;
  fine_audio_buffer_ : option Obj;
  engine_device_ : option Obj;
  engine_manual_input_ : option Obj;
  source_node_ : option Obj;
  sink_node_ : option Obj;
  input_mixer_node_ : option Obj;
  converter_ref_ : option Obj;
  converter_buffer_ : option Obj;
  configuration_observer_ : option Obj;
  render_thread_ : option Obj;
  render_buffer_ : option Obj;
  read_buffer_ : option Obj;
  render_block_ : option Obj;
  trace : Trace
}.

Definition set_engine_state_ (v : EngineState) (w : World) : World :=
  let 'mkWorld _ b c d e f g h i j k l m n o p q := w in
  mkWorld v b c d e f g h i j k l m n o p q.

Definition set_audio_device_buffer_ (v : AudioDeviceBuffer) (w : World) : World :=
  let 'mkWorld a b _ d e f g h i j k l m n o p q := w in
  mkWorld a b v d e f g h i j k l m n o p q.

Definition set_fine_audio_buffer_ (v : option Obj) (w : World) : World :=
  let 'mkWorld a b c _ e f g h i j k l m n o p q := w in
  mkWorld a b c v e f g h i j k l m n o p q.

Definition set_engine_device_ (v : option Obj) (w : World) : World :=
  let 'mkWorld a b c d _ f g h i j k l m n o p q := w in
  mkWorld a b c d v f g h i j k l m n o p q.

Definition set_engine_manual_input_ (v : option Obj) (w : World) : World :=
  let 'mkWorld a b c d e _ g h i j k l m n o p q := w in
  mkWorld a b c d e v g h i j k l m n o p q.

Definition set_source_node_ (v : option Obj) (w : World) : World :=
  let 'mkWorld a b c d e f _ h i j k l m n o p q := w in
  mkWorld a b c d e f v h i j k l m n o p q.

Definition set_sink_node_ (v : option Obj) (w : World) : World :=
  let 'mkWorld a b c d e f g _ i j k l m n o p q := w in
  mkWorld a b c d e f g v i j k l m n o p q.

Definition set_input_mixer_node_ (v : option Obj) (w : World) : World :=
  let 'mkWorld a b c d e f g h _ j k l m n o p q := w in
  mkWorld a b c d e f g h v j k l m n o p q.

Definition set_converter_ref_ (v : option Obj) (w : World) : World :=
  let 'mkWorld a b c d e f g h i _ k l m n o p q := w in
  mkWorld a b c d e f g h i v k l m n o p q.

Definition set_converter_buffer_ (v : option Obj) (w : World) : World :=
  let 'mkWorld a b c d e f g h i j _ l m n o p q := w in
  mkWorld a b c d e f g h i j v l m n o p q.

Definition set_configuration_observer_ (v : option Obj) (w : World) : World :=
  let 'mkWorld a b c d e f g h i j k _ m n o p q := w in
  mkWorld a b c d e f g h i j k v m n o p q.

Definition set_render_thread_ (v : option Obj) (w : World) : World :=
  let 'mkWorld a b c d e f g h i j k l _ n o p q := w in
  mkWorld a b c d e f g h i j k l v n o p q.

Definition set_render_buffer_ (v : option Obj) (w : World) : World :=
  let 'mkWorld a b c d e f g h i j k l m _ o p q := w in
  mkWorld a b c d e f g h i j k l m v o p q.

Definition set_read_buffer_ (v : option Obj) (w : World) : World :=
  let 'mkWorld a b c d e f g h i j k l m n _ p q := w in
  mkWorld a b c d e f g h i j k l m n v p q.

Definition set_render_block_ (v : option Obj) (w : World) : World :=
  let 'mkWorld a b c d e f g h i j k l m n o _ q := w in
  mkWorld a b c d e f g h i j k l m n o v q.

Definition set_trace (v : Trace) (w : World) : World :=
  let 'mkWorld a b c d e f g h i j k l m n o p _ := w in
  mkWorld a b c d e f g h i j k l m n o p v.

(** Modelled from the spec: [AudioDeviceBuffer::StartPlayout] and its
    siblings set and clear the flag [IsPlaying]/[IsRecording] report. *)
Definition buffer_set_playing (v : bool) (w : World) : World :=
  set_audio_device_buffer_
    (mkBuffer v (recording_ (audio_device_buffer_ w))) w.

Definition buffer_set_recording (v : bool) (w : World) : World :=
  set_audio_device_buffer_
    (mkBuffer (playing_ (audio_device_buffer_ w)) v) w.

Definition IsPlaying (w : World) : bool := playing_ (audio_device_buffer_ w).
Definition IsRecording (w : World) : bool := recording_ (audio_device_buffer_ w).

(** The hardware format of a node: sample rate in Hz and channel count. *)
Record AudioFormat := mkFormat {
  sampleRate : Z;
  channelCount : Z
}.

(** The host platform: build flags, and what the audio graph answers when
    the code reads it, as a function of the calls made so far. *)
Record Platform := mkPlatform {
  TARGET_OS_OSX : bool;
  TARGET_OS_SIMULATOR : bool;
  TARGET_OS_TV : bool;
  os_17_available : bool;
  voiceProcessingEnabled : Trace -> bool;
  voiceProcessingInputMuted : Trace -> bool;
  voiceProcessingBypassed : Trace -> bool;
  voiceProcessingAGCEnabled : Trace -> bool;
  output_node_format : Trace -> AudioFormat;
  input_node_format : Trace -> AudioFormat;
  attachedNodes_contains : Obj -> Trace -> bool;
  input_mixer_connections_count : Trace -> nat;
  input_mixer_outputVolume : Trace -> Volume;
  startAndReturnError : Trace -> bool
}.

(** ** The monad of the appliers: state, and early [return result] *)

Definition M (A : Type) : Type := World -> (Z + A) * World.

Definition ret {A} (a : A) : M A := fun w => (inr a, w).

Definition bind {A B} (c : M A) (k : A -> M B) : M B :=
  fun w =>
    match c w with
    | (inl r, w1) => (inl r, w1)
    | (inr a, w1) => k a w1
    end.

Notation "x <- c ;; k" := (bind c (fun x => k))
  (at level 61, c at next level, right associativity).
Notation "c ;; k" := (bind c (fun _ => k))
  (at level 61, right associativity).

(** [return result;] in the middle of an applier. *)
Definition exit_with {A} (result : Z) : M A := fun w => (inl result, w).

Definition get {A} (f : World -> A) : M A := fun w => (inr (f w), w).

Definition modify (f : World -> World) : M unit := fun w => (inr tt, f w).

Definition emit (e : Event) : M unit :=
  modify (fun w => set_trace (trace w ++ [e]) w).

(** Reading the platform. *)
Definition ask {A} (q : Trace -> A) : M A := fun w => (inr (q (trace w)), w).

Definition when (b : bool) (c : M unit) : M unit := if b then c else ret tt.

(** A new object; its identity is the length of the trace before it. *)
Definition alloc (k : ObjKind) : M Obj :=
  o <- get (fun w => length (trace w)) ;;
  emit (EvAlloc k o) ;;
  ret o.

(** The value an applier returns: the early result, or the final
    [return 0]. *)
Definition run (c : M unit) (w : World) : Z * World :=
  match c w with
  | (inl r, w1) => (r, w1)
  | (inr _, w1) => (0, w1)
  end.

Definition isSome {A} (o : option A) : bool :=
  match o with Some _ => true | None => false end.

(** [if (observer_ != nullptr) { result = observer_->cb(...);
     if (result != 0) return on_error(result); }] *)
Definition notify (cb : Callback) (on_error : Z -> M unit) : M unit :=
  o <- get observer_ ;;
  match o with
  | None => ret tt
  | Some obs =>
      result <- ask (obs cb) ;;
      emit (EvObserver cb result) ;;
      if result =? 0 then ret tt else on_error result
  end.

(** The [rollback] lambda of [ApplyDeviceEngineState]: run the recorded
    actions in order, then return the result. *)
Definition rollback {A} (rollback_actions : list (World -> World)) (result : Z)
  : M A :=
  fun w => (inl result, fold_left (fun w1 action => action w1) rollback_actions w).

(** Buffer life cycle. *)
Definition StopPlayoutBuffer : M unit :=
  emit EvBufferStopPlayout ;; modify (buffer_set_playing false).

Definition StopRecordingBuffer : M unit :=
  emit EvBufferStopRecording ;; modify (buffer_set_recording false).

Definition StartPlayoutBuffer : M unit :=
  emit EvBufferStartPlayout ;; modify (buffer_set_playing true) ;;
  emit EvResetPlayout.

Definition StartRecordingBuffer : M unit :=
  emit EvBufferStartRecording ;; modify (buffer_set_recording true) ;;
  emit EvResetRecord.

(** ** Constants *)

Definition kStartEngineMaxRetries : nat := 10.
Definition kStartEngineRetryDelayMs : Z := 100.
Definition kMaximumFramesPerBuffer : Z := 3072.
Definition kAudioSampleSize : Z := 2.
Definition kDefaultDeviceUpdateDebounceMs : Z := 500.
Definition kAudioEnginePlayoutDeviceNotAvailableError : Z := -3010.
Definition kAudioEngineRecordingDeviceNotAvailableError : Z := -4010.

(** ** The appliers *)

Section Appliers.

Variable pf : Platform.

(** *** The engine start loop of [ApplyDeviceEngineState]

    One pass of the body of
    [while (!start_result && start_retry_count < kStartEngineMaxRetries)];
    an exception of [startAndReturnError] is caught and counts as a failed
    start. *)
Definition start_attempt (start_retry_count : nat) : M bool :=
  when (0 <? start_retry_count)%nat
       (emit (EvRetrySleep (kStartEngineRetryDelayMs * 1000))) ;;
  e <- get engine_device_ ;;
  when (TARGET_OS_OSX pf)
       (emit (EvEnginePrepare e) ;; emit (EvSettleSleep 100000)) ;;
  start_result <- ask (startAndReturnError pf) ;;
  emit (EvEngineStart e start_result) ;;
  ret start_result.

(** The loop, entered with [start_result = false]; the result is the final
    [start_result]. *)
Equations? start_loop (start_retry_count : nat) : M bool
  by wf (kStartEngineMaxRetries - start_retry_count)%nat lt :=
  start_loop start_retry_count
    with lt_dec start_retry_count kStartEngineMaxRetries := {
    | right _ := ret false
    | left _ :=
        start_result <- start_attempt start_retry_count ;;
        if start_result then ret true
        else start_loop (S start_retry_count) }.
Proof.
  clear start_loop. unfold kStartEngineMaxRetries in *.
  change (10 - S start_retry_count < 10 - start_retry_count)%nat. lia.
Qed.

(** *** ApplyDeviceEngineState, step by step *)

Definition step_stop_engine (state : EngineStateUpdate)
  (rollback_actions : list (World -> World)) : M unit :=
  when (IsAnyRunning (prev state) &&
        (negb (IsAnyRunning (next state)) || IsEngineRestartRequired state ||
         DidBeginInterruption state || IsEngineRecreateRequired state))
    (co <- get configuration_observer_ ;;
     match co with
     | Some o =>
         emit (EvRemoveConfigurationObserver o) ;;
         modify (set_configuration_observer_ None)
     | None => ret tt
     end ;;
     e <- get engine_device_ ;;
     emit (EvEngineStop e) ;;
     notify (OnEngineDidStop e (IsOutputEnabled (next state))
                             (IsInputEnabled (next state)))
            (rollback rollback_actions)).

Definition step_recreate_engine (state : EngineStateUpdate)
  (rollback_actions : list (World -> World)) : M unit :=
  when (IsEngineRecreateRequired state)
    (e <- get engine_device_ ;;
     notify (OnEngineWillRelease e) (rollback rollback_actions) ;;
     modify (set_engine_device_ None)).

(** The only step that records a rollback action. *)
Definition step_create_engine (state : EngineStateUpdate)
  (rollback_actions : list (World -> World)) : M (list (World -> World)) :=
  if IsAnyEnabled (next state) &&
     (negb (IsAnyEnabled (prev state)) || IsEngineRecreateRequired state)
  then
    e <- alloc KAudioEngine ;;
    modify (set_engine_device_ (Some e)) ;;
    let rollback_actions' := rollback_actions ++ [set_engine_device_ None] in
    notify (OnEngineDidCreate (Some e)) (rollback rollback_actions') ;;
    ret rollback_actions'
  else ret rollback_actions.

Definition step_stop_playout_buffer (state : EngineStateUpdate) : M unit :=
  p <- get IsPlaying ;;
  when (negb (IsOutputEnabled (next state)) && p) StopPlayoutBuffer.

Definition step_stop_recording_buffer (state : EngineStateUpdate) : M unit :=
  r <- get IsRecording ;;
  when (negb (IsInputEnabled (next state)) && r) StopRecordingBuffer.

Definition step_will_enable (state : EngineStateUpdate)
  (rollback_actions : list (World -> World)) : M unit :=
  when (DidAnyEnable state)
    (e <- get engine_device_ ;;
     notify (OnEngineWillEnable e (IsOutputEnabled (next state))
                                (IsInputEnabled (next state)))
            (rollback rollback_actions)).

Definition step_configure_voice_processing (state : EngineStateUpdate) : M unit :=
  vp <- ask (voiceProcessingEnabled pf) ;;
  when (IsInputEnabled (next state) &&
        negb (Bool.eqb vp (voice_processing_enabled (next state))))
    (when (negb (TARGET_OS_SIMULATOR pf))
       (emit (EvSetVoiceProcessingEnabled (voice_processing_enabled (next state)))) ;;
     vp' <- ask (voiceProcessingEnabled pf) ;;
     when vp'
       (muted <- ask (voiceProcessingInputMuted pf) ;;
        when (MuteMode_eqb (mute_mode (next state)) RestartEngine && muted)
          (emit (EvSetVoiceProcessingInputMuted false)) ;;
        when (os_17_available pf) (emit EvSetMutedSpeechActivityEventListener))).

Definition detach_if_attached (n : Obj) : M bool :=
  attached <- ask (attachedNodes_contains pf n) ;;
  when attached (emit (EvDetachNode n)) ;;
  ret attached.

Definition step_output (state : EngineStateUpdate)
  (rollback_actions : list (World -> World)) : M unit :=
  if IsOutputEnabled (next state) &&
     (negb (IsOutputEnabled (prev state)) || IsEngineRecreateRequired state)
  then
    output_node_format <- ask (output_node_format pf) ;;
    if (sampleRate output_node_format =? 0) ||
       (channelCount output_node_format =? 0)
    then rollback rollback_actions kAudioEnginePlayoutDeviceNotAvailableError
    else
      emit (EvSetPlayoutSampleRate (sampleRate output_node_format)) ;;
      emit (EvSetPlayoutChannels 1) ;;
      fab <- alloc KFineAudioBuffer ;;
      modify (set_fine_audio_buffer_ (Some fab)) ;;
      src <- alloc KSourceNode ;;
      modify (set_source_node_ (Some src)) ;;
      emit (EvAttachNode src) ;;
      emit (EvConnect (NodeObj src) MainMixerNode) ;;
      emit (EvConnect MainMixerNode OutputNode) ;;
      e <- get engine_device_ ;;
      notify (OnEngineWillConnectOutput e MainMixerNode OutputNode)
             (rollback rollback_actions)
  else if (IsOutputEnabled (prev state) && negb (IsOutputEnabled (next state))) &&
          negb (IsEngineRecreateRequired state)
  then
    src <- get source_node_ ;;
    match src with
    | Some n => detach_if_attached n ;; modify (set_source_node_ None)
    | None => ret tt
    end
  else ret tt.

Definition step_input (state : EngineStateUpdate)
  (rollback_actions : list (World -> World)) : M unit :=
  if IsInputEnabled (next state) &&
     (negb (IsInputEnabled (prev state)) || IsEngineRecreateRequired state)
  then
    input_node_format <- ask (input_node_format pf) ;;
    if (sampleRate input_node_format =? 0) ||
       (channelCount input_node_format =? 0)
    then rollback rollback_actions kAudioEngineRecordingDeviceNotAvailableError
    else
      mixer <- alloc KMixerNode ;;
      modify (set_input_mixer_node_ (Some mixer)) ;;
      emit (EvAttachNode mixer) ;;
      emit (EvSetRecordingSampleRate (sampleRate input_node_format)) ;;
      emit (EvSetRecordingChannels 1) ;;
      fab <- alloc KFineAudioBuffer ;;
      modify (set_fine_audio_buffer_ (Some fab)) ;;
      cr <- get converter_ref_ ;;
      when (negb (isSome cr))
        (c <- alloc KAudioConverter ;; modify (set_converter_ref_ (Some c))) ;;
      cb <- get converter_buffer_ ;;
      when (negb (isSome cb))
        (b <- alloc KPCMBuffer ;; modify (set_converter_buffer_ (Some b))) ;;
      e <- get engine_device_ ;;
      notify (OnEngineWillConnectInput e (Some InputNode) (NodeObj mixer))
             (rollback rollback_actions) ;;
      connections <- ask (input_mixer_connections_count pf) ;;
      when (connections =? 0)%nat (emit (EvConnect InputNode (NodeObj mixer))) ;;
      sink <- alloc KSinkNode ;;
      modify (set_sink_node_ (Some sink)) ;;
      emit (EvAttachNode sink) ;;
      emit (EvConnect (NodeObj mixer) (NodeObj sink))
  else if (IsInputEnabled (prev state) && negb (IsInputEnabled (next state))) &&
          negb (IsEngineRecreateRequired state)
  then
    vp <- ask (voiceProcessingEnabled pf) ;;
    muted <- ask (voiceProcessingInputMuted pf) ;;
    when (vp && muted) (emit (EvSetVoiceProcessingInputMuted false)) ;;
    mixer <- get input_mixer_node_ ;;
    match mixer with
    | Some n =>
        attached <- detach_if_attached n ;;
        when attached (modify (set_input_mixer_node_ None))
    | None => ret tt
    end ;;
    sink <- get sink_node_ ;;
    match sink with
    | Some n =>
        attached <- detach_if_attached n ;;
        when attached (modify (set_sink_node_ None))
    | None => ret tt
    end ;;
    cr <- get converter_ref_ ;;
    match cr with
    | Some c => emit (EvConverterDispose c) ;; modify (set_converter_ref_ None)
    | None => ret tt
    end ;;
    modify (set_converter_buffer_ None)
  else ret tt.

Definition step_did_disable (state : EngineStateUpdate)
  (rollback_actions : list (World -> World)) : M unit :=
  when (DidAnyDisable state)
    (e <- get engine_device_ ;;
     notify (OnEngineDidDisable e (IsOutputEnabled (next state))
                                (IsInputEnabled (next state)))
            (rollback rollback_actions)).

Definition step_mute_voice_processing (state : EngineStateUpdate) : M unit :=
  vp <- ask (voiceProcessingEnabled pf) ;;
  muted <- ask (voiceProcessingInputMuted pf) ;;
  when (MuteMode_eqb (mute_mode (next state)) VoiceProcessing &&
        IsInputEnabled (next state) && vp &&
        negb (Bool.eqb muted (input_muted (next state))))
    (emit (EvSetVoiceProcessingInputMuted (input_muted (next state)))).

Definition step_mute_input_mixer (state : EngineStateUpdate) : M unit :=
  mixer <- get input_mixer_node_ ;;
  when (MuteMode_eqb (mute_mode (next state)) InputMixer &&
        IsInputEnabled (next state) && isSome mixer)
    (let mixer_volume := if input_muted (next state) then VolumeZero else VolumeOne in
     volume <- ask (input_mixer_outputVolume pf) ;;
     when (negb (Volume_eqb volume mixer_volume))
       (emit (EvSetMixerOutputVolume mixer_volume))).

Definition step_ducking (state : EngineStateUpdate) : M unit :=
  when (negb (TARGET_OS_TV pf))
    (vp <- ask (voiceProcessingEnabled pf) ;;
     when (IsInputEnabled (next state) && vp &&
           (negb (IsInputEnabled (prev state)) ||
            (negb (Bool.eqb (advanced_ducking (prev state))
                            (advanced_ducking (next state))) ||
             negb (ducking_level (prev state) =? ducking_level (next state)))))
       (when (os_17_available pf)
          (emit (EvSetOtherAudioDucking (advanced_ducking (next state))
                                        (ducking_level (next state)))))).

Definition step_bypass (state : EngineStateUpdate) : M unit :=
  vp <- ask (voiceProcessingEnabled pf) ;;
  bypassed <- ask (voiceProcessingBypassed pf) ;;
  when (IsInputEnabled (next state) && vp &&
        negb (Bool.eqb bypassed (voice_processing_bypassed (next state))))
    (emit (EvSetVoiceProcessingBypassed (voice_processing_bypassed (next state)))).

Definition step_agc (state : EngineStateUpdate) : M unit :=
  vp <- ask (voiceProcessingEnabled pf) ;;
  agc <- ask (voiceProcessingAGCEnabled pf) ;;
  when (IsInputEnabled (next state) && vp &&
        negb (Bool.eqb agc (voice_processing_agc_enabled (next state))))
    (emit (EvSetVoiceProcessingAGCEnabled
             (voice_processing_agc_enabled (next state)))).

Definition step_configure_device (state : EngineStateUpdate) : M unit :=
  when (TARGET_OS_OSX pf)
    (when (IsAnyEnabled (next state) &&
           (negb (IsAnyEnabled (prev state)) || IsEngineRecreateRequired state))
       (when (IsInputEnabled (next state))
          (when (negb (input_device_id (next state) =? kAudioObjectUnknown))
             (emit (EvSetCurrentDevice true (input_device_id (next state))))) ;;
        when (IsOutputEnabled (next state))
          (when (negb (output_device_id (next state) =? kAudioObjectUnknown))
             (emit (EvSetCurrentDevice false (output_device_id (next state))))))).

Definition step_start_playout_buffer (state : EngineStateUpdate) : M unit :=
  p <- get IsPlaying ;;
  when (IsOutputEnabled (next state) && negb p) StartPlayoutBuffer.

Definition step_start_recording_buffer (state : EngineStateUpdate) : M unit :=
  r <- get IsRecording ;;
  when (IsInputEnabled (next state) && negb r) StartRecordingBuffer.

(** From ["Starting AVAudioEngine..."] to the end of the step: the loop,
    then the configuration-change listener on success, the diagnostic dump
    on failure. *)
Definition start_engine_with_retries : M unit :=
  start_result <- start_loop 0 ;;
  if start_result then
    o <- alloc KConfigurationObserver ;;
    emit (EvAddConfigurationObserver o) ;;
    modify (set_configuration_observer_ (Some o))
  else emit EvDebugAudioEngine.

Definition step_start_engine (state : EngineStateUpdate)
  (rollback_actions : list (World -> World)) : M unit :=
  when (IsAnyRunning (next state))
    (when (negb (IsAnyRunning (prev state)) || DidEndInterruption state ||
           IsEngineRestartRequired state || IsEngineRecreateRequired state)
       (e <- get engine_device_ ;;
        notify (OnEngineWillStart e (IsOutputEnabled (next state))
                                  (IsInputEnabled (next state)))
               (rollback rollback_actions) ;;
        start_engine_with_retries)).

Definition step_release_engine (state : EngineStateUpdate)
  (rollback_actions : list (World -> World)) : M unit :=
  when (IsAnyEnabled (prev state) && negb (IsAnyEnabled (next state)))
    (e <- get engine_device_ ;;
     notify (OnEngineWillRelease e) (rollback rollback_actions) ;;
     modify (set_engine_device_ None)).

Definition ApplyDeviceEngineState_body (state : EngineStateUpdate) : M unit :=
  let rollback_actions := [] in
  step_stop_engine state rollback_actions ;;
  step_recreate_engine state rollback_actions ;;
  rollback_actions <- step_create_engine state rollback_actions ;;
  step_stop_playout_buffer state ;;
  step_stop_recording_buffer state ;;
  step_will_enable state rollback_actions ;;
  step_configure_voice_processing state ;;
  step_output state rollback_actions ;;
  step_input state rollback_actions ;;
  step_did_disable state rollback_actions ;;
  step_mute_voice_processing state ;;
  step_mute_input_mixer state ;;
  step_ducking state ;;
  step_bypass state ;;
  step_agc state ;;
  step_configure_device state ;;
  step_start_playout_buffer state ;;
  step_start_recording_buffer state ;;
  step_start_engine state rollback_actions ;;
  step_release_engine state rollback_actions.

Definition ApplyDeviceEngineState (state : EngineStateUpdate) (w : World)
  : Z * World :=
  run (ApplyDeviceEngineState_body state) w.

(** *** ApplyManualEngineState

    The manual rendering format is fixed: Int16, 48000 Hz, mono.  There is no
    rollback list here: a failing observer call returns at once. *)

Definition manual_render_rtc_format_ : AudioFormat := mkFormat 48000 1.

Definition manual_stop_engine (state : EngineStateUpdate) : M unit :=
  when (IsAnyRunning (prev state) && negb (IsAnyRunning (next state)))
    (e <- get engine_manual_input_ ;;
     emit (EvEngineStop e) ;;
     t <- get render_thread_ ;;
     emit (EvRenderThreadStop t) ;;
     modify (set_render_thread_ None) ;;
     modify (set_render_buffer_ None) ;;
     modify (set_read_buffer_ None) ;;
     notify (OnEngineDidStop e (IsOutputEnabled (next state))
                             (IsInputEnabled (next state)))
            exit_with).

Definition manual_create_engine (state : EngineStateUpdate) : M unit :=
  when (IsAnyEnabled (next state) && negb (IsAnyEnabled (prev state)))
    (e <- alloc KAudioEngine ;;
     modify (set_engine_manual_input_ (Some e)) ;;
     emit (EvEnableManualRenderingMode (Some e) kMaximumFramesPerBuffer) ;;
     notify (OnEngineDidCreate (Some e)) exit_with).

Definition manual_will_enable (state : EngineStateUpdate) : M unit :=
  when (DidAnyEnable state)
    (e <- get engine_manual_input_ ;;
     notify (OnEngineWillEnable e (IsOutputEnabled (next state))
                                (IsInputEnabled (next state)))
            exit_with).

Definition manual_output (state : EngineStateUpdate) : M unit :=
  when (IsOutputEnabled (next state) && negb (IsOutputEnabled (prev state)))
    (emit (EvSetPlayoutSampleRate (sampleRate manual_render_rtc_format_)) ;;
     emit (EvSetPlayoutChannels (channelCount manual_render_rtc_format_)) ;;
     fab <- alloc KFineAudioBuffer ;;
     modify (set_fine_audio_buffer_ (Some fab))).

Definition manual_input (state : EngineStateUpdate) : M unit :=
  when (IsInputEnabled (next state) && negb (IsInputEnabled (prev state)))
    (emit (EvSetRecordingSampleRate (sampleRate manual_render_rtc_format_)) ;;
     emit (EvSetRecordingChannels (channelCount manual_render_rtc_format_)) ;;
     fab <- alloc KFineAudioBuffer ;;
     modify (set_fine_audio_buffer_ (Some fab)) ;;
     e <- get engine_manual_input_ ;;
     notify (OnEngineWillConnectInput e None MainMixerNode) exit_with ;;
     emit (EvConnect MainMixerNode OutputNode)).

Definition manual_did_disable (state : EngineStateUpdate) : M unit :=
  when (DidAnyDisable state)
    (e <- get engine_manual_input_ ;;
     notify (OnEngineDidDisable e (IsOutputEnabled (next state))
                                (IsInputEnabled (next state)))
            exit_with).

Definition manual_start_engine (state : EngineStateUpdate) : M unit :=
  when (IsAnyRunning (next state) && negb (IsAnyRunning (prev state)))
    (e <- get engine_manual_input_ ;;
     notify (OnEngineWillStart e (IsOutputEnabled (next state))
                               (IsInputEnabled (next state)))
            exit_with ;;
     render <- alloc KPCMBuffer ;;
     modify (set_render_buffer_ (Some render)) ;;
     read <- alloc KPCMBuffer ;;
     modify (set_read_buffer_ (Some read)) ;;
     start_result <- ask (startAndReturnError pf) ;;
     emit (EvEngineStart e start_result) ;;
     when (negb start_result) (emit EvDebugAudioEngine) ;;
     block <- alloc KRenderBlock ;;
     modify (set_render_block_ (Some block)) ;;
     t <- alloc KThread ;;
     modify (set_render_thread_ (Some t)) ;;
     emit (EvRenderThreadStart t)).

Definition manual_release_engine (state : EngineStateUpdate) : M unit :=
  when (IsAnyEnabled (prev state) && negb (IsAnyEnabled (next state)))
    (e <- get engine_manual_input_ ;;
     notify (OnEngineWillRelease e) exit_with ;;
     modify (set_engine_manual_input_ None)).

Definition ApplyManualEngineState_body (state : EngineStateUpdate) : M unit :=
  manual_stop_engine state ;;
  manual_create_engine state ;;
  step_stop_playout_buffer state ;;
  step_stop_recording_buffer state ;;
  manual_will_enable state ;;
  manual_output state ;;
  manual_input state ;;
  manual_did_disable state ;;
  step_start_playout_buffer state ;;
  step_start_recording_buffer state ;;
  manual_start_engine state ;;
  manual_release_engine state.

Definition ApplyManualEngineState (state : EngineStateUpdate) (w : World)
  : Z * World :=
  run (ApplyManualEngineState_body state) w.

End Appliers.

(** ** ModifyEngineState *)

Section Driver.

(** The two member functions the driver calls. *)
Variable ApplyDevice : EngineStateUpdate -> World -> Z * World.
Variable ApplyManual : EngineStateUpdate -> World -> Z * World.

(** The dispatch of [ModifyEngineState]: the pair
    [(shutdown_result, startup_result)] and the world after the appliers.
    The assignment [shutdown_state.prev = {}] of the source is kept where the
    source has it; the value it builds is not used afterwards. *)
Definition dispatch (state : EngineStateUpdate) (w : World) : Z * Z * World :=
  if DidEnableManualRenderingMode state then
    let shutdown_state := state in
    let shutdown_state := mkUpdate (prev shutdown_state) default_EngineState in
    let '(shutdown_result, w1) := ApplyDevice shutdown_state w in
    let startup_state := state in
    let shutdown_state := mkUpdate default_EngineState (next shutdown_state) in
    let '(startup_result, w2) := ApplyManual startup_state w1 in
    (shutdown_result, startup_result, w2)
  else if DidEnableDeviceRenderingMode state then
    let shutdown_state := state in
    let shutdown_state := mkUpdate (prev shutdown_state) default_EngineState in
    let '(shutdown_result, w1) := ApplyManual shutdown_state w in
    let startup_state := state in
    let shutdown_state := mkUpdate default_EngineState (next shutdown_state) in
    let '(startup_result, w2) := ApplyDevice startup_state w1 in
    (shutdown_result, startup_result, w2)
  else if RenderMode_eqb (render_mode (next state)) Device then
    let '(shutdown_result, w1) := ApplyDevice state w in
    (shutdown_result, 0, w1)
  else if RenderMode_eqb (render_mode (next state)) Manual then
    let '(startup_result, w1) := ApplyManual state w in
    (0, startup_result, w1)
  else (0, 0, w).

Definition ModifyEngineStateWith (state_transform : EngineState -> EngineState)
  (w : World) : Z * World :=
  let old_state := engine_state_ w in
  let new_state := state_transform old_state in
  let state := mkUpdate old_state new_state in
  if HasNoChanges state then (0, w)
  else if input_running new_state && negb (input_enabled new_state) then (-1, w)
  else if output_running new_state && negb (output_enabled new_state) then (-1, w)
  else
    let '(shutdown_result, startup_result, w') := dispatch state w in
    let return_result :=
      if negb (shutdown_result =? 0) then shutdown_result else startup_result in
    if return_result =? 0
    then (return_result, set_engine_state_ new_state w')
    else (return_result, w').

End Driver.

Definition ModifyEngineState (pf : Platform)
  (state_transform : EngineState -> EngineState) (w : World) : Z * World :=
  ModifyEngineStateWith (ApplyDeviceEngineState pf) (ApplyManualEngineState pf)
                        state_transform w.

(** ** Public setters *)

Definition InitPlayout pf := ModifyEngineState pf InitPlayout_transform.
Definition StartPlayout pf := ModifyEngineState pf StartPlayout_transform.
Definition StopPlayout pf := ModifyEngineState pf StopPlayout_transform.
Definition InitRecording pf := ModifyEngineState pf InitRecording_transform.
Definition StartRecording pf := ModifyEngineState pf StartRecording_transform.
Definition StopRecording pf := ModifyEngineState pf StopRecording_transform.
Definition InitAndStartRecording pf :=
  ModifyEngineState pf InitAndStartRecording_transform.
Definition SetMicrophoneMute pf (enable : bool) :=
  ModifyEngineState pf (SetMicrophoneMute_transform enable).
Definition SetMuteMode pf (mode : MuteMode) :=
  ModifyEngineState pf (SetMuteMode_transform mode).
Definition SetManualRenderingMode pf (enable : bool) :=
  ModifyEngineState pf (SetManualRenderingMode_transform enable).
Definition SetEngineState pf (new_state : EngineState) :=
  ModifyEngineState pf (SetEngineState_transform new_state).

(** The object after construction with [voice_processing_bypassed = false]:
    default state, no observer, nothing allocated, buffer idle. *)
Definition initial_World : World := {|
  engine_state_ := default_EngineState;
  observer_ := None;
  audio_device_buffer_ := mkBuffer false false;
  fine_audio_buffer_ := None;
  engine_device_ := None;
  engine_manual_input_ := None;
  source_node_ := None;
  sink_node_ := None;
  input_mixer_node_ := None;
  converter_ref_ := None;
  converter_buffer_ := None;
  configuration_observer_ := None;
  render_thread_ := None;
  render_buffer_ := None;
  read_buffer_ := None;
  render_block_ := None;
  trace := []
|}.

(** [SetObserver]. *)
Definition SetObserver (observer : option Observer) (w : World) : World :=
  let 'mkWorld a _ c d e f g h i j k l m n o p q := w in
  mkWorld a observer c d e f g h i j k l m n o p q.

(** ** StartRenderLoop (manual mode)

    The sample rate of [manual_render_rtc_format_] is the integer 48000,
    for which the [double] arithmetic of the source is exact; it is written
    over [Z]: [static_cast<size_t>] truncates, [std::round] rounds half away
    from zero. *)

Definition frames_per_buffer_of (sample_rate : Z) : Z := Z.quot sample_rate 100.

Definition round_div (a b : Z) : Z := (2 * a + b) / (2 * b).

Definition chunk_ms_of (sample_rate : Z) : Z :=
  round_div (1000 * frames_per_buffer_of sample_rate) sample_rate.

Definition sample_rate : Z := sampleRate manual_render_rtc_format_.
Definition frames_per_buffer : Z := frames_per_buffer_of sample_rate.
Definition buffer_size : Z := frames_per_buffer * kAudioSampleSize.
Definition chunk_ms : Z := chunk_ms_of sample_rate.

(** What the render thread calls, in program order. *)
Inductive RenderEvent :=
| RGetPlayoutData (frames : Z)
| RRenderBlock (frames : Z) (success : bool)
| RDeliverRecordedData (frames : Z)
| RSleepMs (ms : Z).

(** What the surroundings answer during one pass of the loop: the two
    [IsQuitting] polls, the status of [render_block_], and the clock. *)
Record Tick := mkTick {
  quitting_at_head : bool;
  render_success : bool;
  quitting_before_sleep : bool;
  now_ms : Z
}.

Record RenderLoop := mkRenderLoop {
  next_wakeup_ms : Z;
  render_trace : list RenderEvent
}.

(** The body of [while (!render_thread_->IsQuitting())]. *)
Definition render_iteration (t : Tick) (st : RenderLoop) : RenderLoop :=
  let tr := render_trace st ++ [RGetPlayoutData frames_per_buffer] in
  let tr := tr ++ [RRenderBlock frames_per_buffer (render_success t)] in
  let tr := if render_success t
            then tr ++ [RDeliverRecordedData frames_per_buffer] else tr in
  if negb (quitting_before_sleep t) then
    let next_wakeup_ms := next_wakeup_ms st + chunk_ms in
    let sleep_ms := next_wakeup_ms - now_ms t in
    if 0 <? sleep_ms
    then mkRenderLoop next_wakeup_ms (tr ++ [RSleepMs sleep_ms])
    else mkRenderLoop next_wakeup_ms tr
  else mkRenderLoop (next_wakeup_ms st) tr.

(** The loop, along the answers of the surroundings; it leaves when a poll
    at the head says so. *)
Fixpoint render_loop (ticks : list Tick) (st : RenderLoop) : RenderLoop :=
  match ticks with
  | [] => st
  | t :: rest =>
      if quitting_at_head t then st
      else render_loop rest (render_iteration t st)
  end.

(** [next_wakeup_ms = rtc::TimeMillis()], then the loop. *)
Definition StartRenderLoop (start_ms : Z) (ticks : list Tick) : RenderLoop :=
  render_loop ticks (mkRenderLoop start_ms []).

Definition delivered_frames (tr : list RenderEvent) : Z :=
  fold_right (fun e acc => match e with
                           | RDeliverRecordedData f => f + acc
                           | _ => acc
                           end) 0 tr.

Definition sleeps (tr : list RenderEvent) : list Z :=
  flat_map (fun e => match e with RSleepMs ms => [ms] | _ => [] end) tr.

(** A pass during which nobody asks the thread to quit. *)
Definition running_tick (p : bool * Z) : Tick :=
  mkTick false (fst p) false (snd p).

Definition successes (l : list (bool * Z)) : nat :=
  length (filter fst l).

(** ** The default-device watcher (desktop)

    Modelled from the spec: the control thread's task queue and
    [PendingTaskSafetyFlag] are not part of the sources at hand.  A delayed
    task runs once its delay has passed, in posting order; a task made with
    [SafeTask(flag, ...)] checks the flag and does nothing when it is not
    alive.  Flags are shared objects: they live in a store and are named by
    their index. *)

Inductive DefaultSelector :=
| kAudioHardwarePropertyDefaultOutputDevice
| kAudioHardwarePropertyDefaultInputDevice.

Record DelayedTask := mkTask {
  due_ms : Z;
  task_safety : nat;
  task_selector : DefaultSelector
}.

Record ControlThread := mkThread {
  clock_ms : Z;
  safety_flags : list bool;
  default_device_update_safety_ : nat;
  delayed_tasks : list DelayedTask;
  world : World
}.

Definition SetNotAlive (flag : nat) (flags : list bool) : list bool :=
  firstn flag flags ++
  match skipn flag flags with
  | [] => []
  | _ :: rest => false :: rest
  end.

Definition alive (flag : nat) (flags : list bool) : bool :=
  nth flag flags false.

(** The second branch of the task [HandleDeviceListenerEvent] posts, as it
    runs on the control thread: cancel, replace the flag, schedule. *)
Definition HandleDeviceListenerEvent (selector : DefaultSelector)
  (th : ControlThread) : ControlThread :=
  let flags := SetNotAlive (default_device_update_safety_ th) (safety_flags th) in
  let new_flag := length flags in
  let flags := flags ++ [true] in
  mkThread (clock_ms th) flags new_flag
           (delayed_tasks th ++
            [mkTask (clock_ms th + kDefaultDeviceUpdateDebounceMs) new_flag selector])
           (world th).

Definition default_update_transform (selector : DefaultSelector)
  : EngineState -> EngineState :=
  match selector with
  | kAudioHardwarePropertyDefaultOutputDevice => default_output_update_transform
  | kAudioHardwarePropertyDefaultInputDevice => default_input_update_transform
  end.


Section Watcher.

Variable pf : Platform.

(** The debounced task: nothing if its flag is not alive, else the counter
    update through [ModifyEngineState]; a failure is only logged. *)
Definition run_task (flags : list bool) (w : World) (t : DelayedTask) : World :=
  if alive (task_safety t) flags
  then snd (ModifyEngineState pf (default_update_transform (task_selector t)) w)
  else w.

(** Let the clock reach [t]: the delayed tasks that are due run in order. *)
Definition advance_to (t : Z) (th : ControlThread) : ControlThread :=
  let due := filter (fun k => due_ms k <=? t) (delayed_tasks th) in
  let later := filter (fun k => negb (due_ms k <=? t)) (delayed_tasks th) in
  mkThread t (safety_flags th) (default_device_update_safety_ th) later
           (fold_left (run_task (safety_flags th)) due (world th)).

(** A notification arriving at time [fst ev]. *)
Definition deliver (th : ControlThread) (ev : Z * DefaultSelector)
  : ControlThread :=
  HandleDeviceListenerEvent (snd ev) (advance_to (fst ev) th).

Definition deliver_all (evs : list (Z * DefaultSelector)) (th : ControlThread)
  : ControlThread :=
  fold_left deliver evs th.

End Watcher.

(** A burst after an event at [t0]: arrival times do not go back, and
    consecutive gaps are under the debounce delay. *)
Fixpoint burst_from (t0 : Z) (times : list Z) : Prop :=
  match times with
  | [] => True
  | t :: rest =>
      t0 <= t /\ t - t0 < kDefaultDeviceUpdateDebounceMs /\ burst_from t rest
  end.

(** The control thread of a fresh object at time [t]. *)
Definition idle_thread (t : Z) (w : World) : ControlThread :=
  mkThread t [true] 0 [] w.

(** ** Reading traces *)

(** The result of the first observer call of a trace that did not
    return 0. *)
Fixpoint first_failure (evs : Trace) : option Z :=
  match evs with
  | [] => None
  | EvObserver _ result :: rest =>
      if result =? 0 then first_failure rest else Some result
  | _ :: rest => first_failure rest
  end.

Definition is_observer_call (e : Event) : bool :=
  match e with EvObserver _ _ => true | _ => false end.

(** Number of [startAndReturnError] calls. *)
Fixpoint start_attempts (evs : Trace) : nat :=
  match evs with
  | [] => 0
  | EvEngineStart _ _ :: rest => S (start_attempts rest)
  | _ :: rest => start_attempts rest
  end.


(** The result of the last [startAndReturnError] call. *)
Fixpoint last_start (evs : Trace) : option bool :=
  match evs with
  | [] => None
  | EvEngineStart _ r :: rest =>
      match last_start rest with
      | Some r' => Some r'
      | None => Some r
      end
  | _ :: rest => last_start rest
  end.

Definition is_debug_dump (e : Event) : bool :=
  match e with EvDebugAudioEngine => true | _ => false end.

(** The events of one pass of the start loop: the retry sleep before every
    attempt but the first, the desktop workaround, the start call. *)
Definition attempt_events (osx : bool) (engine : option Obj)
  (start_retry_count : nat) (start_result : bool) : Trace :=
  (if (0 <? start_retry_count)%nat
   then [EvRetrySleep (kStartEngineRetryDelayMs * 1000)] else []) ++
  (if osx then [EvEnginePrepare engine; EvSettleSleep 100000] else []) ++
  [EvEngineStart engine start_result].

(** The events of consecutive passes, from the given retry count on. *)
Fixpoint loop_events (osx : bool) (engine : option Obj)
  (start_retry_count : nat) (results : list bool) : Trace :=
  match results with
  | [] => []
  | r :: rest =>
      attempt_events osx engine start_retry_count r ++
      loop_events osx engine (S start_retry_count) rest
  end.

(** ** Concrete surroundings used in examples *)

(** A desktop whose devices are present and whose engine starts at once. *)
Definition desktop : Platform := {|
  TARGET_OS_OSX := true;
  TARGET_OS_SIMULATOR := false;
  TARGET_OS_TV := false;
  os_17_available := true;
  voiceProcessingEnabled := fun _ => false;
  voiceProcessingInputMuted := fun _ => false;
  voiceProcessingBypassed := fun _ => false;
  voiceProcessingAGCEnabled := fun _ => true;
  output_node_format := fun _ => mkFormat 48000 2;
  input_node_format := fun _ => mkFormat 48000 1;
  attachedNodes_contains := fun _ _ => true;
  input_mixer_connections_count := fun _ => 0%nat;
  input_mixer_outputVolume := fun _ => VolumeOne;
  startAndReturnError := fun _ => true
|}.


(** An observer that accepts everything but [OnEngineDidDisable]. *)
Definition rejects_did_disable : Observer :=
  fun cb _ => match cb with OnEngineDidDisable _ _ _ => -42 | _ => 0 end.


(** Playout initialised on the desktop, then an observer installed. *)
Definition playout_ready (observer : Observer) : World :=
  SetObserver (Some observer) (snd (InitPlayout desktop initial_World)).

(** Recording initialised and started on the desktop, device mode. *)
Definition recording_started : World :=
  snd (InitAndStartRecording desktop initial_World).

(** Manual rendering selected first, then recording initialised and
    started. *)
Definition manual_recording_started : World :=
  snd (InitAndStartRecording desktop
         (snd (SetManualRenderingMode desktop true initial_World))).

(** The dispatch as the specification words it: the shutdown applier sees
    [prev = current, next = default], the startup applier sees
    [prev = default, next = requested]. *)
Definition dispatch_as_specified
  (ApplyDevice ApplyManual : EngineStateUpdate -> World -> Z * World)
  (state : EngineStateUpdate) (w : World) : Z * Z * World :=
  if DidEnableManualRenderingMode state then
    let '(shutdown_result, w1) :=
      ApplyDevice (mkUpdate (prev state) default_EngineState) w in
    let '(startup_result, w2) :=
      ApplyManual (mkUpdate default_EngineState (next state)) w1 in
    (shutdown_result, startup_result, w2)
  else if DidEnableDeviceRenderingMode state then
    let '(shutdown_result, w1) :=
      ApplyManual (mkUpdate (prev state) default_EngineState) w in
    let '(startup_result, w2) :=
      ApplyDevice (mkUpdate default_EngineState (next state)) w1 in
    (shutdown_result, startup_result, w2)
  else dispatch ApplyDevice ApplyManual state w.

(** ** What an applier may do

    [spec d Q c]: the computation [c] only appends to the trace and leaves
    the committed state alone; if it runs to its end, no observer call of
    the appended events failed and the value satisfies [Q]; if it returns
    early with [r], then [r] is not 0 and is the result of the first (and
    only) failing observer call appended, unless no observer call failed,
    which is a device error and needs [d]. *)

Definition frame (f : World -> World) : Prop :=
  forall w, trace (f w) = trace w /\ engine_state_ (f w) = engine_state_ w.

Definition spec {A} (d : bool) (Q : A -> Prop) (c : M A) : Prop :=
  forall w, exists evs,
    trace (snd (c w)) = trace w ++ evs /\
    engine_state_ (snd (c w)) = engine_state_ w /\
    match fst (c w) with
    | inr a => first_failure evs = None /\ Q a
    | inl r =>
        r <> 0 /\
        (first_failure evs = Some r \/ (first_failure evs = None /\ d = true))
    end.

Definition any {A} : A -> Prop := fun _ => True.

(** What [notify] asks of its error continuation: return that result,
    within the frame. *)
Definition returns_result (on_error : Z -> M unit) : Prop :=
  forall r w, exists w',
    on_error r w = (inl r, w') /\ trace w' = trace w /\
    engine_state_ w' = engine_state_ w.

(** What an applier call does to the trace and to the committed state:
    it appends events; it leaves [engine_state_] alone; it returns 0 only
    if no appended observer call failed; a non-zero result is that of the
    first failing observer call appended, or, when [d] allows it, a device
    error with no failing observer call. *)
Definition applier_result (d : bool) (res : Z * World) (w : World) : Prop :=
  exists evs,
    trace (snd res) = trace w ++ evs /\
    engine_state_ (snd res) = engine_state_ w /\
    (fst res = 0 -> first_failure evs = None) /\
    (fst res <> 0 ->
     first_failure evs = Some (fst res) \/
     (first_failure evs = None /\ d = true)).

(** A task is cancelled in a store when its flag is there and not alive. *)
Definition cancelled (flags : list bool) (k : DelayedTask) : Prop :=
  nth (task_safety k) flags true = false.

(** The state of the watcher while an update is pending: the world is
    still [w0]; the last task of the queue is the pending update, made with
    the current flag, which is alive and the newest of the store; all
    earlier tasks are cancelled. *)
Definition pending (selector : DefaultSelector) (w0 : World)
  (th : ControlThread) : Prop :=
  world th = w0 /\
  exists flags0 older,
    safety_flags th = flags0 ++ [true] /\
    default_device_update_safety_ th = length flags0 /\
    delayed_tasks th =
      older ++ [mkTask (clock_ms th + kDefaultDeviceUpdateDebounceMs)
                       (length flags0) selector] /\
    Forall (cancelled flags0) older.

(** ** Further setters, getters and tasks of the engine object *)

Definition set_input_enabled_persistent_mode (v : bool) (s : EngineState)
  : EngineState :=
  let 'mkEngineState a1 a2 a3 a4 a5 _ a7 a8 a9 a10 a11 a12 a13 a14 a15 a16 a17 a18 a19 := s in
  mkEngineState a1 a2 a3 a4 a5 v a7 a8 a9 a10 a11 a12 a13 a14 a15 a16 a17 a18 a19.

Definition set_voice_processing_enabled (v : bool) (s : EngineState) : EngineState :=
  let 'mkEngineState a1 a2 a3 a4 a5 a6 a7 a8 a9 a10 _ a12 a13 a14 a15 a16 a17 a18 a19 := s in
  mkEngineState a1 a2 a3 a4 a5 a6 a7 a8 a9 a10 v a12 a13 a14 a15 a16 a17 a18 a19.

Definition set_voice_processing_bypassed (v : bool) (s : EngineState) : EngineState :=
  let 'mkEngineState a1 a2 a3 a4 a5 a6 a7 a8 a9 a10 a11 _ a13 a14 a15 a16 a17 a18 a19 := s in
  mkEngineState a1 a2 a3 a4 a5 a6 a7 a8 a9 a10 a11 v a13 a14 a15 a16 a17 a18 a19.

Definition set_voice_processing_agc_enabled (v : bool) (s : EngineState)
  : EngineState :=
  let 'mkEngineState a1 a2 a3 a4 a5 a6 a7 a8 a9 a10 a11 a12 _ a14 a15 a16 a17 a18 a19 := s in
  mkEngineState a1 a2 a3 a4 a5 a6 a7 a8 a9 a10 a11 a12 v a14 a15 a16 a17 a18 a19.

Definition set_advanced_ducking (v : bool) (s : EngineState) : EngineState :=
  let 'mkEngineState a1 a2 a3 a4 a5 a6 a7 a8 a9 a10 a11 a12 a13 _ a15 a16 a17 a18 a19 := s in
  mkEngineState a1 a2 a3 a4 a5 a6 a7 a8 a9 a10 a11 a12 a13 v a15 a16 a17 a18 a19.

Definition set_ducking_level (v : Z) (s : EngineState) : EngineState :=
  let 'mkEngineState a1 a2 a3 a4 a5 a6 a7 a8 a9 a10 a11 a12 a13 a14 _ a16 a17 a18 a19 := s in
  mkEngineState a1 a2 a3 a4 a5 a6 a7 a8 a9 a10 a11 a12 a13 a14 v a16 a17 a18 a19.

(** The tasks of [OnInterruptionBegin] and [OnInterruptionEnd]
    ([should_resume] is not used). *)
Definition OnInterruptionBegin pf :=
  ModifyEngineState pf (set_is_interrupted true).
Definition OnInterruptionEnd pf (should_resume : bool) :=
  ModifyEngineState pf (set_is_interrupted false).

Definition SetVoiceProcessingEnabled pf (enable : bool) :=
  ModifyEngineState pf (set_voice_processing_enabled enable).
Definition SetVoiceProcessingBypassed pf (enable : bool) :=
  ModifyEngineState pf (set_voice_processing_bypassed enable).
Definition SetVoiceProcessingAGCEnabled pf (enable : bool) :=
  ModifyEngineState pf (set_voice_processing_agc_enabled enable).
Definition SetAdvancedDucking pf (enable : bool) :=
  ModifyEngineState pf (set_advanced_ducking enable).
Definition SetDuckingLevel pf (level : Z) :=
  ModifyEngineState pf (set_ducking_level level).
Definition SetInitRecordingPersistentMode pf (enable : bool) :=
  ModifyEngineState pf (set_input_enabled_persistent_mode enable).

(** Getters: each reads one field of the committed state. *)
Definition PlayoutIsInitialized (w : World) : bool := output_enabled (engine_state_ w).
Definition Playing (w : World) : bool := output_running (engine_state_ w).
Definition RecordingIsInitialized (w : World) : bool := input_enabled (engine_state_ w).
Definition Recording (w : World) : bool := input_running (engine_state_ w).
Definition MicrophoneMute (w : World) : bool := input_muted (engine_state_ w).
Definition IsInterrupted (w : World) : bool := is_interrupted (engine_state_ w).
Definition ManualRenderingMode (w : World) : bool :=
  RenderMode_eqb (render_mode (engine_state_ w)) Manual.

(** The task [ReconfigureEngine] posts to the control thread: in device
    mode, shut everything down, then apply the state again. *)
Definition ReconfigureEngine pf (w : World) : World :=
  let current_state := engine_state_ w in
  if negb (RenderMode_eqb (render_mode current_state) Device) then w
  else
    let shutdown_state :=
      set_output_running false
        (set_output_enabled false
           (set_input_running false
              (set_input_enabled false (engine_state_ w)))) in
    let '(shutdown_result, w1) :=
      ModifyEngineState pf (fun _ => shutdown_state) w in
    if negb (shutdown_result =? 0) then w1
    else
      let '(recover_result, w2) :=
        ModifyEngineState pf (fun _ => current_state) w1 in
      w2.

(** The state [ReconfigureEngine] shuts down to. *)
Definition all_off (s : EngineState) : EngineState :=
  set_output_running false
    (set_output_enabled false
       (set_input_running false (set_input_enabled false s))).

(** The check [ModifyEngineState] makes before it calls an applier. *)
Definition running_implies_enabled (s : EngineState) : Prop :=
  (input_running s = true -> input_enabled s = true) /\
  (output_running s = true -> output_enabled s = true).

(** ** Relational reasoning about the appliers

    [steps R E c]: from every world [w], [c] ends in a world related to [w]
    by [R], and if it returns early with [r] then [E w r]. *)

Definition steps {A} (R : World -> World -> Prop) (E : World -> Z -> Prop)
  (c : M A) : Prop :=
  forall w, R w (snd (c w)) /\ (forall r, fst (c w) = inl r -> E w r).

Definition append_event (e : Event) (w : World) : World :=
  set_trace (trace w ++ [e]) w.

(** What [R] and [E] must satisfy for the rules of sequencing; [P] says
    which events [R] lets through. *)
Class StepRel (R : World -> World -> Prop) (E : World -> Z -> Prop)
  (P : Event -> Prop) : Prop := {
  rel_refl : forall w, R w w;
  rel_trans : forall w1 w2 w3, R w1 w2 -> R w2 w3 -> R w1 w3;
  rel_exit : forall w1 w2 r, R w1 w2 -> E w2 r -> E w1 r;
  rel_emit : forall e w, P e -> R w (append_event e w)
}.

(** An error continuation that returns its argument, within [R]. *)
Definition returns_within (R : World -> World -> Prop) (on_error : Z -> M unit)
  : Prop :=
  forall r w, exists w', on_error r w = (inl r, w') /\ R w w'.



Definition any_event (e : Event) : Prop := True.






(** ** The buffer flags

    The two checks at the end of a successful [ModifyEngineState]:
    [RTC_DCHECK_EQ(audio_device_buffer_->IsPlaying(), IsOutputEnabled())]
    and the same for recording. *)
Definition buffer_consistent (w : World) : Prop :=
  IsPlaying w = IsOutputEnabled (engine_state_ w) /\
  IsRecording w = IsInputEnabled (engine_state_ w).

Definition same_buffer (w w' : World) : Prop :=
  audio_device_buffer_ w' = audio_device_buffer_ w.

Definition any_exit (w : World) (r : Z) : Prop := True.

(** [triple Pre c Post]: from a world with [Pre], if [c] runs to its end
    with value [a], the world it leaves has [Post a]. *)
Definition triple {A} (Pre : World -> Prop) (c : M A)
  (Post : A -> World -> Prop) : Prop :=
  forall w, Pre w ->
    match c w with
    | (inr a, w') => Post a w'
    | (inl _, _) => True
    end.

(** How far the buffer flags are on their way to [out] and [inp]: nothing
    known; playout stopped if it had to be; both stopped if they had to
    be; playout settled; both settled. *)
Definition buffer_stage (out inp : bool) (n : nat) (w : World) : Prop :=
  match n with
  | 0%nat => True
  | 1%nat => out = false -> IsPlaying w = false
  | 2%nat => (out = false -> IsPlaying w = false) /\
             (inp = false -> IsRecording w = false)
  | 3%nat => IsPlaying w = out /\ (inp = false -> IsRecording w = false)
  | _ => IsPlaying w = out /\ IsRecording w = inp
  end.

(** ** Updates that leave the audio graph alone *)

(** A call that sets a property of the input node or of the input mixer. *)
Definition is_node_setting (e : Event) : bool :=
  match e with
  | EvSetVoiceProcessingEnabled _
  | EvSetVoiceProcessingInputMuted _
  | EvSetMutedSpeechActivityEventListener
  | EvSetVoiceProcessingBypassed _
  | EvSetVoiceProcessingAGCEnabled _
  | EvSetOtherAudioDucking _ _
  | EvSetMixerOutputVolume _ => true
  | _ => false
  end.

(** An update that keeps what is enabled, whether anything runs, the
    interruption flag and the voice-processing switch, and asks for no new
    engine. *)
Definition runtime_only (state : EngineStateUpdate) : bool :=
  Bool.eqb (IsOutputEnabled (prev state)) (IsOutputEnabled (next state)) &&
  Bool.eqb (IsInputEnabled (prev state)) (IsInputEnabled (next state)) &&
  Bool.eqb (IsAnyRunning (prev state)) (IsAnyRunning (next state)) &&
  Bool.eqb (is_interrupted (prev state)) (is_interrupted (next state)) &&
  Bool.eqb (voice_processing_enabled (prev state))
           (voice_processing_enabled (next state)) &&
  negb (IsEngineRecreateRequired state).

(** An update the manual applier has nothing to do for. *)
Definition manual_idle (state : EngineStateUpdate) : bool :=
  Bool.eqb (IsOutputEnabled (prev state)) (IsOutputEnabled (next state)) &&
  Bool.eqb (IsInputEnabled (prev state)) (IsInputEnabled (next state)) &&
  Bool.eqb (IsAnyRunning (prev state)) (IsAnyRunning (next state)).

(** Only the trace grew, by events of [P]. *)
Definition only_emits (P : Event -> Prop) (w w' : World) : Prop :=
  exists evs, w' = set_trace (trace w ++ evs) w /\ Forall P evs.

Definition settled (out inp : bool) (w : World) : Prop :=
  IsPlaying w = out /\ IsRecording w = inp.

(** From a world whose buffer flags are [out] and [inp]: only events of
    [P], and no early return. *)
Definition quiet (out inp : bool) (P : Event -> Prop) (w w' : World) : Prop :=
  settled out inp w -> only_emits P w w'.

Definition never_exits (out inp : bool) (w : World) (r : Z) : Prop :=
  settled out inp w -> False.

Definition node_setting (e : Event) : Prop := is_node_setting e = true.


(** A call of [ModifyEngineState] that returns 0, commits the new state and
    otherwise only sets node properties. *)
Definition applies_quietly (pf : Platform)
  (state_transform : EngineState -> EngineState) (w : World) : Prop :=
  exists evs,
    ModifyEngineState pf state_transform w
      = (0, set_engine_state_ (state_transform (engine_state_ w))
              (set_trace (trace w ++ evs) w)) /\
    Forall (fun e => is_node_setting e = true) evs.

(** ** Stopping and starting the engine *)

Definition is_engine_start (e : Event) : bool :=
  match e with EvEngineStart _ _ => true | _ => false end.

Definition is_engine_stop (e : Event) : bool :=
  match e with EvEngineStop _ => true | _ => false end.

Definition not_start (e : Event) : Prop := is_engine_start e = false.
Definition not_stop (e : Event) : Prop := is_engine_stop e = false.

(** The trace grew, by events of [P]. *)
Definition grows (P : Event -> Prop) (w w' : World) : Prop :=
  exists evs, trace w' = trace w ++ evs /\ Forall P evs.

(** The guards of the first and of the last but one step of
    [ApplyDeviceEngineState]. *)
Definition stops_engine (state : EngineStateUpdate) : bool :=
  IsAnyRunning (prev state) &&
  (negb (IsAnyRunning (next state)) || IsEngineRestartRequired state ||
   DidBeginInterruption state || IsEngineRecreateRequired state).

Definition starts_engine (state : EngineStateUpdate) : bool :=
  IsAnyRunning (next state) &&
  (negb (IsAnyRunning (prev state)) || DidEndInterruption state ||
   IsEngineRestartRequired state || IsEngineRecreateRequired state).

(** The events since the trace was [t0] satisfy [Q]. *)
Definition since (t0 : Trace) (Q : Trace -> Prop) (w : World) : Prop :=
  exists evs, trace w = t0 ++ evs /\ Q evs.

(** Recording on the desktop, interrupted. *)
Definition recording_interrupted : World :=
  snd (OnInterruptionBegin desktop recording_started).

(** ** Notifications for both sides *)



(** ** More getters

    Each writes one field of the committed state through its pointer
    argument; the value written is given. *)
Definition VoiceProcessingEnabled (w : World) : bool :=
  voice_processing_enabled (engine_state_ w).
Definition VoiceProcessingBypassed (w : World) : bool :=
  voice_processing_bypassed (engine_state_ w).
Definition VoiceProcessingAGCEnabled (w : World) : bool :=
  voice_processing_agc_enabled (engine_state_ w).
Definition GetMuteMode (w : World) : MuteMode := mute_mode (engine_state_ w).
Definition AdvancedDucking (w : World) : bool :=
  advanced_ducking (engine_state_ w).
Definition DuckingLevel (w : World) : Z := ducking_level (engine_state_ w).
Definition InitRecordingPersistentMode (w : World) : bool :=
  input_enabled_persistent_mode (engine_state_ w).
Definition GetEngineState (w : World) : EngineState := engine_state_ w.

(** What a getter reads after a setter call: the value set if the call
    returned 0, the value it read before otherwise. *)
Definition reads_back {X} (getter : World -> X) (value : X)
  (call : World -> Z * World) (w : World) : Prop :=
  getter (snd (call w)) = if fst (call w) =? 0 then value else getter w.

(** ** The object on the desktop: life cycle and device lists

    The HAL ([AudioObject...] and [mac_audio_utils]) is outside the sources
    at hand: its answers are read from a record, as functions of the HAL
    calls made so far. *)

Inductive ListenerSelector :=
| kAudioHardwarePropertyDevices
| kAudioHardwarePropertyDefault (selector : DefaultSelector).

Inductive HalCall :=
| HalSetRunLoop (err : Z)
| HalAddPropertyListener (selector : ListenerSelector) (err : Z)
| HalRemovePropertyListener (selector : ListenerSelector) (err : Z).

Definition noErr : Z := 0.

Record Hal := mkHal {
  AudioObjectSetPropertyData : list HalCall -> Z;
  AudioObjectAddPropertyListener : ListenerSelector -> list HalCall -> Z;
  AudioObjectRemovePropertyListener : ListenerSelector -> list HalCall -> Z;
  GetAllAudioDeviceIDs : list HalCall -> list Z;
  IsInputDevice : Z -> bool;
  IsOutputDevice : Z -> bool;
  GetDeviceLabel : Z -> bool -> option String.string
}.

(** [AudioEngineDevice] with the members of the life cycle and of the
    device lists; [members] holds the rest. *)
Record DeviceObject := mkDeviceObject {
  initialized_ : bool;
  input_device_ids_ : list Z;
  output_device_ids_ : list Z;
  input_device_labels_ : list String.string;
  output_device_labels_ : list String.string;
  hal_calls : list HalCall;
  members : World
}.

Definition set_initialized_ (v : bool) (d : DeviceObject) : DeviceObject :=
  mkDeviceObject v (input_device_ids_ d) (output_device_ids_ d)
    (input_device_labels_ d) (output_device_labels_ d) (hal_calls d) (members d).

Definition set_members (v : World) (d : DeviceObject) : DeviceObject :=
  mkDeviceObject (initialized_ d) (input_device_ids_ d) (output_device_ids_ d)
    (input_device_labels_ d) (output_device_labels_ d) (hal_calls d) v.

Definition hal_call (c : HalCall) (d : DeviceObject) : DeviceObject :=
  mkDeviceObject (initialized_ d) (input_device_ids_ d) (output_device_ids_ d)
    (input_device_labels_ d) (output_device_labels_ d) (hal_calls d ++ [c])
    (members d).

Definition Initialized (d : DeviceObject) : bool := initialized_ d.

Definition label_or (unknown : String.string) (label : option String.string)
  : String.string :=
  match label with Some l => l | None => unknown end.

(** The four vectors as the loop of [UpdateAllDeviceIDs] fills them. *)
Record DeviceLists := mkDeviceLists {
  input_ids : list Z;
  input_labels : list String.string;
  output_ids : list Z;
  output_labels : list String.string
}.

Definition push_device (hal : Hal) (l : DeviceLists) (device_id : Z)
  : DeviceLists :=
  let l :=
    if IsInputDevice hal device_id
    then mkDeviceLists
           (input_ids l ++ [device_id])
           (input_labels l ++
            [label_or "Unknown Input Device"%string
                      (GetDeviceLabel hal device_id true)])
           (output_ids l) (output_labels l)
    else l in
  if IsOutputDevice hal device_id
  then mkDeviceLists
         (input_ids l) (input_labels l)
         (output_ids l ++ [device_id])
         (output_labels l ++
          [label_or "Unknown Output Device"%string
                    (GetDeviceLabel hal device_id false)])
  else l.

Definition UpdateAllDeviceIDs (hal : Hal) (d : DeviceObject) : DeviceObject :=
  let all_device_ids := GetAllAudioDeviceIDs hal (hal_calls d) in
  let l := fold_left (push_device hal) all_device_ids
                     (mkDeviceLists [] [] [] []) in
  mkDeviceObject (initialized_ d) (input_ids l) (output_ids l)
    (input_labels l) (output_labels l) (hal_calls d) (members d).

Definition add_listener (hal : Hal) (selector : ListenerSelector)
  (d : DeviceObject) : Z * DeviceObject :=
  let err := AudioObjectAddPropertyListener hal selector (hal_calls d) in
  (err, hal_call (HalAddPropertyListener selector err) d).

Definition remove_listener (hal : Hal) (selector : ListenerSelector)
  (d : DeviceObject) : Z * DeviceObject :=
  let err := AudioObjectRemovePropertyListener hal selector (hal_calls d) in
  (err, hal_call (HalRemovePropertyListener selector err) d).

Definition Init (pf : Platform) (hal : Hal) (d : DeviceObject)
  : Z * DeviceObject :=
  if initialized_ d then (0, d)
  else if TARGET_OS_OSX pf then
    let err := AudioObjectSetPropertyData hal (hal_calls d) in
    let d := hal_call (HalSetRunLoop err) d in
    if negb (err =? noErr) then (-1, d)
    else
      let '(err, d) := add_listener hal kAudioHardwarePropertyDevices d in
      if negb (err =? noErr) then (-1, d)
      else
        let '(err, d) :=
          add_listener hal
            (kAudioHardwarePropertyDefault
               kAudioHardwarePropertyDefaultOutputDevice) d in
        if negb (err =? noErr) then (-1, d)
        else
          let '(err, d) :=
            add_listener hal
              (kAudioHardwarePropertyDefault
                 kAudioHardwarePropertyDefaultInputDevice) d in
          if negb (err =? noErr) then (-1, d)
          else
            let d := UpdateAllDeviceIDs hal d in
            (0, set_initialized_ true d)
  else (0, set_initialized_ true d).

(** The end of [Terminate]: both sides are stopped, the results are not
    looked at. *)
Definition stop_both (pf : Platform) (d : DeviceObject) : Z * DeviceObject :=
  let w1 := snd (StopPlayout pf (members d)) in
  let w2 := snd (StopRecording pf w1) in
  (0, set_initialized_ false (set_members w2 d)).

Definition Terminate (pf : Platform) (hal : Hal) (d : DeviceObject)
  : Z * DeviceObject :=
  if negb (initialized_ d) then (0, d)
  else if TARGET_OS_OSX pf then
    let '(err, d) := remove_listener hal kAudioHardwarePropertyDevices d in
    if negb (err =? noErr) then (-1, d)
    else
      let '(err, d) :=
        remove_listener hal
          (kAudioHardwarePropertyDefault
             kAudioHardwarePropertyDefaultOutputDevice) d in
      if negb (err =? noErr) then (-1, d)
      else
        let '(err, d) :=
          remove_listener hal
            (kAudioHardwarePropertyDefault
               kAudioHardwarePropertyDefaultInputDevice) d in
        if negb (err =? noErr) then (-1, d)
        else stop_both pf d
  else stop_both pf d.

(** [SetPlayoutDevice(uint16_t index)] and [SetRecordingDevice]: index 0
    is the default device, index [i] the entry [i - 1] of the list. *)
Definition SetPlayoutDevice (pf : Platform) (index : nat) (d : DeviceObject)
  : Z * DeviceObject :=
  if TARGET_OS_OSX pf then
    if (length (output_device_ids_ d) <? index)%nat then (-1, d)
    else
      let output_device_id :=
        if (index =? 0)%nat then kAudioObjectUnknown
        else nth (index - 1) (output_device_ids_ d) 0 in
      let '(result, w) :=
        ModifyEngineState pf (set_output_device_id output_device_id)
                          (members d) in
      (result, set_members w d)
  else (0, d).

Definition SetRecordingDevice (pf : Platform) (index : nat) (d : DeviceObject)
  : Z * DeviceObject :=
  if TARGET_OS_OSX pf then
    if (length (input_device_ids_ d) <? index)%nat then (-1, d)
    else
      let input_device_id :=
        if (index =? 0)%nat then kAudioObjectUnknown
        else nth (index - 1) (input_device_ids_ d) 0 in
      let '(result, w) :=
        ModifyEngineState pf (set_input_device_id input_device_id)
                          (members d) in
      (result, set_members w d)
  else (0, d).

(** [PlayoutDevices] and [RecordingDevices], before the conversion to
    [int16_t]. *)
Definition PlayoutDevices (pf : Platform) (d : DeviceObject) : nat :=
  if TARGET_OS_OSX pf then (length (output_device_ids_ d) + 1)%nat else 1%nat.

Definition RecordingDevices (pf : Platform) (d : DeviceObject) : nat :=
  if TARGET_OS_OSX pf then (length (input_device_ids_ d) + 1)%nat else 1%nat.

Definition is_remove_call (c : HalCall) : bool :=
  match c with HalRemovePropertyListener _ _ => true | _ => false end.

(** A new object, not initialised. *)
Definition new_DeviceObject : DeviceObject :=
  mkDeviceObject false [] [] [] [] [] initial_World.

(** A HAL with three devices, on which every call succeeds. *)
Definition three_devices : Hal := {|
  AudioObjectSetPropertyData := fun _ => noErr;
  AudioObjectAddPropertyListener := fun _ _ => noErr;
  AudioObjectRemovePropertyListener := fun _ _ => noErr;
  GetAllAudioDeviceIDs := fun _ => [41; 42; 43];
  IsInputDevice := fun id => id <? 43;
  IsOutputDevice := fun id => 41 <? id;
  GetDeviceLabel := fun _ _ => None
|}.

(** ** Where the buffer flags can go

    A flag of the buffer after a step is the flag before, or the one the
    applier's target asks for. *)
Definition toward (out inp : bool) (w w' : World) : Prop :=
  (IsPlaying w' = IsPlaying w \/ IsPlaying w' = out) /\
  (IsRecording w' = IsRecording w \/ IsRecording w' = inp).

(** ** The start loop inside the applier *)








(** * Properties *)

(** ** The value type *)

Lemma RenderMode_eqb_eq a b : RenderMode_eqb a b = true <-> a = b.
Proof. destruct a, b; simpl; split; congruence. Qed.

Lemma MuteMode_eqb_eq a b : MuteMode_eqb a b = true <-> a = b.
Proof. destruct a, b; simpl; split; congruence. Qed.

Lemma EngineState_eqb_refl s : EngineState_eqb s s = true.
Proof.
  unfold EngineState_eqb.
  rewrite !Bool.eqb_reflx, !Z.eqb_refl.
  destruct (render_mode s), (mute_mode s); reflexivity.
Qed.

(** [operator==] compares all nineteen fields: it is equality. *)
Lemma EngineState_eqb_eq a b : EngineState_eqb a b = true <-> a = b.
Proof.
  split; [| intros ->; apply EngineState_eqb_refl].
  unfold EngineState_eqb. intros H.
  repeat (apply andb_prop in H; destruct H as [H ?]).
  repeat match goal with
         | E : Bool.eqb _ _ = true |- _ => apply Bool.eqb_prop in E
         | E : (_ =? _) = true |- _ => apply Z.eqb_eq in E
         | E : RenderMode_eqb _ _ = true |- _ => apply RenderMode_eqb_eq in E
         | E : MuteMode_eqb _ _ = true |- _ => apply MuteMode_eqb_eq in E
         end.
  destruct a, b; simpl in *. subst. reflexivity.
Qed.

Lemma HasNoChanges_iff u : HasNoChanges u = true <-> prev u = next u.
Proof. apply EngineState_eqb_eq. Qed.

(** C3. The derived predicates of [EngineState] are these functions of the
    fields: output and input are linked when input-follow mode and voice
    processing are both on; input is enabled unless it is muted in
    RestartEngine mute mode, and then when it is enabled or in persistent
    mode; output is enabled when [output_enabled] is set, or, if linked,
    when input is enabled.  They are computed from the record at every
    call, so two states that agree on the fields read agree on them. *)
Theorem derived_predicates_of_fields (S : EngineState) :
  (IsOutputInputLinked S = true <->
     input_follow_mode S = true /\ voice_processing_enabled S = true) /\
  (IsInputEnabled S = true <->
     ~ (mute_mode S = RestartEngine /\ input_muted S = true) /\
     (input_enabled S = true \/ input_enabled_persistent_mode S = true)) /\
  (IsOutputEnabled S = true <->
     if IsOutputInputLinked S
     then IsInputEnabled S = true \/ output_enabled S = true
     else output_enabled S = true) /\
  (forall S' : EngineState,
     input_follow_mode S' = input_follow_mode S ->
     voice_processing_enabled S' = voice_processing_enabled S ->
     mute_mode S' = mute_mode S ->
     input_muted S' = input_muted S ->
     input_enabled S' = input_enabled S ->
     input_enabled_persistent_mode S' = input_enabled_persistent_mode S ->
     output_enabled S' = output_enabled S ->
     IsOutputInputLinked S' = IsOutputInputLinked S /\
     IsInputEnabled S' = IsInputEnabled S /\
     IsOutputEnabled S' = IsOutputEnabled S).
Proof.
  split; [| split; [| split]].
  - unfold IsOutputInputLinked. apply andb_true_iff.
  - unfold IsInputEnabled.
    rewrite andb_true_iff, negb_true_iff, orb_true_iff, andb_false_iff.
    rewrite <- MuteMode_eqb_eq.
    destruct (MuteMode_eqb (mute_mode S) RestartEngine), (input_muted S);
      intuition congruence.
  - unfold IsOutputEnabled.
    destruct (IsOutputInputLinked S); [apply orb_true_iff | reflexivity].
  - intros S' H1 H2 H3 H4 H5 H6 H7.
    unfold IsOutputEnabled, IsOutputInputLinked, IsInputEnabled.
    rewrite H1, H2, H3, H4, H5, H6, H7. auto.
Qed.

Lemma derived_predicates_of_fields_witness :
  IsOutputInputLinked (set_is_interrupted true (InitRecording_transform default_EngineState))
    = IsOutputInputLinked (InitRecording_transform default_EngineState) /\
  IsInputEnabled (set_is_interrupted true (InitRecording_transform default_EngineState))
    = IsInputEnabled (InitRecording_transform default_EngineState) /\
  IsOutputEnabled (set_is_interrupted true (InitRecording_transform default_EngineState))
    = IsOutputEnabled (InitRecording_transform default_EngineState).
Proof.
  destruct (derived_predicates_of_fields
              (InitRecording_transform default_EngineState))
    as (_ & _ & _ & H).
  apply (H (set_is_interrupted true (InitRecording_transform default_EngineState)));
    reflexivity.
Defined.

(** C5. A diff requires the engine object to be recreated exactly when the
    output or the input device id changed, or a default-device counter
    changed while the next selection on that side is the default device, or
    output stays enabled while input goes from enabled to disabled. *)
Theorem IsEngineRecreateRequired_iff (u : EngineStateUpdate) :
  IsEngineRecreateRequired u = true <->
  output_device_id (prev u) <> output_device_id (next u) \/
  input_device_id (prev u) <> input_device_id (next u) \/
  (default_output_device_update_count (prev u) <>
     default_output_device_update_count (next u) /\
   IsOutputDefaultDevice (next u) = true) \/
  (default_input_device_update_count (prev u) <>
     default_input_device_update_count (next u) /\
   IsInputDefaultDevice (next u) = true) \/
  (IsOutputEnabled (prev u) = true /\ IsOutputEnabled (next u) = true /\
   IsInputEnabled (prev u) = true /\ IsInputEnabled (next u) = false).
Proof.
  unfold IsEngineRecreateRequired, DidUpdateOutputDevice, DidUpdateInputDevice,
    DidUpdateDefaultOutputDevice, DidUpdateDefaultInputDevice.
  cbv zeta.
  rewrite !orb_true_iff, !andb_true_iff, !negb_true_iff, !Z.eqb_neq.
  tauto.
Qed.

Lemma IsEngineRecreateRequired_iff_witness :
  IsEngineRecreateRequired
    (mkUpdate (InitPlayout_transform default_EngineState)
              (default_output_update_transform
                 (InitPlayout_transform default_EngineState))) = true.
Proof.
  apply (IsEngineRecreateRequired_iff
           (mkUpdate (InitPlayout_transform default_EngineState)
                     (default_output_update_transform
                        (InitPlayout_transform default_EngineState)))).
  right. right. left. split.
  - vm_compute. discriminate.
  - reflexivity.
Defined.

(** Selecting the default device is the sentinel check on the id. *)
Lemma IsOutputDefaultDevice_iff s :
  IsOutputDefaultDevice s = true <-> output_device_id s = kAudioObjectUnknown.
Proof. apply Z.eqb_eq. Qed.

Lemma IsInputDefaultDevice_iff s :
  IsInputDefaultDevice s = true <-> input_device_id s = kAudioObjectUnknown.
Proof. apply Z.eqb_eq. Qed.

(** ** The driver: early returns *)

(** C6. When the transform yields a state field-wise equal to the committed
    one, [ModifyEngineState] returns 0 and the whole object is as before:
    no applier and no observer call (the trace is unchanged), the buffer
    flags and the engine objects are kept.  Applying the committed state to
    itself is such a call. *)
Theorem ModifyEngineState_no_changes (pf : Platform)
  (state_transform : EngineState -> EngineState) (w : World) :
  (HasNoChanges (mkUpdate (engine_state_ w) (state_transform (engine_state_ w)))
     = true ->
   ModifyEngineState pf state_transform w = (0, w)) /\
  SetEngineState pf (engine_state_ w) w = (0, w).
Proof.
  split.
  - intros H. unfold ModifyEngineState, ModifyEngineStateWith. cbv zeta.
    rewrite H. reflexivity.
  - unfold SetEngineState, ModifyEngineState, ModifyEngineStateWith,
      SetEngineState_transform, HasNoChanges. cbv zeta. simpl.
    rewrite EngineState_eqb_refl. reflexivity.
Qed.

Lemma ModifyEngineState_no_changes_witness :
  ModifyEngineState desktop InitPlayout_transform (playout_ready rejects_did_disable)
    = (0, playout_ready rejects_did_disable) /\
  SetEngineState desktop (engine_state_ (playout_ready rejects_did_disable))
                 (playout_ready rejects_did_disable)
    = (0, playout_ready rejects_did_disable).
Proof.
  destruct (ModifyEngineState_no_changes desktop InitPlayout_transform
              (playout_ready rejects_did_disable)) as [H1 H2].
  split; [apply H1; vm_compute; reflexivity | exact H2].
Defined.

(** C4. When the transformed state differs from the committed one and is
    running without being enabled on the input or on the output side,
    [ModifyEngineState] returns -1 before any applier runs, and the whole
    object is as before: committed state, buffer flags, engine objects and
    trace (so no observer call). *)
Theorem ModifyEngineState_rejects_running_without_enabled (pf : Platform)
  (state_transform : EngineState -> EngineState) (w : World) :
  let new_state := state_transform (engine_state_ w) in
  HasNoChanges (mkUpdate (engine_state_ w) new_state) = false ->
  (input_running new_state = true /\ input_enabled new_state = false) \/
  (output_running new_state = true /\ output_enabled new_state = false) ->
  ModifyEngineState pf state_transform w = (-1, w) /\ -1 <> 0.
Proof.
  intros new_state Hchg Hbad. split; [| discriminate].
  unfold ModifyEngineState, ModifyEngineStateWith. cbv zeta.
  fold new_state. rewrite Hchg.
  destruct Hbad as [[H1 H2] | [H1 H2]]; rewrite H1, H2; simpl.
  - reflexivity.
  - destruct (input_running new_state && negb (input_enabled new_state));
      reflexivity.
Qed.

Lemma ModifyEngineState_rejects_running_without_enabled_witness :
  ModifyEngineState desktop StartRecording_transform initial_World
    = (-1, initial_World) /\ -1 <> 0.
Proof.
  apply (ModifyEngineState_rejects_running_without_enabled
           desktop StartRecording_transform initial_World).
  - vm_compute. reflexivity.
  - left. split; vm_compute; reflexivity.
Defined.

(** ** The driver: dispatch on a render-mode switch *)

Lemma render_mode_switch_exclusive state :
  DidEnableDeviceRenderingMode state = true ->
  DidEnableManualRenderingMode state = false.
Proof.
  unfold DidEnableDeviceRenderingMode, DidEnableManualRenderingMode.
  destruct (render_mode (prev state)), (render_mode (next state)); simpl;
    congruence.
Qed.

(** On a render-mode switch the shutdown applier is handed
    [prev = current, next = default]; the startup applier is handed the
    diff itself, [prev = current, next = requested]. *)
Lemma dispatch_render_mode_switch
  (ApplyDevice ApplyManual : EngineStateUpdate -> World -> Z * World)
  (state : EngineStateUpdate) (w : World) :
  (DidEnableManualRenderingMode state = true ->
   dispatch ApplyDevice ApplyManual state w =
     let '(shutdown_result, w1) :=
       ApplyDevice (mkUpdate (prev state) default_EngineState) w in
     let '(startup_result, w2) :=
       ApplyManual (mkUpdate (prev state) (next state)) w1 in
     (shutdown_result, startup_result, w2)) /\
  (DidEnableDeviceRenderingMode state = true ->
   dispatch ApplyDevice ApplyManual state w =
     let '(shutdown_result, w1) :=
       ApplyManual (mkUpdate (prev state) default_EngineState) w in
     let '(startup_result, w2) :=
       ApplyDevice (mkUpdate (prev state) (next state)) w1 in
     (shutdown_result, startup_result, w2)).
Proof.
  split; intros H; unfold dispatch.
  - rewrite H. destruct state; reflexivity.
  - rewrite (render_mode_switch_exclusive _ H), H. destruct state; reflexivity.
Qed.

(** C1. Switching a recording engine to manual rendering
    ([SetManualRenderingMode(true)] after [InitAndStartRecording]): the
    device-mode applier is called first with [next] the default state, but
    the manual-mode applier is then called with [prev] the committed state,
    which is not the default state.  With the appliers of the source the call
    returns 0 and commits manual mode, yet no manual engine and no render
    thread exist afterwards; with the diff [prev = default, next = requested]
    the manual engine is created.  The switch back
    ([SetManualRenderingMode(false)] on a manual engine that records) is the
    mirror image: the device-mode applier is called with [prev] the
    committed state, and no device engine exists afterwards. *)
Theorem manual_switch_startup_sees_committed_prev :
  let w := recording_started in
  let state :=
    mkUpdate (engine_state_ w)
             (SetManualRenderingMode_transform true (engine_state_ w)) in
  let w_m := manual_recording_started in
  let state_m :=
    mkUpdate (engine_state_ w_m)
             (SetManualRenderingMode_transform false (engine_state_ w_m)) in
  (DidEnableManualRenderingMode state = true /\
   prev state <> default_EngineState /\
   (forall ApplyDevice ApplyManual,
      dispatch ApplyDevice ApplyManual state w =
        let '(shutdown_result, w1) :=
          ApplyDevice (mkUpdate (prev state) default_EngineState) w in
        let '(startup_result, w2) :=
          ApplyManual (mkUpdate (prev state) (next state)) w1 in
        (shutdown_result, startup_result, w2)) /\
   fst (SetManualRenderingMode desktop true w) = 0 /\
   render_mode (engine_state_ (snd (SetManualRenderingMode desktop true w)))
     = Manual /\
   IsAnyRunning (engine_state_ (snd (SetManualRenderingMode desktop true w)))
     = true /\
   engine_manual_input_ (snd (SetManualRenderingMode desktop true w)) = None /\
   render_thread_ (snd (SetManualRenderingMode desktop true w)) = None /\
   isSome (engine_manual_input_
             (snd (dispatch_as_specified (ApplyDeviceEngineState desktop)
                                         (ApplyManualEngineState desktop)
                                         state w))) = true) /\
  (DidEnableDeviceRenderingMode state_m = true /\
   prev state_m <> default_EngineState /\
   (forall ApplyDevice ApplyManual,
      dispatch ApplyDevice ApplyManual state_m w_m =
        let '(shutdown_result, w1) :=
          ApplyManual (mkUpdate (prev state_m) default_EngineState) w_m in
        let '(startup_result, w2) :=
          ApplyDevice (mkUpdate (prev state_m) (next state_m)) w1 in
        (shutdown_result, startup_result, w2)) /\
   fst (SetManualRenderingMode desktop false w_m) = 0 /\
   render_mode (engine_state_ (snd (SetManualRenderingMode desktop false w_m)))
     = Device /\
   IsAnyRunning (engine_state_ (snd (SetManualRenderingMode desktop false w_m)))
     = true /\
   engine_device_ (snd (SetManualRenderingMode desktop false w_m)) = None /\
   isSome (engine_device_
             (snd (dispatch_as_specified (ApplyDeviceEngineState desktop)
                                         (ApplyManualEngineState desktop)
                                         state_m w_m))) = true).
Proof.
  cbv zeta. split.
  - split; [vm_compute; reflexivity |].
    split; [intros H; apply (f_equal input_enabled) in H; vm_compute in H;
            discriminate |].
    split; [intros AD AM; apply dispatch_render_mode_switch; vm_compute;
            reflexivity |].
    repeat split; vm_compute; reflexivity.
  - split; [vm_compute; reflexivity |].
    split; [intros H; apply (f_equal input_enabled) in H; vm_compute in H;
            discriminate |].
    split; [intros AD AM; apply dispatch_render_mode_switch; vm_compute;
            reflexivity |].
    repeat split; vm_compute; reflexivity.
Qed.

(** ** What an applier may do: the rules *)

Lemma first_failure_app evs1 evs2 :
  first_failure (evs1 ++ evs2) =
  match first_failure evs1 with
  | Some r => Some r
  | None => first_failure evs2
  end.
Proof.
  induction evs1 as [| e evs1 IH]; simpl; [reflexivity |].
  destruct e; auto.
  destruct (result =? 0); auto.
Qed.

Lemma spec_ret {A} d (Q : A -> Prop) a : Q a -> spec d Q (ret a).
Proof.
  intros HQ w. exists []. simpl. rewrite app_nil_r. auto.
Qed.

Lemma spec_ret_any {A} d (a : A) : spec d any (ret a).
Proof. apply spec_ret. exact I. Qed.

Lemma spec_bind {A B} d (Q : A -> Prop) (R : B -> Prop) (c : M A) (k : A -> M B) :
  spec d Q c -> (forall a, Q a -> spec d R (k a)) -> spec d R (bind c k).
Proof.
  intros Hc Hk w. unfold bind.
  destruct (Hc w) as (evs1 & Ht1 & He1 & H1).
  destruct (c w) as [[r | a] w1]; simpl in *.
  - exists evs1. auto.
  - destruct H1 as [Hf1 HQ].
    destruct (Hk a HQ w1) as (evs2 & Ht2 & He2 & H2).
    exists (evs1 ++ evs2).
    rewrite Ht2, Ht1, app_assoc, He2, He1.
    split; [reflexivity |]. split; [reflexivity |].
    rewrite first_failure_app, Hf1. exact H2.
Qed.

Lemma spec_get {A} d (f : World -> A) : spec d any (get f).
Proof. intros w. exists []. simpl. rewrite app_nil_r. unfold any. auto. Qed.

Lemma spec_ask {A} d (q : Trace -> A) : spec d any (ask q).
Proof. intros w. exists []. simpl. rewrite app_nil_r. unfold any. auto. Qed.

Lemma spec_modify d (f : World -> World) : frame f -> spec d any (modify f).
Proof.
  intros Hf w. exists []. simpl. rewrite app_nil_r.
  destruct (Hf w). unfold any. auto.
Qed.

Lemma trace_set_trace v w : trace (set_trace v w) = v.
Proof. destruct w; reflexivity. Qed.

Lemma trace_set_trace_indep v w : trace (set_engine_state_ v w) = trace w.
Proof. destruct w; reflexivity. Qed.

Lemma engine_state_set_engine_state_ v w :
  engine_state_ (set_engine_state_ v w) = v.
Proof. destruct w; reflexivity. Qed.

Lemma engine_state_set_trace v w :
  engine_state_ (set_trace v w) = engine_state_ w.
Proof. destruct w; reflexivity. Qed.

Lemma spec_emit d (e : Event) : is_observer_call e = false -> spec d any (emit e).
Proof.
  intros He w. exists [e]. unfold emit, modify. simpl.
  rewrite trace_set_trace, engine_state_set_trace.
  split; [reflexivity |]. split; [reflexivity |].
  split; [| exact I].
  destruct e; simpl in *; congruence.
Qed.

Lemma spec_when d (b : bool) (c : M unit) :
  spec d any c -> spec d any (when b c).
Proof. intros H. destruct b; [exact H | apply spec_ret_any]. Qed.

Lemma frame_fold (actions : list (World -> World)) :
  Forall frame actions ->
  frame (fun w => fold_left (fun w1 action => action w1) actions w).
Proof.
  induction 1 as [| f fs Hf _ IH]; intros w; simpl; [auto |].
  destruct (IH (f w)) as [-> ->]. apply Hf.
Qed.

Lemma spec_rollback {A} (Q : A -> Prop) rollback_actions r :
  Forall frame rollback_actions -> r <> 0 ->
  spec true Q (rollback rollback_actions r).
Proof.
  intros Hf Hr w. exists []. unfold rollback. simpl. rewrite app_nil_r.
  destruct (frame_fold _ Hf w) as [-> ->].
  split; [reflexivity |]. split; [reflexivity |]. split; [exact Hr |].
  right. split; reflexivity.
Qed.

Lemma returns_result_exit_with : returns_result exit_with.
Proof. intros r w. exists w. auto. Qed.

Lemma returns_result_rollback rollback_actions :
  Forall frame rollback_actions -> returns_result (rollback rollback_actions).
Proof.
  intros Hf r w. eexists. split; [reflexivity |]. apply (frame_fold _ Hf w).
Qed.

Lemma spec_notify d cb on_error :
  returns_result on_error -> spec d any (notify cb on_error).
Proof.
  intros Hon w. unfold notify, bind, get, ask, emit, modify. simpl.
  destruct (observer_ w) as [obs |] eqn:Hobs; simpl.
  - destruct (obs cb (trace w) =? 0) eqn:Hr; simpl.
    + exists [EvObserver cb (obs cb (trace w))].
      rewrite trace_set_trace, engine_state_set_trace. simpl. rewrite Hr.
      unfold any. auto.
    + destruct (Hon (obs cb (trace w))
                    (set_trace (trace w ++ [EvObserver cb (obs cb (trace w))]) w))
        as (w' & -> & Ht & He).
      exists [EvObserver cb (obs cb (trace w))]. simpl.
      rewrite Ht, He, trace_set_trace, engine_state_set_trace, Hr.
      apply Z.eqb_neq in Hr. auto.
  - exists []. rewrite app_nil_r. unfold any. auto.
Qed.

Lemma spec_alloc d k : spec d any (alloc k).
Proof.
  unfold alloc.
  eapply spec_bind; [apply spec_get | intros o _].
  eapply spec_bind; [apply spec_emit; reflexivity | intros _ _].
  apply spec_ret_any.
Qed.

Lemma spec_mono {A} d1 d2 (Q : A -> Prop) (c : M A) :
  spec d1 Q c -> (d1 = true -> d2 = true) -> spec d2 Q c.
Proof.
  intros Hc Hd w. destruct (Hc w) as (evs & Ht & He & H).
  exists evs. split; [exact Ht |]. split; [exact He |].
  destruct (fst (c w)); [| exact H].
  destruct H as [Hr [H | [H1 H2]]]; auto.
Qed.

Ltac frame_tac :=
  let w := fresh "w" in intros w; destruct w; split; reflexivity.

Ltac spec_prim :=
  match goal with
  | |- spec _ _ (bind _ _) => eapply spec_bind; [| intros ? ?]
  | |- spec _ _ (ret _) => apply spec_ret_any
  | |- spec _ _ (get _) => apply spec_get
  | |- spec _ _ (ask _) => apply spec_ask
  | |- spec _ _ (emit _) => apply spec_emit; reflexivity
  | |- spec _ _ (modify _) => apply spec_modify; frame_tac
  | |- spec _ _ (alloc _) => apply spec_alloc
  | |- spec _ _ (when _ _) => apply spec_when
  | |- spec _ _ (notify _ _) =>
      apply spec_notify;
      first [apply returns_result_exit_with
            | apply returns_result_rollback; assumption]
  | |- spec _ _ (match ?o with Some _ => _ | None => _ end) => destruct o
  | |- spec _ _ (if ?b then _ else _) => destruct b
  end.

Ltac spec_prims := repeat spec_prim.


(** *** The start loop *)

(** The loop as a [while]: test, one attempt, and again. *)
Lemma start_loop_unfold_while pf start_retry_count :
  start_loop pf start_retry_count =
  if (start_retry_count <? kStartEngineMaxRetries)%nat then
    start_result <- start_attempt pf start_retry_count ;;
    if start_result then ret true else start_loop pf (S start_retry_count)
  else ret false.
Proof.
  rewrite start_loop_equation_1. unfold start_loop_unfold_clause_1.
  destruct (lt_dec start_retry_count kStartEngineMaxRetries) as [Hlt | Hge];
    destruct (Nat.ltb_spec start_retry_count kStartEngineMaxRetries);
    try lia; reflexivity.
Qed.

Lemma spec_start_attempt pf d c : spec d any (start_attempt pf c).
Proof. unfold start_attempt. spec_prims. Qed.

Lemma spec_start_loop pf d c : spec d any (start_loop pf c).
Proof.
  remember (kStartEngineMaxRetries - c)%nat as n eqn:Hn.
  revert c Hn. induction n as [n IH] using lt_wf_ind. intros c Hn.
  rewrite start_loop_unfold_while.
  destruct (Nat.ltb_spec c kStartEngineMaxRetries) as [Hlt | Hge].
  - eapply spec_bind; [apply spec_start_attempt | intros r _].
    destruct r; [apply spec_ret_any |].
    apply (IH (kStartEngineMaxRetries - S c)%nat); [lia | reflexivity].
  - apply spec_ret_any.
Qed.

Lemma spec_detach_if_attached pf d n : spec d any (detach_if_attached pf n).
Proof. unfold detach_if_attached. spec_prims. Qed.

Ltac spec_step :=
  first [ apply spec_detach_if_attached
        | apply spec_start_loop
        | spec_prim ].

Ltac spec_auto := repeat spec_step.

(** *** The steps of the device applier *)

Section DeviceSteps.

Variable pf : Platform.
Variable state : EngineStateUpdate.
Variable rollback_actions : list (World -> World).
Hypothesis rollback_frame : Forall frame rollback_actions.

Lemma spec_step_stop_engine d :
  spec d any (step_stop_engine state rollback_actions).
Proof. unfold step_stop_engine. spec_auto. Qed.

Lemma spec_step_recreate_engine d :
  spec d any (step_recreate_engine state rollback_actions).
Proof. unfold step_recreate_engine. spec_auto. Qed.

Lemma frame_set_engine_device_ v : frame (set_engine_device_ v).
Proof. frame_tac. Qed.

Lemma spec_step_create_engine d :
  spec d (Forall frame) (step_create_engine state rollback_actions).
Proof.
  unfold step_create_engine.
  assert (Hrb : Forall frame (rollback_actions ++ [set_engine_device_ None])).
  { apply Forall_app. split; [assumption |].
    constructor; [apply frame_set_engine_device_ | constructor]. }
  destruct (IsAnyEnabled (next state) &&
            (negb (IsAnyEnabled (prev state)) || IsEngineRecreateRequired state)).
  - eapply spec_bind; [apply spec_alloc | intros e _].
    eapply spec_bind; [apply spec_modify; frame_tac | intros _ _].
    eapply spec_bind;
      [apply spec_notify; apply returns_result_rollback; exact Hrb
      | intros _ _].
    apply spec_ret. exact Hrb.
  - apply spec_ret. assumption.
Qed.

Lemma spec_step_stop_playout_buffer d :
  spec d any (step_stop_playout_buffer state).
Proof. unfold step_stop_playout_buffer, StopPlayoutBuffer. spec_auto. Qed.

Lemma spec_step_stop_recording_buffer d :
  spec d any (step_stop_recording_buffer state).
Proof. unfold step_stop_recording_buffer, StopRecordingBuffer. spec_auto. Qed.

Lemma spec_step_will_enable d :
  spec d any (step_will_enable state rollback_actions).
Proof. unfold step_will_enable. spec_auto. Qed.

Lemma spec_step_configure_voice_processing d :
  spec d any (step_configure_voice_processing pf state).
Proof. unfold step_configure_voice_processing. spec_auto. Qed.

Lemma spec_step_output :
  spec (IsOutputEnabled (next state)) any
       (step_output pf state rollback_actions).
Proof.
  unfold step_output.
  destruct (IsOutputEnabled (next state)); simpl.
  - destruct (negb (IsOutputEnabled (prev state)) ||
              IsEngineRecreateRequired state); [| spec_auto].
    eapply spec_bind; [apply spec_ask | intros fmt _].
    destruct ((sampleRate fmt =? 0) || (channelCount fmt =? 0)).
    + apply spec_rollback; [assumption | discriminate].
    + spec_auto.
  - spec_auto.
Qed.

Lemma spec_step_input :
  spec (IsInputEnabled (next state)) any
       (step_input pf state rollback_actions).
Proof.
  unfold step_input.
  destruct (IsInputEnabled (next state)); simpl.
  - destruct (negb (IsInputEnabled (prev state)) ||
              IsEngineRecreateRequired state); [| spec_auto].
    eapply spec_bind; [apply spec_ask | intros fmt _].
    destruct ((sampleRate fmt =? 0) || (channelCount fmt =? 0)).
    + apply spec_rollback; [assumption | discriminate].
    + spec_auto.
  - spec_auto.
Qed.

Lemma spec_step_did_disable d :
  spec d any (step_did_disable state rollback_actions).
Proof. unfold step_did_disable. spec_auto. Qed.

Lemma spec_step_mute_voice_processing d :
  spec d any (step_mute_voice_processing pf state).
Proof. unfold step_mute_voice_processing. spec_auto. Qed.

Lemma spec_step_mute_input_mixer d :
  spec d any (step_mute_input_mixer pf state).
Proof. unfold step_mute_input_mixer. spec_auto. Qed.

Lemma spec_step_ducking d : spec d any (step_ducking pf state).
Proof. unfold step_ducking. spec_auto. Qed.

Lemma spec_step_bypass d : spec d any (step_bypass pf state).
Proof. unfold step_bypass. spec_auto. Qed.

Lemma spec_step_agc d : spec d any (step_agc pf state).
Proof. unfold step_agc. spec_auto. Qed.

Lemma spec_step_configure_device d :
  spec d any (step_configure_device pf state).
Proof. unfold step_configure_device. spec_auto. Qed.

Lemma spec_step_start_playout_buffer d :
  spec d any (step_start_playout_buffer state).
Proof. unfold step_start_playout_buffer, StartPlayoutBuffer. spec_auto. Qed.

Lemma spec_step_start_recording_buffer d :
  spec d any (step_start_recording_buffer state).
Proof. unfold step_start_recording_buffer, StartRecordingBuffer. spec_auto. Qed.

Lemma spec_step_start_engine d :
  spec d any (step_start_engine pf state rollback_actions).
Proof. unfold step_start_engine, start_engine_with_retries. spec_auto. Qed.

Lemma spec_step_release_engine d :
  spec d any (step_release_engine state rollback_actions).
Proof. unfold step_release_engine. spec_auto. Qed.

End DeviceSteps.

(** *** The appliers *)

Lemma spec_ApplyDeviceEngineState_body pf state :
  spec (IsAnyEnabled (next state)) any (ApplyDeviceEngineState_body pf state).
Proof.
  unfold ApplyDeviceEngineState_body. cbv zeta.
  assert (Hnil : Forall frame (@nil (World -> World))) by constructor.
  eapply spec_bind; [apply spec_step_stop_engine; exact Hnil | intros _ _].
  eapply spec_bind; [apply spec_step_recreate_engine; exact Hnil | intros _ _].
  eapply spec_bind; [apply spec_step_create_engine; exact Hnil | intros rb Hrb].
  eapply spec_bind; [apply spec_step_stop_playout_buffer | intros _ _].
  eapply spec_bind; [apply spec_step_stop_recording_buffer | intros _ _].
  eapply spec_bind; [apply spec_step_will_enable; exact Hrb | intros _ _].
  eapply spec_bind; [apply spec_step_configure_voice_processing | intros _ _].
  eapply spec_bind.
  { eapply spec_mono; [apply spec_step_output; exact Hrb |].
    unfold IsAnyEnabled. intros ->. apply orb_true_r. }
  intros _ _.
  eapply spec_bind.
  { eapply spec_mono; [apply spec_step_input; exact Hrb |].
    unfold IsAnyEnabled. intros ->. reflexivity. }
  intros _ _.
  eapply spec_bind; [apply spec_step_did_disable; exact Hrb | intros _ _].
  eapply spec_bind; [apply spec_step_mute_voice_processing | intros _ _].
  eapply spec_bind; [apply spec_step_mute_input_mixer | intros _ _].
  eapply spec_bind; [apply spec_step_ducking | intros _ _].
  eapply spec_bind; [apply spec_step_bypass | intros _ _].
  eapply spec_bind; [apply spec_step_agc | intros _ _].
  eapply spec_bind; [apply spec_step_configure_device | intros _ _].
  eapply spec_bind; [apply spec_step_start_playout_buffer | intros _ _].
  eapply spec_bind; [apply spec_step_start_recording_buffer | intros _ _].
  eapply spec_bind; [apply spec_step_start_engine; exact Hrb | intros _ _].
  apply spec_step_release_engine; exact Hrb.
Qed.

Lemma spec_ApplyManualEngineState_body pf state :
  spec false any (ApplyManualEngineState_body pf state).
Proof.
  unfold ApplyManualEngineState_body.
  eapply spec_bind; [unfold manual_stop_engine; spec_auto | intros _ _].
  eapply spec_bind; [unfold manual_create_engine; spec_auto | intros _ _].
  eapply spec_bind; [apply spec_step_stop_playout_buffer | intros _ _].
  eapply spec_bind; [apply spec_step_stop_recording_buffer | intros _ _].
  eapply spec_bind; [unfold manual_will_enable; spec_auto | intros _ _].
  eapply spec_bind; [unfold manual_output; spec_auto | intros _ _].
  eapply spec_bind; [unfold manual_input; spec_auto | intros _ _].
  eapply spec_bind; [unfold manual_did_disable; spec_auto | intros _ _].
  eapply spec_bind; [apply spec_step_start_playout_buffer | intros _ _].
  eapply spec_bind; [apply spec_step_start_recording_buffer | intros _ _].
  eapply spec_bind; [unfold manual_start_engine; spec_auto | intros _ _].
  unfold manual_release_engine; spec_auto.
Qed.

Lemma run_applier_result d (c : M unit) w :
  spec d any c -> applier_result d (run c w) w.
Proof.
  intros Hc. destruct (Hc w) as (evs & Ht & He & H).
  exists evs. unfold run. destruct (c w) as [[r | []] w1]; simpl in *.
  - destruct H as [Hr H].
    split; [exact Ht |]. split; [exact He |].
    split; [intros; contradiction | intros _; exact H].
  - destruct H as [H _].
    split; [exact Ht |]. split; [exact He |].
    split; [intros _; exact H | intros N; contradiction N; reflexivity].
Qed.

Lemma ApplyDeviceEngineState_result pf state w :
  applier_result (IsAnyEnabled (next state))
                 (ApplyDeviceEngineState pf state w) w.
Proof. apply run_applier_result, spec_ApplyDeviceEngineState_body. Qed.

Lemma ApplyManualEngineState_result pf state w :
  applier_result false (ApplyManualEngineState pf state w) w.
Proof. apply run_applier_result, spec_ApplyManualEngineState_body. Qed.

(** Two applier calls in a row, as on a render-mode switch: the result is
    the first non-zero one; the shutdown applier has no device error. *)
Lemma applier_result_seq d (r1 r2 : Z * World) (w : World) :
  applier_result false r1 w ->
  applier_result d r2 (snd r1) ->
  applier_result d
    (if negb (fst r1 =? 0) then fst r1 else fst r2, snd r2) w.
Proof.
  intros (evs1 & Ht1 & He1 & Hz1 & Hn1) (evs2 & Ht2 & He2 & Hz2 & Hn2).
  exists (evs1 ++ evs2). simpl.
  rewrite Ht2, Ht1, app_assoc, He2, He1, first_failure_app.
  split; [reflexivity |]. split; [reflexivity |].
  destruct (Z.eqb_spec (fst r1) 0) as [E1 | N1]; simpl.
  - rewrite (Hz1 E1). auto.
  - destruct (Hn1 N1) as [-> | [_ Hd]]; [| discriminate].
    split; [contradiction | auto].
Qed.

Lemma applier_result_mono d1 d2 res w :
  applier_result d1 res w -> (d1 = true -> d2 = true) ->
  applier_result d2 res w.
Proof.
  intros (evs & Ht & He & Hz & Hn) Hd. exists evs.
  split; [exact Ht |]. split; [exact He |]. split; [exact Hz |].
  intros N. destruct (Hn N) as [H | [H1 H2]]; auto.
Qed.

Lemma IsAnyEnabled_default : IsAnyEnabled default_EngineState = false.
Proof. reflexivity. Qed.

(** The dispatch as a whole behaves like one applier call whose result is
    [return_result]. *)
Lemma dispatch_result pf state w :
  applier_result (IsAnyEnabled (next state))
    (let '(shutdown_result, startup_result, w') :=
       dispatch (ApplyDeviceEngineState pf) (ApplyManualEngineState pf) state w in
     (if negb (shutdown_result =? 0) then shutdown_result else startup_result,
      w')) w.
Proof.
  unfold dispatch.
  destruct (DidEnableManualRenderingMode state).
  - cbv zeta.
    pose proof (ApplyDeviceEngineState_result pf
                  (mkUpdate (prev state) default_EngineState) w) as H1.
    simpl in H1.
    destruct (ApplyDeviceEngineState pf _ w) as [r1 w1] eqn:E1.
    pose proof (ApplyManualEngineState_result pf state w1) as H2.
    destruct (ApplyManualEngineState pf state w1) as [r2 w2] eqn:E2.
    apply (applier_result_seq _ (r1, w1) (r2, w2)).
    + exact H1.
    + eapply applier_result_mono; [exact H2 | discriminate].
  - destruct (DidEnableDeviceRenderingMode state).
    + cbv zeta.
      pose proof (ApplyManualEngineState_result pf
                    (mkUpdate (prev state) default_EngineState) w) as H1.
      destruct (ApplyManualEngineState pf _ w) as [r1 w1] eqn:E1.
      pose proof (ApplyDeviceEngineState_result pf state w1) as H2.
      destruct (ApplyDeviceEngineState pf state w1) as [r2 w2] eqn:E2.
      apply (applier_result_seq _ (r1, w1) (r2, w2)); assumption.
    + destruct (RenderMode_eqb (render_mode (next state)) Device).
      * pose proof (ApplyDeviceEngineState_result pf state w) as H1.
        destruct (ApplyDeviceEngineState pf state w) as [r1 w1].
        destruct (Z.eqb_spec r1 0) as [-> | N]; exact H1.
      * destruct (RenderMode_eqb (render_mode (next state)) Manual).
        -- pose proof (ApplyManualEngineState_result pf state w) as H1.
           destruct (ApplyManualEngineState pf state w) as [r1 w1].
           simpl. eapply applier_result_mono; [exact H1 | discriminate].
        -- simpl. exists []. rewrite app_nil_r. simpl.
           repeat split; auto.
Qed.

(** ** The driver as a whole *)

(** [ModifyEngineState] appends to the trace.  It commits the transformed
    state exactly when it returns 0; any other result leaves the committed
    state as it was.  If an observer call of this transition failed, the
    result is that of the first one that failed. *)
Lemma ModifyEngineState_outcome pf state_transform w :
  exists evs,
    trace (snd (ModifyEngineState pf state_transform w)) = trace w ++ evs /\
    (fst (ModifyEngineState pf state_transform w) = 0 ->
     engine_state_ (snd (ModifyEngineState pf state_transform w))
       = state_transform (engine_state_ w) /\
     first_failure evs = None) /\
    (fst (ModifyEngineState pf state_transform w) <> 0 ->
     engine_state_ (snd (ModifyEngineState pf state_transform w))
       = engine_state_ w) /\
    (forall r, first_failure evs = Some r ->
     fst (ModifyEngineState pf state_transform w) = r).
Proof.
  unfold ModifyEngineState, ModifyEngineStateWith. cbv zeta.
  set (old_state := engine_state_ w).
  set (new_state := state_transform old_state).
  destruct (HasNoChanges (mkUpdate old_state new_state)) eqn:Hno.
  { exists []. rewrite app_nil_r. simpl.
    apply HasNoChanges_iff in Hno. simpl in Hno.
    repeat split; auto; discriminate. }
  destruct (input_running new_state && negb (input_enabled new_state)).
  { exists []. rewrite app_nil_r. simpl.
    repeat split; auto; discriminate. }
  destruct (output_running new_state && negb (output_enabled new_state)).
  { exists []. rewrite app_nil_r. simpl.
    repeat split; auto; discriminate. }
  pose proof (dispatch_result pf (mkUpdate old_state new_state) w) as H.
  destruct (dispatch _ _ (mkUpdate old_state new_state) w)
    as [[shutdown_result startup_result] w'].
  set (return_result :=
         if negb (shutdown_result =? 0) then shutdown_result else startup_result)
    in *.
  destruct H as (evs & Ht & He & Hz & Hn). simpl in Ht, He, Hz, Hn.
  exists evs.
  destruct (Z.eqb_spec return_result 0) as [E | N]; simpl.
  - rewrite trace_set_trace_indep. split; [exact Ht |].
    split; [intros _; split; [apply engine_state_set_engine_state_ | auto] |].
    split; [intros N; contradiction |].
    intros r Hr. rewrite (Hz E) in Hr. discriminate.
  - split; [exact Ht |].
    split; [intros E; contradiction |].
    split; [intros _; exact He |].
    intros r Hr. destruct (Hn N) as [H | [H _]]; congruence.
Qed.



(** ** Starting recording unmutes *)

Lemma ModifyEngineState_success_commits pf state_transform w :
  fst (ModifyEngineState pf state_transform w) = 0 ->
  engine_state_ (snd (ModifyEngineState pf state_transform w))
    = state_transform (engine_state_ w).
Proof.
  intros H.
  destruct (ModifyEngineState_outcome pf state_transform w)
    as (evs & _ & Hz & _).
  apply Hz, H.
Qed.

Lemma input_muted_set_input_muted v s : input_muted (set_input_muted v s) = v.
Proof. destruct s; reflexivity. Qed.

(** C10. [StartRecording] and [InitAndStartRecording] clear the mute flag
    in the state they request; when either returns 0 the committed state
    has [input_muted = false], whatever it was before. *)
Theorem start_recording_unmutes (pf : Platform) (w : World) :
  (fst (StartRecording pf w) = 0 ->
   input_muted (engine_state_ (snd (StartRecording pf w))) = false) /\
  (fst (InitAndStartRecording pf w) = 0 ->
   input_muted (engine_state_ (snd (InitAndStartRecording pf w))) = false).
Proof.
  unfold StartRecording, InitAndStartRecording.
  split; intros H; rewrite (ModifyEngineState_success_commits _ _ _ H);
    apply input_muted_set_input_muted.
Qed.

Lemma start_recording_unmutes_witness :
  input_muted (engine_state_ initial_World) = true /\
  input_muted
    (engine_state_
       (snd (StartRecording desktop (snd (InitRecording desktop initial_World)))))
    = false /\
  input_muted (engine_state_ (snd (InitAndStartRecording desktop initial_World)))
    = false.
Proof.
  split; [reflexivity |]. split.
  - apply (start_recording_unmutes desktop
             (snd (InitRecording desktop initial_World))).
    vm_compute. reflexivity.
  - apply (start_recording_unmutes desktop initial_World).
    vm_compute. reflexivity.
Defined.

(** ** The engine start loop *)

Lemma start_attempt_run pf c w :
  exists r,
    fst (start_attempt pf c w) = inr r /\
    trace (snd (start_attempt pf c w)) =
      trace w ++ attempt_events (TARGET_OS_OSX pf) (engine_device_ w) c r /\
    engine_device_ (snd (start_attempt pf c w)) = engine_device_ w.
Proof.
  destruct w.
  unfold start_attempt, attempt_events, bind, when, get, ask, emit, modify, ret.
  simpl.
  destruct (0 <? c)%nat, (TARGET_OS_OSX pf); simpl;
    eexists; (split; [reflexivity |]); (split; [| reflexivity]);
    rewrite <- ?app_assoc; reflexivity.
Qed.

Lemma last_cons_false (results : list bool) :
  last (false :: results) false = last results false.
Proof. destruct results; reflexivity. Qed.

Lemma start_loop_run pf c w :
  (c <= kStartEngineMaxRetries)%nat ->
  exists results,
    trace (snd (start_loop pf c w)) =
      trace w ++ loop_events (TARGET_OS_OSX pf) (engine_device_ w) c results /\
    fst (start_loop pf c w) = inr (last results false) /\
    (length results + c <= kStartEngineMaxRetries)%nat /\
    ((c < kStartEngineMaxRetries)%nat -> (1 <= length results)%nat) /\
    Forall (fun r => r = false) (removelast results) /\
    (last results false = false ->
     (length results + c = kStartEngineMaxRetries)%nat).
Proof.
  remember (kStartEngineMaxRetries - c)%nat as n eqn:Hn.
  revert c w Hn. induction n as [n IH] using lt_wf_ind. intros c w Hn Hc.
  rewrite start_loop_unfold_while.
  destruct (Nat.ltb_spec c kStartEngineMaxRetries) as [Hlt | Hge].
  - unfold bind.
    destruct (start_attempt_run pf c w) as (r & Hr & Ht & He).
    destruct (start_attempt pf c w) as [res w1]. simpl in Hr, Ht, He.
    subst res. destruct r.
    + exists [true]. simpl. rewrite app_nil_r.
      repeat split; auto; try lia; discriminate.
    + destruct (IH (kStartEngineMaxRetries - S c)%nat ltac:(lia) (S c) w1
                   eq_refl ltac:(lia))
        as (results & Ht' & Hf' & Hlen & Hpos & Hall & Hlast).
      exists (false :: results).
      rewrite Ht', Ht, He, Hf', last_cons_false. simpl loop_events.
      rewrite <- app_assoc.
      split; [reflexivity |]. split; [reflexivity |].
      split; [simpl; lia |]. split; [simpl; lia |].
      split.
      * destruct results; [constructor |].
        simpl removelast in *. constructor; [reflexivity | exact Hall].
      * intros H. specialize (Hlast H). simpl. lia.
  - exists []. simpl. rewrite app_nil_r.
    repeat split; auto; try lia; constructor.
Qed.

Lemma start_attempts_app a b :
  start_attempts (a ++ b) = (start_attempts a + start_attempts b)%nat.
Proof.
  induction a as [| e a IH]; simpl; [reflexivity |].
  destruct e; simpl; rewrite IH; reflexivity.
Qed.


Lemma start_attempts_loop_events osx e c results :
  start_attempts (loop_events osx e c results) = length results.
Proof.
  revert c. induction results as [| r rest IH]; intros c; simpl; [reflexivity |].
  unfold attempt_events. rewrite !start_attempts_app, IH.
  destruct (0 <? c)%nat, osx; reflexivity.
Qed.



(** ** The render loop *)

Lemma delivered_frames_app a b :
  delivered_frames (a ++ b) = delivered_frames a + delivered_frames b.
Proof.
  induction a as [| e a IH]; simpl; [reflexivity |].
  destruct e; rewrite IH; lia.
Qed.

Lemma sleeps_app a b : sleeps (a ++ b) = sleeps a ++ sleeps b.
Proof. apply flat_map_app. Qed.

Lemma render_iteration_delivers t st :
  delivered_frames (render_trace (render_iteration t st)) =
  delivered_frames (render_trace st) +
  (if render_success t then frames_per_buffer else 0).
Proof.
  unfold render_iteration.
  destruct (render_success t), (quitting_before_sleep t); simpl;
    try destruct (0 <? _); simpl;
    rewrite ?delivered_frames_app; simpl; lia.
Qed.

Lemma render_iteration_wakeup t st :
  next_wakeup_ms (render_iteration t st) =
  if quitting_before_sleep t then next_wakeup_ms st
  else next_wakeup_ms st + chunk_ms.
Proof.
  unfold render_iteration.
  destruct (quitting_before_sleep t); simpl; [reflexivity |].
  destruct (0 <? _); reflexivity.
Qed.

Lemma render_iteration_sleeps t st :
  sleeps (render_trace (render_iteration t st)) =
  sleeps (render_trace st) ++
  (if quitting_before_sleep t then []
   else let sleep_ms := next_wakeup_ms st + chunk_ms - now_ms t in
        if 0 <? sleep_ms then [sleep_ms] else []).
Proof.
  unfold render_iteration.
  destruct (render_success t), (quitting_before_sleep t); simpl;
    try destruct (0 <? _); simpl;
    rewrite ?sleeps_app; simpl; rewrite ?app_nil_r; reflexivity.
Qed.

Lemma render_loop_running l st :
  next_wakeup_ms (render_loop (map running_tick l) st) =
    next_wakeup_ms st + Z.of_nat (length l) * chunk_ms /\
  delivered_frames (render_trace (render_loop (map running_tick l) st)) =
    delivered_frames (render_trace st) +
    Z.of_nat (successes l) * frames_per_buffer.
Proof.
  revert st. induction l as [| p l IH]; intros st.
  - simpl. split; lia.
  - simpl map. simpl render_loop.
    destruct (IH (render_iteration (running_tick p) st)) as [-> ->].
    rewrite render_iteration_wakeup, render_iteration_delivers.
    unfold successes. destruct p as [[|] now]; simpl fst; simpl filter;
      simpl length; simpl quitting_before_sleep; simpl render_success;
      split; lia.
Qed.

(** C9. The render loop works in chunks of [sample_rate / 100 = 480]
    frames, and [chunk_ms = round (1000 * 480 / 48000) = 10].  A pass
    hands exactly 480 frames to [DeliverRecordedData] when the render block
    succeeds and none otherwise.  Unless the thread is quitting, a pass moves
    the deadline by [chunk_ms] and sleeps for the deadline minus the
    current time when that is positive; so after [n] passes the deadline is
    the start time plus [n * chunk_ms], whatever the clock read in
    between. *)
Theorem render_loop_chunks_and_deadline :
  frames_per_buffer = sample_rate / 100 /\
  frames_per_buffer = 480 /\
  chunk_ms = 10 /\
  1000 * frames_per_buffer = chunk_ms * sample_rate /\
  (forall t st,
     delivered_frames (render_trace (render_iteration t st)) =
     delivered_frames (render_trace st) +
     (if render_success t then frames_per_buffer else 0)) /\
  (forall t st,
     next_wakeup_ms (render_iteration t st) =
     if quitting_before_sleep t then next_wakeup_ms st
     else next_wakeup_ms st + chunk_ms) /\
  (forall t st,
     sleeps (render_trace (render_iteration t st)) =
     sleeps (render_trace st) ++
     (if quitting_before_sleep t then []
      else let sleep_ms := next_wakeup_ms st + chunk_ms - now_ms t in
           if 0 <? sleep_ms then [sleep_ms] else [])) /\
  (forall start_ms l,
     next_wakeup_ms (StartRenderLoop start_ms (map running_tick l)) =
       start_ms + Z.of_nat (length l) * chunk_ms /\
     delivered_frames
       (render_trace (StartRenderLoop start_ms (map running_tick l))) =
       Z.of_nat (successes l) * frames_per_buffer).
Proof.
  split; [reflexivity |]. split; [reflexivity |]. split; [reflexivity |].
  split; [reflexivity |].
  split; [exact render_iteration_delivers |].
  split; [exact render_iteration_wakeup |].
  split; [exact render_iteration_sleeps |].
  intros start_ms l. unfold StartRenderLoop.
  destruct (render_loop_running l (mkRenderLoop start_ms [])) as [-> ->].
  simpl. split; lia.
Qed.

(** ** The debounced default-device update *)


Lemma SetNotAlive_current flags0 :
  SetNotAlive (length flags0) (flags0 ++ [true]) = flags0 ++ [false].
Proof.
  unfold SetNotAlive.
  rewrite firstn_app, Nat.sub_diag, firstn_all, skipn_app, Nat.sub_diag,
    skipn_all.
  simpl. rewrite app_nil_r. reflexivity.
Qed.


Lemma cancelled_in_range flags k :
  cancelled flags k -> (task_safety k < length flags)%nat.
Proof.
  unfold cancelled. intros H.
  destruct (Nat.lt_ge_cases (task_safety k) (length flags)) as [Hlt | Hge];
    [exact Hlt |].
  rewrite nth_overflow in H by exact Hge. discriminate.
Qed.

Lemma cancelled_app flags more k :
  cancelled flags k -> cancelled (flags ++ more) k.
Proof.
  intros H. pose proof (cancelled_in_range _ _ H) as Hlt.
  unfold cancelled in *. rewrite app_nth1 by exact Hlt. exact H.
Qed.

Lemma cancelled_not_alive flags more k :
  cancelled flags k -> alive (task_safety k) (flags ++ more) = false.
Proof.
  intros H. pose proof (cancelled_in_range _ _ H) as Hlt.
  unfold cancelled, alive in *. rewrite app_nth1 by exact Hlt.
  rewrite (nth_indep flags false true Hlt). exact H.
Qed.

Lemma run_cancelled_tasks pf flags more tasks w :
  Forall (cancelled flags) tasks ->
  fold_left (run_task pf (flags ++ more)) tasks w = w.
Proof.
  induction 1 as [| k tasks Hk _ IH]; simpl; [reflexivity |].
  unfold run_task at 2. rewrite (cancelled_not_alive _ _ _ Hk). exact IH.
Qed.


Lemma Forall_filter_keep {A} (P : A -> Prop) (f : A -> bool) l :
  Forall P l -> Forall P (filter f l).
Proof.
  induction 1 as [| x l Hx _ IH]; simpl; [constructor |].
  destruct (f x); [constructor; assumption | assumption].
Qed.

Lemma pending_next pf selector w0 th t :
  pending selector w0 th ->
  t - clock_ms th < kDefaultDeviceUpdateDebounceMs ->
  pending selector w0 (deliver pf th (t, selector)) /\
  clock_ms (deliver pf th (t, selector)) = t.
Proof.
  intros (Hw & flags0 & older & Hfl & Hcur & Hq & Hold) Hgap.
  unfold deliver, advance_to, HandleDeviceListenerEvent. simpl.
  rewrite Hq, Hfl, Hcur, !filter_app. simpl.
  assert (Hlate : (clock_ms th + kDefaultDeviceUpdateDebounceMs <=? t) = false)
    by (apply Z.leb_gt; lia).
  rewrite Hlate. simpl. rewrite app_nil_r.
  rewrite SetNotAlive_current.
  split; [| reflexivity].
  split.
  - rewrite run_cancelled_tasks; [exact Hw |].
    apply Forall_filter_keep. exact Hold.
  - exists (flags0 ++ [false]),
      (filter (fun k => negb (due_ms k <=? t)) older ++
       [mkTask (clock_ms th + kDefaultDeviceUpdateDebounceMs)
               (length flags0) selector]).
    split; [reflexivity |]. split; [reflexivity |]. split; [reflexivity |].
    apply Forall_app. split.
    + apply Forall_filter_keep.
      eapply Forall_impl; [| exact Hold]. intros k. apply cancelled_app.
    + constructor; [| constructor].
      unfold cancelled. simpl. rewrite nth_middle. reflexivity.
Qed.

Lemma last_cons_default {A} (l : list A) (x d : A) :
  last (x :: l) d = last l x.
Proof.
  revert x d. induction l as [| y l IH]; intros x d; [reflexivity |].
  change (last (x :: y :: l) d) with (last (y :: l) d).
  rewrite (IH y d), (IH y x). reflexivity.
Qed.

Lemma pending_burst pf selector w0 times : forall th,
  pending selector w0 th ->
  burst_from (clock_ms th) times ->
  pending selector w0 (deliver_all pf (map (fun t => (t, selector)) times) th) /\
  clock_ms (deliver_all pf (map (fun t => (t, selector)) times) th)
    = last times (clock_ms th).
Proof.
  induction times as [| t rest IH]; intros th Hp Hb.
  - simpl. auto.
  - destruct Hb as (Hle & Hgap & Hrest).
    destruct (pending_next pf selector w0 th t Hp Hgap) as [Hp' Hclk].
    simpl deliver_all. unfold deliver_all in *. simpl fold_left.
    destruct (IH (deliver pf th (t, selector)) Hp') as [Hp'' Hclk''].
    { rewrite Hclk. exact Hrest. }
    split; [exact Hp'' |].
    rewrite Hclk'', Hclk. symmetry. apply last_cons_default.
Qed.




(** * Further properties *)

(** ** The committed state *)

(** X1. Whatever the transform, the observer and the platform do, a
    committed state in which nothing runs without being enabled stays so
    after [ModifyEngineState]. *)
Theorem ModifyEngineState_keeps_running_implies_enabled (pf : Platform)
  (state_transform : EngineState -> EngineState) (w : World) :
  running_implies_enabled (engine_state_ w) ->
  running_implies_enabled
    (engine_state_ (snd (ModifyEngineState pf state_transform w))).
Proof.
  intros Hinv.
  unfold ModifyEngineState, ModifyEngineStateWith. cbv zeta.
  set (old_state := engine_state_ w).
  set (new_state := state_transform old_state).
  destruct (HasNoChanges (mkUpdate old_state new_state)); [exact Hinv |].
  destruct (input_running new_state && negb (input_enabled new_state)) eqn:Hi;
    [exact Hinv |].
  destruct (output_running new_state && negb (output_enabled new_state)) eqn:Ho;
    [exact Hinv |].
  pose proof (dispatch_result pf (mkUpdate old_state new_state) w) as H.
  destruct (dispatch _ _ (mkUpdate old_state new_state) w)
    as [[shutdown_result startup_result] w'].
  destruct H as (evs & _ & He & _). simpl in He.
  destruct (_ =? 0); simpl.
  - rewrite engine_state_set_engine_state_. split; intros H.
    + rewrite H in Hi. simpl in Hi. apply negb_false_iff in Hi. exact Hi.
    + rewrite H in Ho. simpl in Ho. apply negb_false_iff in Ho. exact Ho.
  - rewrite He. exact Hinv.
Qed.

Lemma ModifyEngineState_keeps_running_implies_enabled_witness :
  running_implies_enabled
    (engine_state_ (snd (ModifyEngineState desktop StartRecording_transform
                           initial_World))).
Proof.
  apply (ModifyEngineState_keeps_running_implies_enabled
           desktop StartRecording_transform initial_World).
  split; simpl; discriminate.
Defined.

Lemma ModifyEngineState_unchanged_state pf state_transform w :
  state_transform (engine_state_ w) = engine_state_ w ->
  ModifyEngineState pf state_transform w = (0, w).
Proof.
  intros H. unfold ModifyEngineState, ModifyEngineStateWith, HasNoChanges.
  cbv zeta. simpl. rewrite H, EngineState_eqb_refl. reflexivity.
Qed.

(** X2. A setter whose transform is idempotent can be called again after it
    succeeded: the second call returns 0 and changes nothing at all (no
    applier, no observer call). *)
Theorem ModifyEngineState_repeat_is_no_op (pf : Platform)
  (state_transform : EngineState -> EngineState) (w : World) :
  (forall s, state_transform (state_transform s) = state_transform s) ->
  fst (ModifyEngineState pf state_transform w) = 0 ->
  ModifyEngineState pf state_transform
    (snd (ModifyEngineState pf state_transform w))
  = (0, snd (ModifyEngineState pf state_transform w)).
Proof.
  intros Hidem Hok.
  apply ModifyEngineState_unchanged_state.
  rewrite (ModifyEngineState_success_commits _ _ _ Hok). apply Hidem.
Qed.

Lemma ModifyEngineState_repeat_is_no_op_witness :
  ModifyEngineState desktop InitAndStartRecording_transform
    (snd (ModifyEngineState desktop InitAndStartRecording_transform initial_World))
  = (0, snd (ModifyEngineState desktop InitAndStartRecording_transform
               initial_World)).
Proof.
  apply (ModifyEngineState_repeat_is_no_op desktop
           InitAndStartRecording_transform initial_World).
  - intros []; reflexivity.
  - vm_compute. reflexivity.
Defined.

Lemma ModifyEngineState_rejected pf state_transform w :
  state_transform (engine_state_ w) <> engine_state_ w ->
  (input_running (state_transform (engine_state_ w)) = true /\
   input_enabled (state_transform (engine_state_ w)) = false) \/
  (output_running (state_transform (engine_state_ w)) = true /\
   output_enabled (state_transform (engine_state_ w)) = false) ->
  ModifyEngineState pf state_transform w = (-1, w).
Proof.
  intros Hneq Hbad.
  unfold ModifyEngineState, ModifyEngineStateWith. cbv zeta.
  destruct (HasNoChanges _) eqn:Hno.
  { apply HasNoChanges_iff in Hno. simpl in Hno. congruence. }
  destruct Hbad as [[H1 H2] | [H1 H2]]; rewrite H1, H2; simpl.
  - reflexivity.
  - destruct (input_running _ && negb (input_enabled _)); reflexivity.
Qed.

(** X3. Starting needs initialising first: [StartPlayout] on an engine
    whose playout is neither initialised nor running returns -1 and leaves
    the object untouched, and so does [StartRecording] when recording is
    neither initialised nor running. *)
Theorem start_without_init_is_rejected (pf : Platform) (w : World) :
  (PlayoutIsInitialized w = false -> Playing w = false ->
   StartPlayout pf w = (-1, w)) /\
  (RecordingIsInitialized w = false -> Recording w = false ->
   StartRecording pf w = (-1, w)).
Proof.
  unfold PlayoutIsInitialized, Playing, RecordingIsInitialized, Recording,
    StartPlayout, StartRecording.
  split; intros He Hr; apply ModifyEngineState_rejected.
  - intros H. apply (f_equal output_running) in H.
    destruct (engine_state_ w); simpl in *. congruence.
  - right. destruct (engine_state_ w); simpl in *. auto.
  - intros H. apply (f_equal input_running) in H.
    destruct (engine_state_ w); simpl in *. congruence.
  - left. destruct (engine_state_ w); simpl in *. auto.
Qed.

Lemma start_without_init_is_rejected_witness :
  StartPlayout desktop initial_World = (-1, initial_World) /\
  StartRecording desktop (playout_ready rejects_did_disable)
    = (-1, playout_ready rejects_did_disable).
Proof.
  split.
  - apply (start_without_init_is_rejected desktop initial_World); reflexivity.
  - apply (start_without_init_is_rejected desktop
             (playout_ready rejects_did_disable)); vm_compute; reflexivity.
Defined.

(** ** ReconfigureEngine *)

(** X4. [ReconfigureEngine] does nothing in manual mode.  In device mode
    the committed state it leaves is either the one it found or that state
    with the four enabled and running flags cleared; it is the one it found
    whenever the recovering call returns 0 or the shutdown was rejected, and
    the cleared one exactly when the shutdown succeeded and the recovery
    failed. *)
Theorem ReconfigureEngine_committed_state (pf : Platform) (w : World) :
  (render_mode (engine_state_ w) = Manual -> ReconfigureEngine pf w = w) /\
  (render_mode (engine_state_ w) = Device ->
   let shutdown := ModifyEngineState pf (fun _ => all_off (engine_state_ w)) w in
   let recover :=
     ModifyEngineState pf (fun _ => engine_state_ w) (snd shutdown) in
   engine_state_ (ReconfigureEngine pf w) =
     if negb (fst shutdown =? 0) then engine_state_ w
     else if fst recover =? 0 then engine_state_ w
          else all_off (engine_state_ w)).
Proof.
  unfold ReconfigureEngine. cbv zeta. fold (all_off (engine_state_ w)).
  split; intros Hm; rewrite Hm; [reflexivity |].
  change (negb (RenderMode_eqb Device Device)) with false. cbv iota.
  destruct (ModifyEngineState_outcome pf (fun _ => all_off (engine_state_ w)) w)
    as (evs1 & _ & Hz1 & Hn1 & _).
  destruct (ModifyEngineState pf (fun _ => all_off (engine_state_ w)) w)
    as [r1 w1]. cbn [fst snd] in *.
  destruct (Z.eqb_spec r1 0) as [E1 | N1]; cbn [negb].
  - destruct (ModifyEngineState_outcome pf (fun _ => engine_state_ w) w1)
      as (evs2 & _ & Hz2 & Hn2 & _).
    destruct (ModifyEngineState pf (fun _ => engine_state_ w) w1) as [r2 w2].
    cbn [fst snd] in *.
    destruct (Z.eqb_spec r2 0) as [E2 | N2].
    + apply Hz2, E2.
    + rewrite (Hn2 N2). apply Hz1, E1.
  - apply Hn1, N1.
Qed.

Lemma ReconfigureEngine_committed_state_witness :
  engine_state_ (ReconfigureEngine desktop recording_started)
    = engine_state_ recording_started /\
  ReconfigureEngine desktop manual_recording_started = manual_recording_started.
Proof.
  destruct (ReconfigureEngine_committed_state desktop recording_started)
    as [_ H1].
  destruct (ReconfigureEngine_committed_state desktop manual_recording_started)
    as [H2 _].
  split.
  - etransitivity; [apply H1; vm_compute; reflexivity |].
    vm_compute. reflexivity.
  - apply H2. vm_compute. reflexivity.
Defined.

(** ** Rules for [steps] *)

Section StepRules.

Context {R : World -> World -> Prop} {E : World -> Z -> Prop}
        {P : Event -> Prop} {HR : StepRel R E P}.

Lemma steps_ret {A} (a : A) : steps R E (ret a).
Proof. intros w. split; [apply rel_refl | discriminate]. Qed.

Lemma steps_get {A} (f : World -> A) : steps R E (get f).
Proof. intros w. split; [apply rel_refl | discriminate]. Qed.

Lemma steps_ask {A} (q : Trace -> A) : steps R E (ask q).
Proof. intros w. split; [apply rel_refl | discriminate]. Qed.

Lemma steps_bind {A B} (c : M A) (k : A -> M B) :
  steps R E c -> (forall a, steps R E (k a)) -> steps R E (bind c k).
Proof.
  intros Hc Hk w. unfold bind.
  destruct (Hc w) as [Hr He].
  destruct (c w) as [[r | a] w1]; simpl in *.
  - split; [exact Hr |]. intros r' Hr'. apply He. injection Hr' as ->. reflexivity.
  - destruct (Hk a w1) as [Hr2 He2].
    split; [eapply rel_trans; eassumption |].
    intros r Hx. eapply rel_exit; [exact Hr |]. apply He2, Hx.
Qed.

Lemma steps_modify (f : World -> World) :
  (forall w, R w (f w)) -> steps R E (modify f).
Proof. intros H w. split; [apply H | discriminate]. Qed.

Lemma steps_emit (e : Event) : P e -> steps R E (emit e).
Proof.
  intros He w. split; [apply (rel_emit e w He) | discriminate].
Qed.

Lemma steps_when (b : bool) (c : M unit) :
  steps R E c -> steps R E (when b c).
Proof. intros H. destruct b; [exact H | apply steps_ret]. Qed.

Lemma steps_alloc k : (forall o, P (EvAlloc k o)) -> steps R E (alloc k).
Proof.
  intros HP. unfold alloc.
  apply steps_bind; [apply steps_get | intros o].
  apply steps_bind; [apply steps_emit, HP | intros _].
  apply steps_ret.
Qed.

Lemma steps_notify cb on_error :
  (forall w obs, observer_ w = Some obs ->
     R w (append_event (EvObserver cb (obs cb (trace w))) w)) ->
  (forall w obs, observer_ w = Some obs -> obs cb (trace w) <> 0 ->
     E w (obs cb (trace w))) ->
  returns_within R on_error ->
  steps R E (notify cb on_error).
Proof.
  intros Hemit Herr Hon w.
  unfold notify, bind, get, ask, emit, modify. simpl.
  destruct (observer_ w) as [obs |] eqn:Hobs; simpl.
  - fold (append_event (EvObserver cb (obs cb (trace w))) w).
    destruct (Z.eqb_spec (obs cb (trace w)) 0) as [E0 | N0]; simpl.
    + split; [apply Hemit, Hobs | discriminate].
    + destruct (Hon (obs cb (trace w))
                    (append_event (EvObserver cb (obs cb (trace w))) w))
        as (w' & -> & Hw').
      simpl. split.
      * eapply rel_trans; [apply Hemit, Hobs | exact Hw'].
      * intros r Hr. injection Hr as <-. apply Herr; assumption.
  - split; [apply rel_refl | discriminate].
Qed.

Lemma rollback_within rollback_actions :
  Forall (fun action => forall w, R w (action w)) rollback_actions ->
  forall w, R w (fold_left (fun w1 action => action w1) rollback_actions w).
Proof.
  induction 1 as [| a l Ha _ IH]; intros w; simpl; [apply rel_refl |].
  eapply rel_trans; [apply Ha | apply IH].
Qed.

Lemma returns_within_rollback rollback_actions :
  Forall (fun action => forall w, R w (action w)) rollback_actions ->
  returns_within R (rollback rollback_actions).
Proof.
  intros H r w. eexists. split; [reflexivity |]. apply rollback_within, H.
Qed.

Lemma returns_within_exit_with : returns_within R exit_with.
Proof. intros r w. exists w. split; [reflexivity | apply rel_refl]. Qed.

Lemma steps_rollback {A} rollback_actions r :
  Forall (fun action => forall w, R w (action w)) rollback_actions ->
  (forall w, E w r) ->
  steps R E (@rollback A rollback_actions r).
Proof.
  intros H He w. unfold rollback. simpl. split.
  - apply rollback_within, H.
  - intros r' Hr. injection Hr as <-. apply He.
Qed.

Lemma steps_start_loop pf c :
  (forall e, is_observer_call e = false -> P e) ->
  steps R E (start_loop pf c).
Proof.
  intros HP.
  remember (kStartEngineMaxRetries - c)%nat as n eqn:Hn.
  revert c Hn. induction n as [n IH] using lt_wf_ind. intros c Hn.
  rewrite start_loop_unfold_while.
  destruct (Nat.ltb_spec c kStartEngineMaxRetries) as [Hlt | Hge];
    [| apply steps_ret].
  apply steps_bind.
  - unfold start_attempt.
    apply steps_bind;
      [apply steps_when, steps_emit, HP; reflexivity | intros _].
    apply steps_bind; [apply steps_get | intros e].
    apply steps_bind.
    { apply steps_when. apply steps_bind;
        [apply steps_emit, HP; reflexivity | intros _].
      apply steps_emit, HP; reflexivity. }
    intros _.
    apply steps_bind; [apply steps_ask | intros r].
    apply steps_bind; [apply steps_emit, HP; reflexivity | intros _].
    apply steps_ret.
  - intros r. destruct r; [apply steps_ret |].
    apply (IH (kStartEngineMaxRetries - S c)%nat); [lia | reflexivity].
Qed.

End StepRules.


(** ** Without an observer *)


Ltac world_side :=
  let w := fresh "w" in
  intros w;
  first [ destruct w; reflexivity
        | exists []; destruct w; simpl; rewrite app_nil_r;
          split; [reflexivity | constructor] ].

Ltac steps_prim HR :=
  match goal with
  | |- steps _ _ (bind _ _) => apply (steps_bind (HR := HR)); [| intro]
  | |- steps _ _ (ret _) => apply (steps_ret (HR := HR))
  | |- steps _ _ (get _) => apply (steps_get (HR := HR))
  | |- steps _ _ (ask _) => apply (steps_ask (HR := HR))
  | |- steps _ _ (emit _) =>
      apply (steps_emit (HR := HR)); first [exact I | reflexivity]
  | |- steps _ _ (modify _) => apply steps_modify; world_side
  | |- steps _ _ (alloc _) =>
      apply (steps_alloc (HR := HR)); intro; first [exact I | reflexivity]
  | |- steps _ _ (when _ _) => apply (steps_when (HR := HR))
  | |- steps _ _ (start_loop _ _) =>
      apply (steps_start_loop (HR := HR)); intros; exact I
  | |- steps _ _ (match ?o with Some _ => _ | None => _ end) => destruct o
  | |- steps _ _ (if ?b then _ else _) => destruct b
  end.




Lemma steps_bind_value {R E P} {HR : StepRel R E P} {A B}
  (Q : A -> Prop) (c : M A) (k : A -> M B) :
  steps R E c ->
  (forall w a, fst (c w) = inr a -> Q a) ->
  (forall a, Q a -> steps R E (k a)) ->
  steps R E (bind c k).
Proof.
  intros Hc HQ Hk w. unfold bind.
  destruct (Hc w) as [Hr He]. specialize (HQ w).
  destruct (c w) as [[r | a] w1]; simpl in *.
  - split; [exact Hr |]. intros r' Hr'. apply He.
    injection Hr' as ->. reflexivity.
  - destruct (Hk a (HQ a eq_refl) w1) as [Hr2 He2].
    split; [eapply rel_trans; eassumption |].
    intros r Hx. eapply rel_exit; [exact Hr |]. apply He2, Hx.
Qed.

(** The rollback list after the create step: as before, or with the one
    action that drops the new engine. *)
Lemma step_create_engine_value state rollback_actions w a :
  fst (step_create_engine state rollback_actions w) = inr a ->
  a = rollback_actions \/ a = rollback_actions ++ [set_engine_device_ None].
Proof.
  unfold step_create_engine.
  destruct (_ && _); [| intros [= <-]; left; reflexivity].
  unfold bind, alloc, notify, bind, get, ask, emit, modify, ret. simpl.
  destruct (observer_ _) as [obs |]; simpl.
  - destruct (_ =? 0); simpl; [intros [= <-]; right; reflexivity |].
    unfold rollback. simpl. discriminate.
  - intros [= <-]. right. reflexivity.
Qed.

Ltac unfold_steps :=
  unfold step_stop_engine, step_recreate_engine, step_create_engine,
    step_stop_playout_buffer, step_stop_recording_buffer, step_will_enable,
    step_configure_voice_processing, step_did_disable,
    step_mute_voice_processing, step_mute_input_mixer, step_ducking,
    step_bypass, step_agc, step_configure_device, step_start_playout_buffer,
    step_start_recording_buffer, step_start_engine, start_engine_with_retries,
    step_release_engine, StopPlayoutBuffer, StopRecordingBuffer,
    StartPlayoutBuffer, StartRecordingBuffer, detach_if_attached,
    manual_stop_engine, manual_create_engine, manual_will_enable,
    manual_output, manual_input, manual_did_disable, manual_start_engine,
    manual_release_engine.











(** ** The buffer flags follow the committed state *)

#[global] Instance StepRel_buffer : StepRel same_buffer any_exit any_event.
Proof.
  split.
  - reflexivity.
  - unfold same_buffer. congruence.
  - intros; exact I.
  - intros e w _. destruct w; reflexivity.
Qed.

Ltac buffer_notify :=
  apply (steps_notify (HR := StepRel_buffer));
  [ intros [] ? _; reflexivity
  | intros; exact I
  | first [ apply (returns_within_exit_with (HR := StepRel_buffer))
          | apply (returns_within_rollback (HR := StepRel_buffer));
            assumption ] ].

Ltac buffer_step :=
  match goal with
  | |- steps same_buffer _ (notify _ _) => buffer_notify
  | |- steps same_buffer _ (rollback _ _) =>
      apply (steps_rollback (HR := StepRel_buffer));
      [assumption | intros; exact I]
  | |- steps same_buffer _ _ => steps_prim StepRel_buffer
  end.

Ltac buffer_steps := repeat buffer_step.

Section Triples.

Context {A B : Type}.

Lemma triple_bind (Pre : World -> Prop) (Mid : A -> World -> Prop)
  (Post : B -> World -> Prop) (c : M A) (k : A -> M B) :
  triple Pre c Mid -> (forall a, triple (Mid a) (k a) Post) ->
  triple Pre (bind c k) Post.
Proof.
  intros Hc Hk w Hw. unfold bind. specialize (Hc w Hw).
  destruct (c w) as [[r | a] w1]; [exact I |].
  apply (Hk a w1 Hc).
Qed.

(** A computation within [R] keeps what [R] keeps. *)
Lemma triple_steps (R : World -> World -> Prop) (E : World -> Z -> Prop)
  (Inv : World -> Prop) (c : M A) :
  steps R E c ->
  (forall w w', R w w' -> Inv w -> Inv w') ->
  triple Inv c (fun _ => Inv).
Proof.
  intros Hc Hs w Hw. destruct (Hc w) as [Hr _].
  destruct (c w) as [[r | a] w1]; [exact I |].
  apply (Hs w w1 Hr Hw).
Qed.

Lemma triple_value (V : A -> Prop) (Pre : World -> Prop)
  (Post : World -> Prop) (c : M A) :
  (forall w a, fst (c w) = inr a -> V a) ->
  triple Pre c (fun _ => Post) ->
  triple Pre c (fun a w => V a /\ Post w).
Proof.
  intros HV Hc w Hw. specialize (Hc w Hw). specialize (HV w).
  destruct (c w) as [[r | a] w1]; [exact I |].
  split; [apply HV; reflexivity | exact Hc].
Qed.

Lemma triple_pure (V : Prop) (Pre : World -> Prop) (Post : A -> World -> Prop)
  (c : M A) :
  (V -> triple Pre c Post) -> triple (fun w => V /\ Pre w) c Post.
Proof. intros H w [HV Hw]. apply (H HV w Hw). Qed.

End Triples.

Lemma buffer_stage_same_buffer out inp n w w' :
  same_buffer w w' -> buffer_stage out inp n w -> buffer_stage out inp n w'.
Proof.
  unfold same_buffer, buffer_stage, IsPlaying, IsRecording. intros ->.
  exact (fun H => H).
Qed.

Lemma triple_same_buffer {A} out inp n (c : M A) :
  steps same_buffer any_exit c ->
  triple (buffer_stage out inp n) c (fun _ => buffer_stage out inp n).
Proof.
  intros H. eapply triple_steps; [exact H |].
  intros w w'. apply buffer_stage_same_buffer.
Qed.

Lemma triple_step_stop_playout_buffer state :
  triple (buffer_stage (IsOutputEnabled (next state))
                       (IsInputEnabled (next state)) 0)
         (step_stop_playout_buffer state)
         (fun _ => buffer_stage (IsOutputEnabled (next state))
                                (IsInputEnabled (next state)) 1).
Proof.
  intros w _. unfold step_stop_playout_buffer, bind, get. simpl.
  destruct (IsOutputEnabled (next state)); simpl; [discriminate |].
  destruct (IsPlaying w) eqn:Hp; simpl; [| auto].
  intros _. destruct w as [? ? []]; reflexivity.
Qed.

Lemma triple_step_stop_recording_buffer state :
  triple (buffer_stage (IsOutputEnabled (next state))
                       (IsInputEnabled (next state)) 1)
         (step_stop_recording_buffer state)
         (fun _ => buffer_stage (IsOutputEnabled (next state))
                                (IsInputEnabled (next state)) 2).
Proof.
  intros w Hw. unfold step_stop_recording_buffer, bind, get. simpl in *.
  destruct (IsInputEnabled (next state)); simpl.
  - split; [exact Hw | discriminate].
  - destruct (IsRecording w) eqn:Hp; simpl.
    + split; [destruct w as [? ? []]; exact Hw |].
      intros _. destruct w as [? ? []]; reflexivity.
    + auto.
Qed.

Lemma triple_step_start_playout_buffer state :
  triple (buffer_stage (IsOutputEnabled (next state))
                       (IsInputEnabled (next state)) 2)
         (step_start_playout_buffer state)
         (fun _ => buffer_stage (IsOutputEnabled (next state))
                                (IsInputEnabled (next state)) 3).
Proof.
  intros w [Hp Hr]. unfold step_start_playout_buffer, bind, get. simpl in *.
  destruct (IsOutputEnabled (next state)); simpl.
  - destruct (IsPlaying w) eqn:Hq; simpl; [auto |].
    split; destruct w as [? ? []]; [reflexivity | exact Hr].
  - auto.
Qed.

Lemma triple_step_start_recording_buffer state :
  triple (buffer_stage (IsOutputEnabled (next state))
                       (IsInputEnabled (next state)) 3)
         (step_start_recording_buffer state)
         (fun _ => buffer_stage (IsOutputEnabled (next state))
                                (IsInputEnabled (next state)) 4).
Proof.
  intros w [Hp Hr]. unfold step_start_recording_buffer, bind, get. simpl in *.
  destruct (IsInputEnabled (next state)); simpl.
  - destruct (IsRecording w) eqn:Hq; simpl; [auto |].
    split; destruct w as [? ? []]; [exact Hp | reflexivity].
  - auto.
Qed.

Lemma buffer_rollback_after_create rollback_actions a :
  Forall (fun action => forall w, same_buffer w (action w)) rollback_actions ->
  a = rollback_actions \/ a = rollback_actions ++ [set_engine_device_ None] ->
  Forall (fun action => forall w, same_buffer w (action w)) a.
Proof.
  intros H [-> | ->]; [assumption |].
  apply Forall_app. split; [assumption |].
  constructor; [| constructor]. intros []; reflexivity.
Qed.

Lemma triple_ApplyDeviceEngineState_body pf state :
  triple (fun _ => True) (ApplyDeviceEngineState_body pf state)
         (fun _ => buffer_stage (IsOutputEnabled (next state))
                                (IsInputEnabled (next state)) 4).
Proof.
  unfold ApplyDeviceEngineState_body. cbv zeta.
  set (out := IsOutputEnabled (next state)).
  set (inp := IsInputEnabled (next state)).
  change (fun _ : World => True) with (buffer_stage out inp 0).
  assert (Hnil : Forall (fun action => forall w, same_buffer w (action w))
                        (@nil (World -> World))) by constructor.
  do 2 (eapply triple_bind;
        [apply triple_same_buffer; unfold_steps; buffer_steps | intro; cbv beta]).
  eapply triple_bind.
  { apply (triple_value
             (fun a => a = [] \/ a = [] ++ [set_engine_device_ None])).
    - intros ? ?. apply step_create_engine_value.
    - pose proof (buffer_rollback_after_create [] _ Hnil (or_intror eq_refl)).
      apply triple_same_buffer; unfold_steps; buffer_steps. }
  intros rb. cbv beta. apply triple_pure. intros Hrb.
  apply (buffer_rollback_after_create [] _ Hnil) in Hrb.
  eapply triple_bind; [apply triple_step_stop_playout_buffer | intro; cbv beta].
  eapply triple_bind; [apply triple_step_stop_recording_buffer | intro; cbv beta].
  do 2 (eapply triple_bind;
        [apply triple_same_buffer; unfold_steps; buffer_steps | intro; cbv beta]).
  eapply triple_bind;
    [apply triple_same_buffer; unfold step_output; unfold_steps; buffer_steps
    | intro; cbv beta].
  eapply triple_bind;
    [apply triple_same_buffer; unfold step_input; unfold_steps; buffer_steps
    | intro; cbv beta].
  do 7 (eapply triple_bind;
        [apply triple_same_buffer; unfold_steps; buffer_steps | intro; cbv beta]).
  eapply triple_bind; [apply triple_step_start_playout_buffer | intro; cbv beta].
  eapply triple_bind; [apply triple_step_start_recording_buffer | intro; cbv beta].
  eapply triple_bind;
    [apply triple_same_buffer; unfold_steps; buffer_steps | intro; cbv beta].
  apply triple_same_buffer; unfold_steps; buffer_steps.
Qed.

Lemma triple_ApplyManualEngineState_body pf state :
  triple (fun _ => True) (ApplyManualEngineState_body pf state)
         (fun _ => buffer_stage (IsOutputEnabled (next state))
                                (IsInputEnabled (next state)) 4).
Proof.
  unfold ApplyManualEngineState_body.
  set (out := IsOutputEnabled (next state)).
  set (inp := IsInputEnabled (next state)).
  change (fun _ : World => True) with (buffer_stage out inp 0).
  do 2 (eapply triple_bind;
        [apply triple_same_buffer; unfold_steps; buffer_steps | intro; cbv beta]).
  eapply triple_bind; [apply triple_step_stop_playout_buffer | intro; cbv beta].
  eapply triple_bind; [apply triple_step_stop_recording_buffer | intro; cbv beta].
  do 4 (eapply triple_bind;
        [apply triple_same_buffer; unfold_steps; buffer_steps | intro; cbv beta]).
  eapply triple_bind; [apply triple_step_start_playout_buffer | intro; cbv beta].
  eapply triple_bind; [apply triple_step_start_recording_buffer | intro; cbv beta].
  eapply triple_bind;
    [apply triple_same_buffer; unfold_steps; buffer_steps | intro; cbv beta].
  apply triple_same_buffer; unfold_steps; buffer_steps.
Qed.

Lemma run_triple d (Q : World -> Prop) (c : M unit) w :
  triple (fun _ => True) c (fun _ => Q) -> spec d any c ->
  fst (run c w) = 0 -> Q (snd (run c w)).
Proof.
  intros Ht Hs. specialize (Ht w I). destruct (Hs w) as (evs & _ & _ & H).
  unfold run. destruct (c w) as [[r | []] w1]; simpl in *.
  - intros ->. destruct H as [H _]. contradiction H. reflexivity.
  - intros _. exact Ht.
Qed.

Lemma ApplyDeviceEngineState_buffer pf state w :
  fst (ApplyDeviceEngineState pf state w) = 0 ->
  IsPlaying (snd (ApplyDeviceEngineState pf state w))
    = IsOutputEnabled (next state) /\
  IsRecording (snd (ApplyDeviceEngineState pf state w))
    = IsInputEnabled (next state).
Proof.
  apply (run_triple _ (buffer_stage _ _ 4) _ w
           (triple_ApplyDeviceEngineState_body pf state)
           (spec_ApplyDeviceEngineState_body pf state)).
Qed.

Lemma ApplyManualEngineState_buffer pf state w :
  fst (ApplyManualEngineState pf state w) = 0 ->
  IsPlaying (snd (ApplyManualEngineState pf state w))
    = IsOutputEnabled (next state) /\
  IsRecording (snd (ApplyManualEngineState pf state w))
    = IsInputEnabled (next state).
Proof.
  apply (run_triple _ (buffer_stage _ _ 4) _ w
           (triple_ApplyManualEngineState_body pf state)
           (spec_ApplyManualEngineState_body pf state)).
Qed.

Lemma buffer_consistent_commit s w :
  IsPlaying w = IsOutputEnabled s /\ IsRecording w = IsInputEnabled s ->
  buffer_consistent (set_engine_state_ s w).
Proof. destruct w. exact (fun H => H). Qed.

(** X6. The buffer flags follow the committed state: after a call of
    [ModifyEngineState] that returns 0, the playout flag of the buffer
    equals [IsOutputEnabled] of the committed state and the recording flag
    equals [IsInputEnabled] of it, provided this held before in case the
    transform changes nothing.  So the two checks at the end of the
    function hold after every successful transition, whatever the flags
    were before. *)
Theorem ModifyEngineState_buffer_follows_state (pf : Platform)
  (state_transform : EngineState -> EngineState) (w : World) :
  fst (ModifyEngineState pf state_transform w) = 0 ->
  (state_transform (engine_state_ w) = engine_state_ w -> buffer_consistent w) ->
  buffer_consistent (snd (ModifyEngineState pf state_transform w)).
Proof.
  unfold ModifyEngineState, ModifyEngineStateWith. cbv zeta.
  set (old_state := engine_state_ w).
  set (new_state := state_transform old_state).
  set (state := mkUpdate old_state new_state).
  destruct (HasNoChanges state) eqn:Hno.
  { intros _ H. apply H. apply HasNoChanges_iff in Hno. symmetry. exact Hno. }
  destruct (input_running new_state && negb (input_enabled new_state));
    [discriminate |].
  destruct (output_running new_state && negb (output_enabled new_state));
    [discriminate |].
  intros Hok _. revert Hok.
  assert (Hboth : forall a b : Z,
            (if negb (a =? 0) then a else b) = 0 -> a = 0 /\ b = 0).
  { intros a b. destruct (Z.eqb_spec a 0); simpl; auto.
    intros; contradiction. }
  unfold dispatch.
  destruct (DidEnableManualRenderingMode state).
  - cbv zeta.
    destruct (ApplyDeviceEngineState pf _ w) as [r1 w1].
    pose proof (ApplyManualEngineState_buffer pf state w1) as H2.
    destruct (ApplyManualEngineState pf state w1) as [r2 w2].
    cbn [fst snd] in *.
    destruct (Z.eqb_spec (if negb (r1 =? 0) then r1 else r2) 0) as [E | N];
      cbn [fst snd]; [| intros; contradiction].
    intros _. apply buffer_consistent_commit, H2, (Hboth _ _ E).
  - destruct (DidEnableDeviceRenderingMode state).
    + cbv zeta.
      destruct (ApplyManualEngineState pf _ w) as [r1 w1].
      pose proof (ApplyDeviceEngineState_buffer pf state w1) as H2.
      destruct (ApplyDeviceEngineState pf state w1) as [r2 w2].
      cbn [fst snd] in *.
      destruct (Z.eqb_spec (if negb (r1 =? 0) then r1 else r2) 0) as [E | N];
        cbn [fst snd]; [| intros; contradiction].
      intros _. apply buffer_consistent_commit, H2, (Hboth _ _ E).
    + destruct (RenderMode_eqb (render_mode (next state)) Device) eqn:Hd.
      * pose proof (ApplyDeviceEngineState_buffer pf state w) as H1.
        destruct (ApplyDeviceEngineState pf state w) as [r1 w1].
        cbn [fst snd] in *.
        destruct (Z.eqb_spec (if negb (r1 =? 0) then r1 else 0) 0) as [E | N];
          cbn [fst snd]; [| intros; contradiction].
        intros _. apply buffer_consistent_commit, H1, (Hboth _ _ E).
      * destruct (RenderMode_eqb (render_mode (next state)) Manual) eqn:Hm.
        -- pose proof (ApplyManualEngineState_buffer pf state w) as H1.
           destruct (ApplyManualEngineState pf state w) as [r1 w1].
           cbn [fst snd] in *.
           change (negb (0 =? 0)) with false. cbv iota.
           destruct (Z.eqb_spec r1 0) as [E | N];
             cbn [fst snd]; [| intros; contradiction].
           intros _. apply buffer_consistent_commit, H1, E.
        -- destruct (render_mode (next state)); discriminate.
Qed.

Lemma ModifyEngineState_buffer_follows_state_witness :
  buffer_consistent
    (snd (ModifyEngineState desktop InitAndStartRecording_transform
            initial_World)).
Proof.
  apply (ModifyEngineState_buffer_follows_state desktop
           InitAndStartRecording_transform initial_World).
  - vm_compute. reflexivity.
  - intros _. split; reflexivity.
Defined.

(** ** Updates that leave the audio graph alone *)

Lemma set_trace_same w : set_trace (trace w ++ []) w = w.
Proof. destruct w; simpl. rewrite app_nil_r. reflexivity. Qed.

Lemma set_trace_twice v1 v2 w : set_trace v2 (set_trace v1 w) = set_trace v2 w.
Proof. destruct w; reflexivity. Qed.

Lemma settled_set_trace out inp v w :
  settled out inp (set_trace v w) <-> settled out inp w.
Proof. destruct w; reflexivity. Qed.

#[global] Instance StepRel_quiet out inp P :
  StepRel (quiet out inp P) (never_exits out inp) P.
Proof.
  split.
  - intros w _. exists []. rewrite set_trace_same. auto.
  - intros w1 w2 w3 H12 H23 Hs.
    destruct (H12 Hs) as (evs1 & -> & HP1).
    destruct H23 as (evs2 & -> & HP2); [apply settled_set_trace, Hs |].
    exists (evs1 ++ evs2).
    rewrite trace_set_trace, set_trace_twice, app_assoc.
    split; [reflexivity | apply Forall_app; auto].
  - intros w1 w2 r H12 He Hs.
    destruct (H12 Hs) as (evs1 & -> & _). apply He, settled_set_trace, Hs.
  - intros e w He _. exists [e]. split; [reflexivity | auto].
Qed.

Ltac quiet_step :=
  match goal with
  | |- steps (quiet ?out ?inp ?P) _ _ => steps_prim (StepRel_quiet out inp P)
  end.

Ltac quiet_steps := repeat quiet_step.

Lemma runtime_only_guards state :
  runtime_only state = true ->
  IsEngineRecreateRequired state = false /\
  IsOutputEnabled (prev state) = IsOutputEnabled (next state) /\
  IsInputEnabled (prev state) = IsInputEnabled (next state) /\
  IsAnyRunning (prev state) = IsAnyRunning (next state) /\
  DidBeginInterruption state = false /\
  DidEndInterruption state = false /\
  IsEngineRestartRequired state = false.
Proof.
  unfold runtime_only, DidBeginInterruption, DidEndInterruption,
    IsEngineRestartRequired, DidUpdateAudioGraph,
    DidUpdateVoiceProcessingEnabled.
  intros H. repeat (apply andb_prop in H; destruct H as [H ?]).
  repeat match goal with
         | H : Bool.eqb _ _ = true |- _ => apply eqb_prop in H
         | H : negb _ = true |- _ => apply negb_true_iff in H
         end.
  repeat match goal with H : _ = _ |- _ => rewrite H end.
  rewrite !eqb_reflx.
  destruct (is_interrupted (next state)); auto 10.
Qed.

Lemma manual_idle_guards state :
  manual_idle state = true ->
  IsOutputEnabled (prev state) = IsOutputEnabled (next state) /\
  IsInputEnabled (prev state) = IsInputEnabled (next state) /\
  IsAnyRunning (prev state) = IsAnyRunning (next state).
Proof.
  unfold manual_idle.
  intros H. repeat (apply andb_prop in H; destruct H as [H ?]).
  repeat match goal with
         | H : Bool.eqb _ _ = true |- _ => apply eqb_prop in H
         end.
  auto.
Qed.

Lemma runtime_only_manual_idle state :
  runtime_only state = true -> manual_idle state = true.
Proof.
  unfold runtime_only, manual_idle. intros H.
  repeat (apply andb_prop in H; destruct H as [H ?]).
  repeat (apply andb_true_intro; split); assumption.
Qed.

Section QuietSteps.

Variable pf : Platform.
Variable state : EngineStateUpdate.
Variable P : Event -> Prop.

Let out := IsOutputEnabled (next state).
Let inp := IsInputEnabled (next state).

Lemma quiet_step_stop_playout_buffer :
  steps (quiet out inp P) (never_exits out inp) (step_stop_playout_buffer state).
Proof.
  intros w. unfold step_stop_playout_buffer, bind, get. simpl.
  fold out. destruct (negb out && IsPlaying w) eqn:G; simpl.
  - split.
    + intros [Hp _]. rewrite Hp in G. destruct out; discriminate.
    + intros r _ [Hp _]. rewrite Hp in G. destruct out; discriminate.
  - split; [apply (rel_refl (StepRel := StepRel_quiet out inp P)) | discriminate].
Qed.

Lemma quiet_step_stop_recording_buffer :
  steps (quiet out inp P) (never_exits out inp)
        (step_stop_recording_buffer state).
Proof.
  intros w. unfold step_stop_recording_buffer, bind, get. simpl.
  fold inp. destruct (negb inp && IsRecording w) eqn:G; simpl.
  - split.
    + intros [_ Hp]. rewrite Hp in G. destruct inp; discriminate.
    + intros r _ [_ Hp]. rewrite Hp in G. destruct inp; discriminate.
  - split; [apply (rel_refl (StepRel := StepRel_quiet out inp P)) | discriminate].
Qed.

Lemma quiet_step_start_playout_buffer :
  steps (quiet out inp P) (never_exits out inp)
        (step_start_playout_buffer state).
Proof.
  intros w. unfold step_start_playout_buffer, bind, get. simpl.
  fold out. destruct (out && negb (IsPlaying w)) eqn:G; simpl.
  - split.
    + intros [Hp _]. rewrite Hp in G. destruct out; discriminate.
    + intros r _ [Hp _]. rewrite Hp in G. destruct out; discriminate.
  - split; [apply (rel_refl (StepRel := StepRel_quiet out inp P)) | discriminate].
Qed.

Lemma quiet_step_start_recording_buffer :
  steps (quiet out inp P) (never_exits out inp)
        (step_start_recording_buffer state).
Proof.
  intros w. unfold step_start_recording_buffer, bind, get. simpl.
  fold inp. destruct (inp && negb (IsRecording w)) eqn:G; simpl.
  - split.
    + intros [_ Hp]. rewrite Hp in G. destruct inp; discriminate.
    + intros r _ [_ Hp]. rewrite Hp in G. destruct inp; discriminate.
  - split; [apply (rel_refl (StepRel := StepRel_quiet out inp P)) | discriminate].
Qed.

End QuietSteps.

Ltac quiet_guards H :=
  destruct H as (Hrc & Hoe & Hie & Hru & Hbi & Hei & Hrs);
  unfold DidAnyEnable, DidAnyDisable, DidEnableOutput, DidEnableInput,
    DidDisableOutput, DidDisableInput, IsAnyEnabled;
  rewrite ?Hrc, ?Hoe, ?Hie, ?Hru, ?Hbi, ?Hei, ?Hrs.

Lemma quiet_ApplyDeviceEngineState_body pf state :
  runtime_only state = true ->
  steps (quiet (IsOutputEnabled (next state)) (IsInputEnabled (next state))
               node_setting)
        (never_exits (IsOutputEnabled (next state))
                     (IsInputEnabled (next state)))
        (ApplyDeviceEngineState_body pf state).
Proof.
  intros H. apply runtime_only_guards in H.
  unfold ApplyDeviceEngineState_body. cbv zeta.
  set (HR := StepRel_quiet (IsOutputEnabled (next state))
                           (IsInputEnabled (next state)) node_setting).
  apply (steps_bind (HR := HR)).
  { unfold step_stop_engine. quiet_guards H.
    destruct (IsAnyRunning (next state)); apply (steps_ret (HR := HR)). }
  intros _. apply (steps_bind (HR := HR)).
  { unfold step_recreate_engine. quiet_guards H. apply (steps_ret (HR := HR)). }
  intros _. apply (steps_bind_value (HR := HR) (fun a => a = [])).
  { unfold step_create_engine. quiet_guards H.
    destruct (_ || _); apply (steps_ret (HR := HR)). }
  { intros w a. unfold step_create_engine. quiet_guards H.
    destruct (_ || _); simpl; intros [= <-]; reflexivity. }
  intros rb ->.
  apply (steps_bind (HR := HR)); [apply quiet_step_stop_playout_buffer |].
  intros _.
  apply (steps_bind (HR := HR)); [apply quiet_step_stop_recording_buffer |].
  intros _. apply (steps_bind (HR := HR)).
  { unfold step_will_enable. quiet_guards H.
    destruct (IsOutputEnabled (next state)), (IsInputEnabled (next state));
      apply (steps_ret (HR := HR)). }
  intros _. apply (steps_bind (HR := HR)).
  { unfold step_configure_voice_processing. quiet_steps. }
  intros _. apply (steps_bind (HR := HR)).
  { unfold step_output. quiet_guards H.
    destruct (IsOutputEnabled (next state)); apply (steps_ret (HR := HR)). }
  intros _. apply (steps_bind (HR := HR)).
  { unfold step_input. quiet_guards H.
    destruct (IsInputEnabled (next state)); apply (steps_ret (HR := HR)). }
  intros _. apply (steps_bind (HR := HR)).
  { unfold step_did_disable. quiet_guards H.
    destruct (IsOutputEnabled (next state)), (IsInputEnabled (next state));
      apply (steps_ret (HR := HR)). }
  intros _. apply (steps_bind (HR := HR)).
  { unfold step_mute_voice_processing. quiet_steps. }
  intros _. apply (steps_bind (HR := HR)).
  { unfold step_mute_input_mixer. quiet_steps. }
  intros _. apply (steps_bind (HR := HR)).
  { unfold step_ducking. quiet_steps. }
  intros _. apply (steps_bind (HR := HR)).
  { unfold step_bypass. quiet_steps. }
  intros _. apply (steps_bind (HR := HR)).
  { unfold step_agc. quiet_steps. }
  intros _. apply (steps_bind (HR := HR)).
  { unfold step_configure_device. quiet_guards H.
    destruct (TARGET_OS_OSX pf); [| apply (steps_ret (HR := HR))].
    destruct (_ || _); apply (steps_ret (HR := HR)). }
  intros _.
  apply (steps_bind (HR := HR)); [apply quiet_step_start_playout_buffer |].
  intros _.
  apply (steps_bind (HR := HR)); [apply quiet_step_start_recording_buffer |].
  intros _. apply (steps_bind (HR := HR)).
  { unfold step_start_engine. quiet_guards H.
    destruct (IsAnyRunning (next state)); apply (steps_ret (HR := HR)). }
  intros _.
  unfold step_release_engine. quiet_guards H.
  destruct (_ || _); apply (steps_ret (HR := HR)).
Qed.


Lemma run_quiet out inp P (c : M unit) w :
  steps (quiet out inp P) (never_exits out inp) c ->
  settled out inp w ->
  exists evs, run c w = (0, set_trace (trace w ++ evs) w) /\ Forall P evs.
Proof.
  intros Hc Hs. destruct (Hc w) as [Hr He]. unfold run.
  destruct (c w) as [[r | []] w1]; simpl in *.
  - destruct (He r eq_refl Hs).
  - destruct (Hr Hs) as (evs & -> & HP). exists evs. auto.
Qed.


Lemma commit_unchanged w :
  set_engine_state_ (engine_state_ w) (set_trace (trace w ++ []) w) = w.
Proof. destruct w; simpl. rewrite app_nil_r. reflexivity. Qed.

Lemma runtime_only_settled state w :
  prev state = engine_state_ w ->
  manual_idle state = true -> buffer_consistent w ->
  settled (IsOutputEnabled (next state)) (IsInputEnabled (next state)) w.
Proof.
  intros Hp H [H1 H2]. apply manual_idle_guards in H.
  destruct H as (Hoe & Hie & _).
  rewrite <- Hoe, <- Hie, Hp. split; assumption.
Qed.

Lemma runtime_update_applies_quietly pf state_transform w :
  render_mode (engine_state_ w) = Device ->
  render_mode (state_transform (engine_state_ w)) = Device ->
  running_implies_enabled (state_transform (engine_state_ w)) ->
  runtime_only (mkUpdate (engine_state_ w) (state_transform (engine_state_ w)))
    = true ->
  buffer_consistent w ->
  applies_quietly pf state_transform w.
Proof.
  intros Hd1 Hd2 [Hri Hro] Hq Hb.
  unfold applies_quietly, ModifyEngineState, ModifyEngineStateWith. cbv zeta.
  set (new_state := state_transform (engine_state_ w)) in *.
  set (state := mkUpdate (engine_state_ w) new_state) in *.
  destruct (HasNoChanges state) eqn:Hno.
  { apply HasNoChanges_iff in Hno. simpl in Hno. exists [].
    rewrite <- Hno, commit_unchanged. auto. }
  assert (Hi : input_running new_state && negb (input_enabled new_state) = false).
  { destruct (input_running new_state); [rewrite Hri |]; reflexivity. }
  assert (Ho : output_running new_state && negb (output_enabled new_state)
               = false).
  { destruct (output_running new_state); [rewrite Hro |]; reflexivity. }
  rewrite Hi, Ho. unfold dispatch.
  unfold DidEnableManualRenderingMode, DidEnableDeviceRenderingMode.
  change (render_mode (next state)) with (render_mode new_state).
  change (render_mode (prev state)) with (render_mode (engine_state_ w)).
  rewrite Hd1, Hd2. cbn [RenderMode_eqb negb andb].
  destruct (run_quiet _ _ _ _ w (quiet_ApplyDeviceEngineState_body pf state Hq))
    as (evs & Hrun & HP).
  { apply runtime_only_settled;
      [reflexivity | apply runtime_only_manual_idle, Hq | exact Hb]. }
  unfold ApplyDeviceEngineState. rewrite Hrun. cbn.
  exists evs. split; [reflexivity | exact HP].
Qed.

(** X7. In device mode, an update that keeps what is enabled, whether
    anything runs, the interruption flag, the voice-processing switch and
    the devices is applied without touching the engine: the call returns 0,
    commits the new state, calls no observer, and its only platform calls
    set properties of the input node or of the input mixer.  Nothing is
    stopped, started, allocated, attached or detached, and no member of the
    object other than the committed state changes. *)
Theorem runtime_update_only_sets_node_properties (pf : Platform)
  (state_transform : EngineState -> EngineState) (w : World) :
  let new_state := state_transform (engine_state_ w) in
  render_mode (engine_state_ w) = Device ->
  render_mode new_state = Device ->
  running_implies_enabled new_state ->
  runtime_only (mkUpdate (engine_state_ w) new_state) = true ->
  buffer_consistent w ->
  exists evs,
    ModifyEngineState pf state_transform w
      = (0, set_engine_state_ new_state (set_trace (trace w ++ evs) w)) /\
    Forall (fun e => is_node_setting e = true) evs.
Proof. cbv zeta. apply runtime_update_applies_quietly. Qed.

Lemma runtime_update_only_sets_node_properties_witness :
  exists evs,
    ModifyEngineState desktop (set_voice_processing_bypassed true)
                      recording_started
      = (0, set_engine_state_
              (set_voice_processing_bypassed true
                 (engine_state_ recording_started))
              (set_trace (trace recording_started ++ evs) recording_started)) /\
    Forall (fun e => is_node_setting e = true) evs.
Proof.
  apply (runtime_update_only_sets_node_properties desktop
           (set_voice_processing_bypassed true) recording_started).
  - reflexivity.
  - reflexivity.
  - split; vm_compute; auto.
  - vm_compute. reflexivity.
  - split; vm_compute; reflexivity.
Defined.

Lemma runtime_only_flags_kept (f : EngineState -> EngineState) s :
  running_implies_enabled s ->
  input_enabled (f s) = input_enabled s ->
  input_running (f s) = input_running s ->
  output_enabled (f s) = output_enabled s ->
  output_running (f s) = output_running s ->
  running_implies_enabled (f s).
Proof. unfold running_implies_enabled. intros H -> -> -> ->. exact H. Qed.

Lemma runtime_only_intro s s' :
  IsOutputEnabled s' = IsOutputEnabled s ->
  IsInputEnabled s' = IsInputEnabled s ->
  IsAnyRunning s' = IsAnyRunning s ->
  is_interrupted s' = is_interrupted s ->
  voice_processing_enabled s' = voice_processing_enabled s ->
  output_device_id s' = output_device_id s ->
  input_device_id s' = input_device_id s ->
  (default_output_device_update_count s' = default_output_device_update_count s
   \/ output_device_id s' <> kAudioObjectUnknown) ->
  (default_input_device_update_count s' = default_input_device_update_count s
   \/ input_device_id s' <> kAudioObjectUnknown) ->
  runtime_only (mkUpdate s s') = true.
Proof.
  intros H1 H2 H3 H4 H5 H6 H7 H8 H9.
  unfold runtime_only, IsEngineRecreateRequired, DidUpdateOutputDevice,
    DidUpdateInputDevice, DidUpdateDefaultOutputDevice,
    DidUpdateDefaultInputDevice, IsOutputDefaultDevice, IsInputDefaultDevice.
  cbn [prev next]. rewrite H1, H2, H3, H4, H5, !eqb_reflx.
  rewrite <- H6, <- H7, !Z.eqb_refl, andb_negb_r, andb_false_r.
  assert (Ho : negb (default_output_device_update_count s =?
                     default_output_device_update_count s') &&
               (output_device_id s' =? kAudioObjectUnknown) = false).
  { destruct H8 as [-> | H8]; [rewrite Z.eqb_refl; reflexivity |].
    apply Z.eqb_neq in H8. rewrite H8. apply andb_false_r. }
  assert (Hi : negb (default_input_device_update_count s =?
                     default_input_device_update_count s') &&
               (input_device_id s' =? kAudioObjectUnknown) = false).
  { destruct H9 as [-> | H9]; [rewrite Z.eqb_refl; reflexivity |].
    apply Z.eqb_neq in H9. rewrite H9. apply andb_false_r. }
  rewrite Ho, Hi. reflexivity.
Qed.

Ltac runtime_setter :=
  match goal with
  | Hd : render_mode ?s = Device, Hv : running_implies_enabled ?s
    |- applies_quietly _ ?f _ =>
      apply runtime_update_applies_quietly;
      [ exact Hd
      | destruct s; exact Hd
      | apply (runtime_only_flags_kept f s Hv); destruct s; reflexivity
      | apply runtime_only_intro;
        try (destruct s; first [reflexivity | left; reflexivity]);
        try (right; destruct s; assumption);
        try (destruct s as [? ? ? ? ? ? ? ? ? mm]; simpl in *; destruct mm;
             first [reflexivity | congruence])
      | assumption ]
  end.

(** X8. The setters that never touch the audio graph.  On a device-mode
    engine, each of these is applied by property settings alone (no stop,
    no start, no new engine, no observer call) and returns 0: muting and
    unmuting the microphone unless the mute mode is restart-engine; the
    voice-processing bypass and AGC switches; the ducking settings; and the
    debounced default-device update of a side for which a specific device is
    selected. *)
Theorem runtime_setters_keep_engine (pf : Platform) (w : World) :
  render_mode (engine_state_ w) = Device ->
  running_implies_enabled (engine_state_ w) ->
  buffer_consistent w ->
  (forall enable, mute_mode (engine_state_ w) <> RestartEngine ->
     applies_quietly pf (SetMicrophoneMute_transform enable) w) /\
  (forall enable, applies_quietly pf (set_voice_processing_bypassed enable) w) /\
  (forall enable,
     applies_quietly pf (set_voice_processing_agc_enabled enable) w) /\
  (forall enable, applies_quietly pf (set_advanced_ducking enable) w) /\
  (forall level, applies_quietly pf (set_ducking_level level) w) /\
  (output_device_id (engine_state_ w) <> kAudioObjectUnknown ->
   applies_quietly pf default_output_update_transform w) /\
  (input_device_id (engine_state_ w) <> kAudioObjectUnknown ->
   applies_quietly pf default_input_update_transform w).
Proof.
  intros Hd Hv Hb.
  split; [intros enable Hm | split; [intros enable | split; [intros enable |
    split; [intros enable | split; [intros level | split; intros Hdev]]]]];
    runtime_setter.
Qed.



Lemma runtime_setters_keep_engine_witness :
  applies_quietly desktop (SetMicrophoneMute_transform true) recording_started.
Proof.
  destruct (runtime_setters_keep_engine desktop recording_started) as [H _].
  - reflexivity.
  - split; vm_compute; auto.
  - split; vm_compute; reflexivity.
  - apply H. vm_compute. discriminate.
Defined.

(** ** Interruptions *)

#[global] Instance StepRel_grows P : StepRel (grows P) any_exit P.
Proof.
  split.
  - intros w. exists []. rewrite app_nil_r. auto.
  - intros w1 w2 w3 (evs1 & H1 & HP1) (evs2 & H2 & HP2).
    exists (evs1 ++ evs2). rewrite H2, H1, app_assoc.
    split; [reflexivity | apply Forall_app; auto].
  - intros; exact I.
  - intros e w He. exists [e]. split; [destruct w; reflexivity | auto].
Qed.

Lemma steps_start_loop_grows P pf c :
  (forall e, is_engine_stop e = false -> is_observer_call e = false -> P e) ->
  steps (grows P) any_exit (start_loop pf c).
Proof.
  intros HP.
  set (HR := StepRel_grows P).
  remember (kStartEngineMaxRetries - c)%nat as n eqn:Hn.
  revert c Hn. induction n as [n IH] using lt_wf_ind. intros c Hn.
  rewrite start_loop_unfold_while.
  destruct (Nat.ltb_spec c kStartEngineMaxRetries) as [Hlt | Hge];
    [| apply (steps_ret (HR := HR))].
  apply (steps_bind (HR := HR)).
  - unfold start_attempt.
    repeat first
      [ apply (steps_bind (HR := HR)); [| intro]
      | apply (steps_when (HR := HR))
      | apply (steps_emit (HR := HR)); apply HP; reflexivity
      | apply (steps_get (HR := HR))
      | apply (steps_ask (HR := HR))
      | apply (steps_ret (HR := HR)) ].
  - intros r. destruct r; [apply (steps_ret (HR := HR)) |].
    apply (IH (kStartEngineMaxRetries - S c)%nat); [lia | reflexivity].
Qed.

Ltac grows_notify P :=
  apply (steps_notify (HR := StepRel_grows P));
  [ intros; apply (rel_emit (StepRel := StepRel_grows P));
    first [exact I | reflexivity]
  | intros; exact I
  | first [ apply (returns_within_exit_with (HR := StepRel_grows P))
          | apply (returns_within_rollback (HR := StepRel_grows P));
            assumption ] ].

Ltac grows_step :=
  match goal with
  | |- steps (grows ?P) _ (notify _ _) => grows_notify P
  | |- steps (grows ?P) _ (rollback _ _) =>
      apply (steps_rollback (HR := StepRel_grows P));
      [assumption | intros; exact I]
  | |- steps (grows ?P) _ (start_loop _ _) =>
      apply steps_start_loop_grows; intros [] ? ?;
      first [exact I | reflexivity | discriminate]
  | |- steps (grows ?P) _ _ => steps_prim (StepRel_grows P)
  end.

Ltac grows_steps := repeat grows_step.

Lemma rollback_after_create (R : World -> World -> Prop) rollback_actions a :
  (forall w, R w (set_engine_device_ None w)) ->
  Forall (fun action => forall w, R w (action w)) rollback_actions ->
  a = rollback_actions \/ a = rollback_actions ++ [set_engine_device_ None] ->
  Forall (fun action => forall w, R w (action w)) a.
Proof.
  intros H0 H [-> | ->]; [assumption |].
  apply Forall_app. split; [assumption |]. constructor; [exact H0 | constructor].
Qed.

Lemma grows_set_engine_device_ P v w : grows P w (set_engine_device_ v w).
Proof. revert w. world_side. Qed.


(** In device mode, with a valid and changed state, the driver is one call
    of the device applier followed by the commit. *)
Lemma ModifyEngineState_device_mode pf state_transform w :
  render_mode (engine_state_ w) = Device ->
  render_mode (state_transform (engine_state_ w)) = Device ->
  running_implies_enabled (state_transform (engine_state_ w)) ->
  state_transform (engine_state_ w) <> engine_state_ w ->
  ModifyEngineState pf state_transform w =
    (let '(r, w1) :=
       ApplyDeviceEngineState pf
         (mkUpdate (engine_state_ w) (state_transform (engine_state_ w))) w in
     (r, if r =? 0 then set_engine_state_ (state_transform (engine_state_ w)) w1
         else w1)).
Proof.
  intros Hd1 Hd2 [Hri Hro] Hneq.
  unfold ModifyEngineState, ModifyEngineStateWith. cbv zeta.
  set (new_state := state_transform (engine_state_ w)) in *.
  set (state := mkUpdate (engine_state_ w) new_state) in *.
  destruct (HasNoChanges state) eqn:Hno.
  { apply HasNoChanges_iff in Hno. simpl in Hno. congruence. }
  assert (Hi : input_running new_state && negb (input_enabled new_state) = false).
  { destruct (input_running new_state); [rewrite Hri |]; reflexivity. }
  assert (Ho : output_running new_state && negb (output_enabled new_state)
               = false).
  { destruct (output_running new_state); [rewrite Hro |]; reflexivity. }
  rewrite Hi, Ho. unfold dispatch.
  unfold DidEnableManualRenderingMode, DidEnableDeviceRenderingMode.
  change (render_mode (next state)) with (render_mode new_state).
  change (render_mode (prev state)) with (render_mode (engine_state_ w)).
  rewrite Hd1, Hd2. cbn [RenderMode_eqb negb andb].
  destruct (ApplyDeviceEngineState pf state w) as [r w1].
  destruct (Z.eqb_spec r 0) as [-> | N]; [reflexivity |].
  cbn [negb]. destruct (Z.eqb_spec r 0); [contradiction | reflexivity].
Qed.

Lemma trace_after_device_mode pf state_transform w :
  render_mode (engine_state_ w) = Device ->
  render_mode (state_transform (engine_state_ w)) = Device ->
  running_implies_enabled (state_transform (engine_state_ w)) ->
  state_transform (engine_state_ w) <> engine_state_ w ->
  trace (snd (ModifyEngineState pf state_transform w)) =
  trace (snd (ApplyDeviceEngineState pf
                (mkUpdate (engine_state_ w) (state_transform (engine_state_ w)))
                w)) /\
  fst (ModifyEngineState pf state_transform w) =
  fst (ApplyDeviceEngineState pf
         (mkUpdate (engine_state_ w) (state_transform (engine_state_ w))) w).
Proof.
  intros Hd1 Hd2 Hv Hneq.
  rewrite (ModifyEngineState_device_mode pf _ _ Hd1 Hd2 Hv Hneq).
  destruct (ApplyDeviceEngineState pf _ w) as [r w1]. cbn [fst snd].
  split; [| reflexivity].
  destruct (r =? 0); [apply trace_set_trace_indep | reflexivity].
Qed.

Lemma trace_of_run (c : M unit) w : trace (snd (run c w)) = trace (snd (c w)).
Proof. unfold run. destruct (c w) as [[r | u] w1]; reflexivity. Qed.

(** The part of the device applier after its first step neither needs nor
    uses a start of the engine when the start guard is off. *)
Lemma body_after_stop pf state :
  starts_engine state = false ->
  exists K : M unit,
    ApplyDeviceEngineState_body pf state = (step_stop_engine state [] ;; K) /\
    steps (grows not_start) any_exit K.
Proof.
  intros Hns. eexists. split; [reflexivity |].
  set (HR := StepRel_grows not_start).
  assert (Hnil : Forall (fun action => forall w, grows not_start w (action w))
                        (@nil (World -> World))) by constructor.
  apply (steps_bind (HR := HR)); [unfold_steps; grows_steps | intros _].
  apply (steps_bind_value (HR := HR)
           (fun a => a = [] \/ a = [] ++ [set_engine_device_ None])).
  { pose proof (rollback_after_create _ [] _
                  (grows_set_engine_device_ not_start None) Hnil
                  (or_intror eq_refl)).
    unfold_steps; grows_steps. }
  { intros w a. apply step_create_engine_value. }
  intros rb Hrb.
  apply (rollback_after_create _ [] _
           (grows_set_engine_device_ not_start None) Hnil) in Hrb.
  do 4 (apply (steps_bind (HR := HR)); [unfold_steps; grows_steps | intros _]).
  do 2 (apply (steps_bind (HR := HR));
        [ try unfold step_output; try unfold step_input; unfold_steps;
          grows_steps
        | intros _ ]).
  do 9 (apply (steps_bind (HR := HR)); [unfold_steps; grows_steps | intros _]).
  apply (steps_bind (HR := HR)).
  { unfold step_start_engine. unfold starts_engine in Hns.
    destruct (IsAnyRunning (next state)); [| apply (steps_ret (HR := HR))].
    simpl in Hns. unfold when at 1. rewrite Hns. apply (steps_ret (HR := HR)). }
  intros _. unfold_steps; grows_steps.
Qed.

Lemma step_stop_engine_trace state w :
  stops_engine state = true ->
  exists after,
    trace (snd (step_stop_engine state [] w)) =
      trace w ++
      (match configuration_observer_ w with
       | Some o => [EvRemoveConfigurationObserver o]
       | None => []
       end) ++ EvEngineStop (engine_device_ w) :: after /\
    Forall not_start after.
Proof.
  intros H. unfold step_stop_engine. fold (stops_engine state). rewrite H.
  unfold when, notify, rollback, bind, get, ask, emit, modify, ret.
  destruct w as [st obs buf fab ed emi sn sk im cr cb co rt rb rd rk tr].
  simpl. destruct co as [o |], obs as [ob |]; simpl;
    try destruct (_ =? 0); simpl;
    eexists; (split; [rewrite <- ?app_assoc; simpl; reflexivity |]);
    repeat constructor.
Qed.

Lemma bind_trace_after {A B} P (c : M A) (k : A -> M B) w pre :
  trace (snd (c w)) = trace w ++ pre ->
  (forall a, steps (grows P) any_exit (k a)) ->
  exists post,
    trace (snd (bind c k w)) = trace w ++ pre ++ post /\ Forall P post.
Proof.
  intros Hc Hk. unfold bind. destruct (c w) as [[r | a] w1]; simpl in *.
  - exists []. rewrite app_nil_r. auto.
  - destruct (Hk a w1) as [(post & Ht & HP) _]. exists post.
    rewrite Ht, Hc, app_assoc. auto.
Qed.

Lemma not_start_attempts evs : Forall not_start evs -> start_attempts evs = 0%nat.
Proof.
  induction 1 as [| e l He _ IH]; [reflexivity |].
  destruct e; simpl; try exact IH. discriminate He.
Qed.

Lemma set_is_interrupted_changes b s :
  is_interrupted s = negb b -> set_is_interrupted b s <> s.
Proof.
  intros H E. apply (f_equal is_interrupted) in E.
  destruct s; simpl in *. subst. destruct b; discriminate.
Qed.

Lemma graph_kept_intro s s' :
  IsOutputEnabled s' = IsOutputEnabled s ->
  IsInputEnabled s' = IsInputEnabled s ->
  voice_processing_enabled s' = voice_processing_enabled s ->
  output_device_id s' = output_device_id s ->
  input_device_id s' = input_device_id s ->
  default_output_device_update_count s' = default_output_device_update_count s ->
  default_input_device_update_count s' = default_input_device_update_count s ->
  IsEngineRestartRequired (mkUpdate s s') = false /\
  IsEngineRecreateRequired (mkUpdate s s') = false.
Proof.
  intros H1 H2 H3 H4 H5 H6 H7.
  unfold IsEngineRestartRequired, DidUpdateAudioGraph,
    DidUpdateVoiceProcessingEnabled, IsEngineRecreateRequired,
    DidUpdateOutputDevice, DidUpdateInputDevice, DidUpdateDefaultOutputDevice,
    DidUpdateDefaultInputDevice.
  cbn [prev next]. rewrite H1, H2, H3, H4, H5, H6, H7, !eqb_reflx, !Z.eqb_refl.
  rewrite andb_negb_r, andb_false_r. split; reflexivity.
Qed.

Lemma set_is_interrupted_keeps b s :
  render_mode (set_is_interrupted b s) = render_mode s /\
  IsAnyRunning (set_is_interrupted b s) = IsAnyRunning s /\
  (running_implies_enabled s -> running_implies_enabled (set_is_interrupted b s)) /\
  is_interrupted (set_is_interrupted b s) = b /\
  IsEngineRestartRequired (mkUpdate s (set_is_interrupted b s)) = false /\
  IsEngineRecreateRequired (mkUpdate s (set_is_interrupted b s)) = false.
Proof.
  split; [destruct s; reflexivity |].
  split; [destruct s; reflexivity |].
  split; [destruct s; exact (fun H => H) |].
  split; [destruct s; reflexivity |].
  apply graph_kept_intro; destruct s; reflexivity.
Qed.

(** X10. An interruption that begins while the engine runs in device mode
    stops the engine at once (after removing the configuration-change
    listener, if one is registered), and nothing in the same call starts it
    again. *)
Theorem interruption_begin_stops_engine (pf : Platform) (w : World) :
  render_mode (engine_state_ w) = Device ->
  running_implies_enabled (engine_state_ w) ->
  is_interrupted (engine_state_ w) = false ->
  IsAnyRunning (engine_state_ w) = true ->
  exists after,
    trace (snd (OnInterruptionBegin pf w)) =
      trace w ++
      (match configuration_observer_ w with
       | Some o => [EvRemoveConfigurationObserver o]
       | None => []
       end) ++ EvEngineStop (engine_device_ w) :: after /\
    start_attempts after = 0%nat.
Proof.
  intros Hd Hv Hi Hr. unfold OnInterruptionBegin.
  destruct (set_is_interrupted_keeps true (engine_state_ w))
    as (Hrm & Hrun & Hval & Hint & Hrs & Hrc).
  destruct (trace_after_device_mode pf (set_is_interrupted true) w)
    as [Ht _];
    [ congruence | congruence | apply Hval, Hv
    | apply set_is_interrupted_changes; exact Hi | ].
  rewrite Ht. unfold ApplyDeviceEngineState. rewrite trace_of_run.
  set (state := mkUpdate (engine_state_ w)
                         (set_is_interrupted true (engine_state_ w))) in *.
  destruct (body_after_stop pf state) as (K & HK & HsK).
  { unfold starts_engine, DidEndInterruption. rewrite Hrs, Hrc.
    cbn [prev next state]. rewrite Hrun, Hr, Hi. reflexivity. }
  rewrite HK.
  destruct (step_stop_engine_trace state w) as (a1 & Hs & Ha1).
  { unfold stops_engine, DidBeginInterruption.
    cbn [prev next state]. rewrite Hr, Hi, Hint.
    rewrite orb_true_r. reflexivity. }
  destruct (bind_trace_after not_start _ (fun _ => K) w _ Hs (fun _ => HsK))
    as (post & Hp & HPp).
  exists (a1 ++ post). split.
  - rewrite Hp, <- !app_assoc. reflexivity.
  - apply not_start_attempts, Forall_app. auto.
Qed.

Lemma interruption_begin_stops_engine_witness :
  exists after,
    trace (snd (OnInterruptionBegin desktop recording_started)) =
      trace recording_started ++
      (match configuration_observer_ recording_started with
       | Some o => [EvRemoveConfigurationObserver o]
       | None => []
       end) ++ EvEngineStop (engine_device_ recording_started) :: after /\
    start_attempts after = 0%nat.
Proof.
  apply (interruption_begin_stops_engine desktop recording_started).
  - reflexivity.
  - split; vm_compute; auto.
  - reflexivity.
  - vm_compute. reflexivity.
Defined.

Lemma no_stop_body pf state :
  stops_engine state = false ->
  steps (grows not_stop) any_exit (ApplyDeviceEngineState_body pf state).
Proof.
  intros Hns. unfold ApplyDeviceEngineState_body. cbv zeta.
  set (HR := StepRel_grows not_stop).
  assert (Hnil : Forall (fun action => forall w, grows not_stop w (action w))
                        (@nil (World -> World))) by constructor.
  apply (steps_bind (HR := HR)).
  { unfold step_stop_engine. fold (stops_engine state). rewrite Hns.
    apply (steps_ret (HR := HR)). }
  intros _.
  apply (steps_bind (HR := HR)); [unfold_steps; grows_steps | intros _].
  apply (steps_bind_value (HR := HR)
           (fun a => a = [] \/ a = [] ++ [set_engine_device_ None])).
  { pose proof (rollback_after_create _ [] _
                  (grows_set_engine_device_ not_stop None) Hnil
                  (or_intror eq_refl)).
    unfold_steps; grows_steps. }
  { intros w a. apply step_create_engine_value. }
  intros rb Hrb.
  apply (rollback_after_create _ [] _
           (grows_set_engine_device_ not_stop None) Hnil) in Hrb.
  do 4 (apply (steps_bind (HR := HR)); [unfold_steps; grows_steps | intros _]).
  do 2 (apply (steps_bind (HR := HR));
        [ try unfold step_output; try unfold step_input; unfold_steps;
          grows_steps
        | intros _ ]).
  do 10 (apply (steps_bind (HR := HR)); [unfold_steps; grows_steps | intros _]).
  unfold_steps; grows_steps.
Qed.

Lemma since_grows t0 (Q Q' : Trace -> Prop) P w w' :
  (forall a b, Q a -> Forall P b -> Q' (a ++ b)) ->
  grows P w w' -> since t0 Q w -> since t0 Q' w'.
Proof.
  intros H (evs' & Ht' & HP) (evs & Ht & HQ).
  exists (evs ++ evs'). rewrite Ht', Ht, app_assoc. auto.
Qed.

Lemma triple_since {A} t0 (Q : Trace -> Prop) (c : M A) :
  (forall a b, Q a -> Q (a ++ b)) ->
  steps (grows any_event) any_exit c ->
  triple (since t0 Q) c (fun _ => since t0 Q).
Proof.
  intros HQ Hc. eapply triple_steps; [exact Hc |].
  intros w w'. apply since_grows. intros a b Ha _. apply HQ, Ha.
Qed.

Lemma started_mono a b :
  (1 <= start_attempts a)%nat -> (1 <= start_attempts (a ++ b))%nat.
Proof. rewrite start_attempts_app. lia. Qed.

Lemma triple_start_engine_with_retries pf t0 :
  triple (since t0 any) (start_engine_with_retries pf)
         (fun _ => since t0 (fun evs => (1 <= start_attempts evs)%nat)).
Proof.
  intros w (evs & Ht & _).
  unfold start_engine_with_retries, bind.
  destruct (start_loop_run pf 0 w ltac:(unfold kStartEngineMaxRetries; lia))
    as (results & Ht' & Hf & _ & Hpos & _).
  specialize (Hpos ltac:(unfold kStartEngineMaxRetries; lia)).
  destruct (start_loop pf 0 w) as [res w1]. simpl in Ht', Hf. subst res.
  assert (Hw1 : since t0 (fun evs => (1 <= start_attempts evs)%nat) w1).
  { exists (evs ++ loop_events (TARGET_OS_OSX pf) (engine_device_ w) 0 results).
    rewrite Ht', Ht, app_assoc. split; [reflexivity |].
    rewrite start_attempts_app, start_attempts_loop_events. lia. }
  assert (Htail : steps (grows any_event) any_exit
            (if last results false
             then o <- alloc KConfigurationObserver ;;
                  emit (EvAddConfigurationObserver o) ;;
                  modify (set_configuration_observer_ (Some o))
             else emit EvDebugAudioEngine)).
  { grows_steps. }
  pose proof (triple_since t0 _ _ started_mono Htail w1 Hw1) as H.
  exact H.
Qed.

Lemma started_body pf state t0 :
  starts_engine state = true ->
  triple (since t0 any) (ApplyDeviceEngineState_body pf state)
         (fun _ => since t0 (fun evs => (1 <= start_attempts evs)%nat)).
Proof.
  intros Hs. unfold ApplyDeviceEngineState_body. cbv zeta.
  assert (Hany : forall a b : Trace, @any Trace a -> @any Trace (a ++ b))
    by (intros; exact I).
  assert (Hnil : Forall (fun action => forall w, grows any_event w (action w))
                        (@nil (World -> World))) by constructor.
  do 2 (eapply triple_bind;
        [apply (triple_since t0 any _ Hany); unfold_steps; grows_steps
        | intro; cbv beta]).
  eapply triple_bind.
  { apply (triple_value
             (fun a => a = [] \/ a = [] ++ [set_engine_device_ None])).
    - intros ? ?. apply step_create_engine_value.
    - pose proof (rollback_after_create _ [] _
                    (grows_set_engine_device_ any_event None) Hnil
                    (or_intror eq_refl)).
      apply (triple_since t0 any _ Hany); unfold_steps; grows_steps. }
  intros rb. cbv beta. apply triple_pure. intros Hrb.
  apply (rollback_after_create _ [] _
           (grows_set_engine_device_ any_event None) Hnil) in Hrb.
  do 4 (eapply triple_bind;
        [apply (triple_since t0 any _ Hany); unfold_steps; grows_steps
        | intro; cbv beta]).
  do 2 (eapply triple_bind;
        [apply (triple_since t0 any _ Hany);
         try unfold step_output; try unfold step_input; unfold_steps;
         grows_steps
        | intro; cbv beta]).
  do 9 (eapply triple_bind;
        [apply (triple_since t0 any _ Hany); unfold_steps; grows_steps
        | intro; cbv beta]).
  eapply triple_bind.
  { unfold step_start_engine. unfold starts_engine in Hs.
    apply andb_prop in Hs. destruct Hs as [Hs1 Hs2]. rewrite Hs1, Hs2.
    unfold when.
    eapply triple_bind;
      [apply (triple_since t0 any _ Hany); grows_steps | intro; cbv beta].
    eapply triple_bind;
      [apply (triple_since t0 any _ Hany); grows_steps | intro; cbv beta].
    apply triple_start_engine_with_retries. }
  intro; cbv beta.
  apply (triple_since t0 _ _ started_mono); unfold_steps; grows_steps.
Qed.

Lemma run_triple_from d (Pre Q : World -> Prop) (c : M unit) w :
  triple Pre c (fun _ => Q) -> spec d any c -> Pre w ->
  fst (run c w) = 0 -> Q (snd (run c w)).
Proof.
  intros Ht Hs Hw. specialize (Ht w Hw). destruct (Hs w) as (evs & _ & _ & H).
  unfold run. destruct (c w) as [[r | []] w1]; simpl in *.
  - intros ->. destruct H as [H _]. contradiction H. reflexivity.
  - intros _. exact Ht.
Qed.

(** X11. When an interruption ends while the committed state is running
    in device mode, the call never stops the engine, and if it returns 0
    it has called [startAndReturnError] at least once. *)
Theorem interruption_end_restarts_engine (pf : Platform)
  (should_resume : bool) (w : World) :
  render_mode (engine_state_ w) = Device ->
  running_implies_enabled (engine_state_ w) ->
  is_interrupted (engine_state_ w) = true ->
  IsAnyRunning (engine_state_ w) = true ->
  exists evs,
    trace (snd (OnInterruptionEnd pf should_resume w)) = trace w ++ evs /\
    Forall (fun e => is_engine_stop e = false) evs /\
    (fst (OnInterruptionEnd pf should_resume w) = 0 ->
     (1 <= start_attempts evs)%nat).
Proof.
  intros Hd Hv Hi Hr. unfold OnInterruptionEnd.
  destruct (set_is_interrupted_keeps false (engine_state_ w))
    as (Hrm & Hrun & Hval & Hint & Hrs & Hrc).
  destruct (trace_after_device_mode pf (set_is_interrupted false) w)
    as [Ht Hres];
    [ congruence | congruence | apply Hval, Hv
    | apply set_is_interrupted_changes; exact Hi | ].
  rewrite Ht, Hres. unfold ApplyDeviceEngineState. rewrite trace_of_run.
  set (state := mkUpdate (engine_state_ w)
                         (set_is_interrupted false (engine_state_ w))) in *.
  destruct (no_stop_body pf state) with (w := w) as [(evs & He & HP) _].
  { unfold stops_engine, DidBeginInterruption. rewrite Hrs, Hrc.
    cbn [prev next state]. rewrite Hrun, Hr, Hi. reflexivity. }
  exists evs. split; [exact He |]. split; [exact HP |].
  intros H0.
  assert (Hs : starts_engine state = true).
  { unfold starts_engine, DidEndInterruption.
    cbn [prev next state]. rewrite Hrun, Hr, Hi, Hint.
    rewrite orb_true_r. reflexivity. }
  pose proof (run_triple_from _ _ _ _ w
                (started_body pf state (trace w) Hs)
                (spec_ApplyDeviceEngineState_body pf state)) as Hq.
  destruct Hq as (evs' & He' & Hc); [| exact H0 |].
  { exists []. rewrite app_nil_r. split; [reflexivity | exact I]. }
  rewrite trace_of_run, He in He'. apply app_inv_head in He'. subst evs'.
  exact Hc.
Qed.

Lemma interruption_end_restarts_engine_witness :
  exists evs,
    trace (snd (OnInterruptionEnd desktop true recording_interrupted))
      = trace recording_interrupted ++ evs /\
    Forall (fun e => is_engine_stop e = false) evs /\
    (fst (OnInterruptionEnd desktop true recording_interrupted) = 0 ->
     (1 <= start_attempts evs)%nat).
Proof.
  apply (interruption_end_restarts_engine desktop true recording_interrupted).
  - reflexivity.
  - split; vm_compute; auto.
  - reflexivity.
  - vm_compute. reflexivity.
Defined.

(** ** Notifications for both sides *)




(** ** Setters and getters *)

Lemma getter_after {X} (getter : EngineState -> X) pf state_transform w :
  getter (engine_state_ (snd (ModifyEngineState pf state_transform w))) =
  if fst (ModifyEngineState pf state_transform w) =? 0
  then getter (state_transform (engine_state_ w))
  else getter (engine_state_ w).
Proof.
  destruct (ModifyEngineState_outcome pf state_transform w)
    as (evs & _ & Hz & Hn & _).
  destruct (Z.eqb_spec (fst (ModifyEngineState pf state_transform w)) 0)
    as [E | N].
  - destruct (Hz E) as [-> _]. reflexivity.
  - rewrite (Hn N). reflexivity.
Qed.

(** X12. Setters and getters agree.  After a setter returned 0 its getter
    reads the value that was set; after any other result it reads what it
    read before the call. *)
Theorem setters_read_back (pf : Platform) (w : World) :
  (forall enable,
     reads_back MicrophoneMute enable (SetMicrophoneMute pf enable) w) /\
  (forall enable,
     reads_back VoiceProcessingEnabled enable
                (SetVoiceProcessingEnabled pf enable) w) /\
  (forall enable,
     reads_back VoiceProcessingBypassed enable
                (SetVoiceProcessingBypassed pf enable) w) /\
  (forall enable,
     reads_back VoiceProcessingAGCEnabled enable
                (SetVoiceProcessingAGCEnabled pf enable) w) /\
  (forall enable,
     reads_back ManualRenderingMode enable
                (SetManualRenderingMode pf enable) w) /\
  (forall mode, reads_back GetMuteMode mode (SetMuteMode pf mode) w) /\
  (forall enable,
     reads_back AdvancedDucking enable (SetAdvancedDucking pf enable) w) /\
  (forall level, reads_back DuckingLevel level (SetDuckingLevel pf level) w) /\
  (forall enable,
     reads_back InitRecordingPersistentMode enable
                (SetInitRecordingPersistentMode pf enable) w) /\
  (forall new_state,
     reads_back GetEngineState new_state (SetEngineState pf new_state) w).
Proof.
  repeat split; intros v; unfold reads_back.
  - unfold MicrophoneMute, SetMicrophoneMute.
    rewrite (getter_after input_muted).
    destruct (_ =? 0); [destruct (engine_state_ w) |]; reflexivity.
  - unfold VoiceProcessingEnabled, SetVoiceProcessingEnabled.
    rewrite (getter_after voice_processing_enabled).
    destruct (_ =? 0); [destruct (engine_state_ w) |]; reflexivity.
  - unfold VoiceProcessingBypassed, SetVoiceProcessingBypassed.
    rewrite (getter_after voice_processing_bypassed).
    destruct (_ =? 0); [destruct (engine_state_ w) |]; reflexivity.
  - unfold VoiceProcessingAGCEnabled, SetVoiceProcessingAGCEnabled.
    rewrite (getter_after voice_processing_agc_enabled).
    destruct (_ =? 0); [destruct (engine_state_ w) |]; reflexivity.
  - unfold ManualRenderingMode, SetManualRenderingMode.
    rewrite (getter_after (fun s => RenderMode_eqb (render_mode s) Manual)).
    destruct (_ =? 0); [destruct (engine_state_ w), v |]; reflexivity.
  - unfold GetMuteMode, SetMuteMode.
    rewrite (getter_after mute_mode).
    destruct (_ =? 0); [destruct (engine_state_ w) |]; reflexivity.
  - unfold AdvancedDucking, SetAdvancedDucking.
    rewrite (getter_after advanced_ducking).
    destruct (_ =? 0); [destruct (engine_state_ w) |]; reflexivity.
  - unfold DuckingLevel, SetDuckingLevel.
    rewrite (getter_after ducking_level).
    destruct (_ =? 0); [destruct (engine_state_ w) |]; reflexivity.
  - unfold InitRecordingPersistentMode, SetInitRecordingPersistentMode.
    rewrite (getter_after input_enabled_persistent_mode).
    destruct (_ =? 0); [destruct (engine_state_ w) |]; reflexivity.
  - unfold GetEngineState, SetEngineState.
    rewrite (getter_after (fun s => s)). reflexivity.
Qed.

(** ** Life cycle and device lists on the desktop *)

Lemma push_device_lists hal all : forall l,
  input_ids (fold_left (push_device hal) all l) =
    input_ids l ++ filter (IsInputDevice hal) all /\
  output_ids (fold_left (push_device hal) all l) =
    output_ids l ++ filter (IsOutputDevice hal) all /\
  input_labels (fold_left (push_device hal) all l) =
    input_labels l ++
    map (fun id => label_or "Unknown Input Device"%string
                            (GetDeviceLabel hal id true))
        (filter (IsInputDevice hal) all) /\
  output_labels (fold_left (push_device hal) all l) =
    output_labels l ++
    map (fun id => label_or "Unknown Output Device"%string
                            (GetDeviceLabel hal id false))
        (filter (IsOutputDevice hal) all).
Proof.
  induction all as [| id all IH]; intros l; simpl.
  - rewrite !app_nil_r. auto.
  - destruct (IH (push_device hal l id)) as (H1 & H2 & H3 & H4).
    rewrite H1, H2, H3, H4. unfold push_device.
    destruct (IsInputDevice hal id), (IsOutputDevice hal id); simpl;
      rewrite <- ?app_assoc; auto.
Qed.

(** X13. [UpdateAllDeviceIDs] splits the devices the HAL reports into the
    input and the output list, keeping the order of the HAL; a device that
    is both is in both lists.  The label lists run parallel to the id
    lists, so the two checks [ids.size() == labels.size()] of the name
    getters hold; a device without a label gets the "Unknown" one. *)
Theorem UpdateAllDeviceIDs_lists (hal : Hal) (d : DeviceObject) :
  let all_device_ids := GetAllAudioDeviceIDs hal (hal_calls d) in
  let d' := UpdateAllDeviceIDs hal d in
  input_device_ids_ d' = filter (IsInputDevice hal) all_device_ids /\
  output_device_ids_ d' = filter (IsOutputDevice hal) all_device_ids /\
  input_device_labels_ d' =
    map (fun id => label_or "Unknown Input Device"%string
                            (GetDeviceLabel hal id true))
        (input_device_ids_ d') /\
  output_device_labels_ d' =
    map (fun id => label_or "Unknown Output Device"%string
                            (GetDeviceLabel hal id false))
        (output_device_ids_ d') /\
  length (input_device_labels_ d') = length (input_device_ids_ d') /\
  length (output_device_labels_ d') = length (output_device_ids_ d').
Proof.
  cbv zeta. unfold UpdateAllDeviceIDs. cbv zeta. simpl.
  destruct (push_device_lists hal (GetAllAudioDeviceIDs hal (hal_calls d))
              (mkDeviceLists [] [] [] [])) as (H1 & H2 & H3 & H4).
  simpl in *. rewrite H1, H2, H3, H4, !length_map. auto 10.
Qed.

(** X14. [Init] never touches the engine and never removes a listener.
    It returns 0 with the object initialised, and is then without effect
    when called again; or it returns -1 with the object not initialised,
    and then [Terminate] returns 0 without doing anything, so that the
    listeners added before the failing call stay registered. *)
Theorem Init_outcome (pf : Platform) (hal : Hal) (d : DeviceObject) :
  let r := Init pf hal d in
  members (snd r) = members d /\
  (exists calls,
     hal_calls (snd r) = hal_calls d ++ calls /\
     forallb (fun c => negb (is_remove_call c)) calls = true) /\
  ((fst r = 0 /\ Initialized (snd r) = true /\
    Init pf hal (snd r) = (0, snd r)) \/
   (fst r = -1 /\ Initialized (snd r) = false /\
    Terminate pf hal (snd r) = (0, snd r))).
Proof.
  cbv zeta. unfold Init, Initialized.
  destruct (initialized_ d) eqn:Hi.
  { simpl. split; [reflexivity |]. split.
    - exists []. rewrite app_nil_r. auto.
    - left. rewrite Hi. auto. }
  destruct (TARGET_OS_OSX pf) eqn:Hosx.
  2:{ simpl. split; [reflexivity |]. split.
      - exists []. rewrite app_nil_r. auto.
      - left. auto. }
  assert (Hterm : forall d0, initialized_ d0 = false ->
                  Terminate pf hal d0 = (0, d0)).
  { intros d0 H0. unfold Terminate. rewrite H0. reflexivity. }
  unfold add_listener. cbv zeta.
  repeat match goal with
         | |- context [if negb (?e =? noErr) then _ else _] =>
             destruct (e =? noErr); cbn [negb]
         end;
    cbn [fst snd members hal_call hal_calls UpdateAllDeviceIDs set_initialized_
         initialized_];
    (split; [reflexivity |]);
    (split;
     [ eexists; rewrite <- ?app_assoc; split; [reflexivity | reflexivity]
     | first [ left; split; [reflexivity |]; split; reflexivity
             | right; split; [reflexivity |]; split; [exact Hi |];
               apply Hterm; exact Hi ] ]).
Qed.









(** X16. Device selection by index on the desktop.  The valid indexes
    are those below [PlayoutDevices()] (respectively [RecordingDevices()]):
    any other index is answered with -1 and changes nothing.  For a valid
    index the call returns what [ModifyEngineState] returns; if that is 0
    the selected device is the default device (the id
    [kAudioObjectUnknown]) for index 0 and the entry [index - 1] of the
    device list otherwise, and if not the selection is as before.  The
    device lists are never changed. *)
Theorem device_selection_by_index (pf : Platform) (d : DeviceObject)
  (index : nat) :
  TARGET_OS_OSX pf = true ->
  ((PlayoutDevices pf d <= index)%nat -> SetPlayoutDevice pf index d = (-1, d)) /\
  ((index < PlayoutDevices pf d)%nat ->
   let r := SetPlayoutDevice pf index d in
   output_device_id (engine_state_ (members (snd r))) =
     (if fst r =? 0
      then nth index (kAudioObjectUnknown :: output_device_ids_ d) 0
      else output_device_id (engine_state_ (members d))) /\
   output_device_ids_ (snd r) = output_device_ids_ d /\
   input_device_ids_ (snd r) = input_device_ids_ d) /\
  ((RecordingDevices pf d <= index)%nat ->
   SetRecordingDevice pf index d = (-1, d)) /\
  ((index < RecordingDevices pf d)%nat ->
   let r := SetRecordingDevice pf index d in
   input_device_id (engine_state_ (members (snd r))) =
     (if fst r =? 0
      then nth index (kAudioObjectUnknown :: input_device_ids_ d) 0
      else input_device_id (engine_state_ (members d))) /\
   output_device_ids_ (snd r) = output_device_ids_ d /\
   input_device_ids_ (snd r) = input_device_ids_ d).
Proof.
  intros Hosx.
  unfold PlayoutDevices, RecordingDevices, SetPlayoutDevice,
    SetRecordingDevice. rewrite Hosx.
  split; [| split; [| split]].
  - intros H. destruct (Nat.ltb_spec (length (output_device_ids_ d)) index);
      [reflexivity | lia].
  - intros H. cbv zeta.
    destruct (Nat.ltb_spec (length (output_device_ids_ d)) index); [lia |].
    pose proof (getter_after output_device_id pf
                  (set_output_device_id
                     (if (index =? 0)%nat then kAudioObjectUnknown
                      else nth (index - 1) (output_device_ids_ d) 0))
                  (members d)) as Hg.
    destruct (ModifyEngineState pf _ (members d)) as [res w1].
    cbn [fst snd set_members members output_device_ids_ input_device_ids_] in *.
    split; [| auto]. rewrite Hg.
    destruct (res =? 0); [| reflexivity].
    destruct index as [| i]; simpl; [destruct (engine_state_ (members d));
                                     reflexivity |].
    rewrite Nat.sub_0_r. destruct (engine_state_ (members d)); reflexivity.
  - intros H. destruct (Nat.ltb_spec (length (input_device_ids_ d)) index);
      [reflexivity | lia].
  - intros H. cbv zeta.
    destruct (Nat.ltb_spec (length (input_device_ids_ d)) index); [lia |].
    pose proof (getter_after input_device_id pf
                  (set_input_device_id
                     (if (index =? 0)%nat then kAudioObjectUnknown
                      else nth (index - 1) (input_device_ids_ d) 0))
                  (members d)) as Hg.
    destruct (ModifyEngineState pf _ (members d)) as [res w1].
    cbn [fst snd set_members members output_device_ids_ input_device_ids_] in *.
    split; [| auto]. rewrite Hg.
    destruct (res =? 0); [| reflexivity].
    destruct index as [| i]; simpl; [destruct (engine_state_ (members d));
                                     reflexivity |].
    rewrite Nat.sub_0_r. destruct (engine_state_ (members d)); reflexivity.
Qed.

Lemma device_selection_by_index_witness :
  let d := snd (Init desktop three_devices new_DeviceObject) in
  SetPlayoutDevice desktop 3 d = (-1, d) /\
  output_device_id (engine_state_ (members (snd (SetPlayoutDevice desktop 2 d))))
    = 43.
Proof.
  cbv zeta.
  destruct (device_selection_by_index desktop
              (snd (Init desktop three_devices new_DeviceObject)) 3 eq_refl)
    as (H1 & _).
  destruct (device_selection_by_index desktop
              (snd (Init desktop three_devices new_DeviceObject)) 2 eq_refl)
    as (_ & H2 & _).
  split.
  - apply H1. vm_compute. lia.
  - destruct H2 as [H2 _]; [vm_compute; lia |].
    etransitivity; [exact H2 | vm_compute; reflexivity].
Defined.

(** ** The debounced default-device update, both sides *)








(** A default-input notification 100 ms after three default-output
    notifications: the one update that runs is the input one, and the output
    counter is not incremented, although the output update alone would have
    been committed. *)
Lemma default_output_burst_dropped :
  let th0 := idle_thread 0 (snd (InitPlayout desktop initial_World)) in
  let th :=
    advance_to desktop 1000
      (deliver_all desktop
         [(0, kAudioHardwarePropertyDefaultOutputDevice);
          (100, kAudioHardwarePropertyDefaultOutputDevice);
          (200, kAudioHardwarePropertyDefaultOutputDevice);
          (300, kAudioHardwarePropertyDefaultInputDevice)]
         th0) in
  fst (ModifyEngineState desktop default_output_update_transform (world th0))
    = 0 /\
  default_output_device_update_count (engine_state_ (world th)) = 0 /\
  default_input_device_update_count (engine_state_ (world th)) = 1 /\
  delayed_tasks th = [].
Proof. cbv zeta. repeat split; vm_compute; reflexivity. Qed.

(** ** An observer rejection and the buffer *)




Section TowardSteps.

Variable state : EngineStateUpdate.

Let out := IsOutputEnabled (next state).
Let inp := IsInputEnabled (next state).





End TowardSteps.




Lemma toward_commit out inp s w w' :
  toward out inp w w' -> toward out inp w (set_engine_state_ s w').
Proof. destruct w'. exact (fun H => H). Qed.




(** ** The start loop inside the applier *)

















